(** * Luna venue discovery backend: interest ledger, booking trigger and
      recommendation scorer.

    A shallow embedding of [Luna-Backend/agent.py], [Luna-Backend/models.py]
    and the handlers of [Luna-Backend/main.py], with the properties of the
    interest/booking state machine and of the scorer proved about it.

    Conventions of the embedding.
    - Python [str] values are Rocq strings.  [str.lower], [str.isalnum],
      [str.isspace] and [str.strip] are modelled on ASCII text; a statement
      that depends on what they return assumes that the text is ASCII
      ([is_ascii]).
    - Python [int] values that are lengths or counts are [nat]; the
      [user_count] argument of the booking agent is an arbitrary [Z].
    - A [float] is an IEEE 754 binary64 number, modelled by the rational
      that it denotes; an operation on floats computes the exact result and
      rounds it to the nearest binary64 number, ties to even ([binary64]).
    - [datetime.now()] and [random.randint] are read from an explicit oracle.
    - The module-level globals [interests_list], [bookings_list] and
      [venue_locks], together with the records emitted through [logger], form
      the explicit state that the handlers pass along.  Handlers are modelled
      one call at a time (the body run under the venue lock is one step).
    - [users_dict], [venues_dict] and the initial [interests_list] come from
      [data.py]; they are parameters of the development.  [venues_dict] is
      the list of its items in insertion order (a dictionary has no two items
      with one key).
    - The pydantic validator of [InterestRequest] runs before the handler and
      returns an accepted id unchanged ([validate_ids]); the handlers are
      studied on all requests.  The health check [GET /] touches no state and
      is left out. *)

From stdpp Require Import gmap strings list pretty sorting.
From Stdlib Require Import Ascii QArith Qminmax Qround Qabs Qpower.

Local Open Scope string_scope.
Local Open Scope list_scope.
Local Open Scope nat_scope.

(** ** models.py *)

(** A [datetime] value, as an opaque point in time. *)
Definition datetime := Z.
Bind Scope Z_scope with datetime.

Module User.
Record t := mk {
  id : string;
  name : string;
  avatar : string;
  bio : string;
  interests : list string
}.
End User.

Module Venue.
Record t := mk {
  id : string;
  name : string;
  category : string;
  description : string;
  image : string;
  address : string
}.
End Venue.

Module Interest.
Record t := mk {
  user_id : string;
  venue_id : string;
  timestamp : datetime
}.
End Interest.

(** The booking dictionaries that [express_interest] appends to
    [bookings_list]; all six keys are always present. *)
Module Booking.
Record t := mk {
  id : string;
  venue_id : string;
  user_ids : list string;
  reservation_code : string;
  created_at : string;
  status : string
}.
End Booking.

Global Instance Interest_eq_dec : EqDecision Interest.t.
Proof. solve_decision. Defined.

Global Instance Booking_eq_dec : EqDecision Booking.t.
Proof. solve_decision. Defined.

(** ** Exceptions *)

Inductive PyException :=
| KeyError (key : string)
| OtherException (msg : string).

(** [str(e)] *)
Definition str_exn (e : PyException) : string :=
  match e with
  | KeyError k => "'" +:+ k +:+ "'"
  | OtherException m => m
  end.

Inductive Raises (A : Type) :=
| Returned (a : A)
| Raised (e : PyException).
Arguments Returned {A} a.
Arguments Raised {A} e.

Global Instance raises_ret : MRet Raises := λ A a, Returned a.
Global Instance raises_bind : MBind Raises := λ A B k m,
  match m with
  | Returned a => k a
  | Raised e => Raised e
  end.

(** [d[key]] on a dictionary whose entry for [key] is [field]. *)
Definition getitem {A} (key : string) (field : option A) : Raises A :=
  match field with
  | Some a => Returned a
  | None => Raised (KeyError key)
  end.

(** ** agent.py *)

(** The dictionary returned by a booking agent.  A key that is absent from
    the dictionary is [None]. *)
Module AgentResponse.
Record t := mk {
  agent_triggered : option bool;
  action : option string;
  venue_id : option string;
  booking_id : option string;
  message : option string;
  reservation_code : option string;
  user_ids : option (list string);
  created_at : option string
}.
End AgentResponse.

(** What one call of [booking_agent] reads from its environment. *)
Record Oracle := {
  randint_1000_9999 : Z;      (* random.randint(1000, 9999) *)
  now_isoformat : string      (* datetime.now().isoformat() *)
}.

Definition threshold : Z := 3.

(** [booking["venue_id"] == venue_id and booking["status"] == "active"] *)
Definition is_active_for (venue_id : string) (booking : Booking.t) : Prop :=
  Booking.venue_id booking = venue_id ∧ Booking.status booking = "active".

Global Instance is_active_for_dec venue_id booking :
  Decision (is_active_for venue_id booking).
Proof. unfold is_active_for. apply _. Defined.

(** The loop [for booking in bookings: if ...: (return | break)]: the first
    booking that is active for the venue, with its position. *)
Definition first_active (venue_id : string) (bookings : list Booking.t)
  : option (nat * Booking.t) :=
  list_find (is_active_for venue_id) bookings.

Definition booking_agent (o : Oracle)
    (venue_id venue_name : string) (user_count : Z)
    (interested_user_ids : list string)
    (existing_bookings : list Booking.t) : AgentResponse.t :=
  if bool_decide (user_count < threshold)%Z then
    AgentResponse.mk (Some false) None None None None None None None
  else
    match first_active venue_id existing_bookings with
    | Some (_, booking) =>
        AgentResponse.mk (Some false) (Some "booking_exists") (Some venue_id)
          None
          (Some ("Active booking already exists for " +:+ venue_name))
          (Some (Booking.reservation_code booking)) None None
    | None =>
        let reservation_code :=
          "LUNA-" +:+ venue_id +:+ "-" +:+ pretty (randint_1000_9999 o) in
        let booking_id :=
          "booking_" +:+ pretty (length existing_bookings + 1) in
        AgentResponse.mk (Some true) (Some "reservation_simulated")
          (Some venue_id) (Some booking_id)
          (Some ("Mock booking agent: Reserved table for "
                 +:+ pretty user_count +:+ " at " +:+ venue_name))
          (Some reservation_code) (Some interested_user_ids)
          (Some (now_isoformat o))
    end.

(** A booking collaborator as [express_interest] sees it: called with the
    arguments of [booking_agent], it returns a dictionary or raises. *)
Definition Agent : Type :=
  string → string → Z → list string → list Booking.t → Raises AgentResponse.t.

(** ** main.py *)

Inductive Level := INFO | WARNING | ERROR.

(** The module-level mutable state, and the records handed to [logger]. *)
Record State := mkState {
  interests_list : list Interest.t;
  bookings_list : list Booking.t;
  venue_locks : gset string;
  log : list (Level * string)
}.

Definition logger (lvl : Level) (msg : string) (s : State) : State :=
  mkState (interests_list s) (bookings_list s) (venue_locks s)
          (log s ++ [(lvl, msg)]).

Definition set_interests (l : list Interest.t) (s : State) : State :=
  mkState l (bookings_list s) (venue_locks s) (log s).

Definition set_bookings (l : list Booking.t) (s : State) : State :=
  mkState (interests_list s) l (venue_locks s) (log s).

(** [get_venue_lock]: the lock table gets an entry for the venue on first
    use; the lock object itself is not modelled. *)
Definition get_venue_lock (venue_id : string) (s : State) : State :=
  mkState (interests_list s) (bookings_list s)
          (if bool_decide (venue_id ∈ venue_locks s) then venue_locks s
           else {[venue_id]} ∪ venue_locks s)
          (log s).

(** The result of a handler: a response, or [raise HTTPException(...)]. *)
Inductive Http (A : Type) :=
| Ok (response : A)
| HTTPException (status_code : nat) (detail : string).
Arguments Ok {A} response.
Arguments HTTPException {A} status_code detail.

Module InterestRequest.
Record t := mk {
  user_id : string;
  venue_id : string
}.
End InterestRequest.

Module InterestResponse.
Record t := mk {
  success : bool;
  agent_triggered : bool;
  message : string;
  reservation_code : option string;
  booking_cancelled : option bool
}.
End InterestResponse.

(** [booking["status"] = status] on the dictionary stored in the list. *)
Definition set_status (status : string) (b : Booking.t) : Booking.t :=
  Booking.mk (Booking.id b) (Booking.venue_id b) (Booking.user_ids b)
             (Booking.reservation_code b) (Booking.created_at b) status.

(** [d.get(key)] / [key in d] on an insertion-ordered dictionary given by
    its items. *)
Fixpoint dict_get {V} (d : list (string * V)) (key : string) : option V :=
  match d with
  | [] => None
  | (k, v) :: d' => if bool_decide (k = key) then Some v else dict_get d' key
  end.

Definition get_interested_count (interests : list Interest.t)
    (venue_id : string) : nat :=
  length (filter (λ interest, Interest.venue_id interest = venue_id) interests).

Definition count_friends_interested (interests : list Interest.t)
    (user_id venue_id : string) : nat :=
  length (filter (λ interest, Interest.venue_id interest = venue_id
                              ∧ Interest.user_id interest ≠ user_id) interests).

(** The outcomes that are built without data of the call. *)
Definition interest_recorded : InterestResponse.t :=
  InterestResponse.mk true false "Interest recorded successfully"
                      None (Some false).

Definition booking_cancelled_response : InterestResponse.t :=
  InterestResponse.mk true false
    "Interest removed. Booking cancelled due to insufficient interest."
    None (Some true).

Definition interest_removed (venue_name : string) : InterestResponse.t :=
  InterestResponse.mk true false ("Interest removed for " +:+ venue_name)
                      None (Some false).

Definition booking_created (message code : string) : InterestResponse.t :=
  InterestResponse.mk true true message (Some code) (Some false).

Definition booking_already_active (message code : string)
  : InterestResponse.t :=
  InterestResponse.mk true false ("Interest recorded. " +:+ message)
                      (Some code) (Some false).

(** [str.lower] on ASCII text: the letters A to Z are mapped to a to z and
    every other character is kept.  On text with letters outside ASCII
    Python's [str.lower] changes more than this; what is proved of the
    result of [lower] is proved for ASCII text. *)
Definition lower_ascii (c : ascii) : ascii :=
  let n := nat_of_ascii c in
  if bool_decide (65 ≤ n ≤ 90) then ascii_of_nat (n + 32) else c.

Fixpoint lower (s : string) : string :=
  match s with
  | EmptyString => EmptyString
  | String c s' => String (lower_ascii c) (lower s')
  end.

(** [needle in s] on strings: [needle] occurs in [s] as a substring. *)
Fixpoint str_in (needle s : string) : bool :=
  String.prefix needle s
  || match s with
     | EmptyString => false
     | String _ s' => str_in needle s'
     end.

(** [round(x)] to an integer, ties to the even neighbour. *)
Definition round_half_even (x : Q) : Z :=
  let f := Qfloor x in
  match (x - inject_Z f ?= 1 # 2)%Q with
  | Lt => f
  | Gt => (f + 1)%Z
  | Eq => if Z.even f then f else (f + 1)%Z
  end.

(** *** Python floats

    A finite [float] is the rational it denotes, in lowest terms.  The
    numbers met here are 0 or between 1/3 and the length of the ledger over
    3, so that no result is subnormal, and none overflows for a ledger of
    fewer than 2^1024 interests: the exponent range is not modelled. *)

(** The binade of a positive rational: the [e] with 2^e <= x < 2^(e+1). *)
Definition binade (x : Q) : Z :=
  let e := (Z.log2 (Qnum x) - Z.log2 (Zpos (Qden x)))%Z in
  if Qle_bool (2 ^ e) x then e else (e - 1)%Z.

(** Rounding to the nearest binary64 number, ties to even: a number in the
    binade [e] is rounded to a multiple of 2^(e-52), so that the result has
    53 significant bits. *)
Definition binary64 (x : Q) : Q :=
  let x := Qred x in
  match Qnum x with
  | Z0 => 0%Q
  | _ =>
      let e := (binade (Qabs x) - 52)%Z in
      Qred (inject_Z (round_half_even (x / 2 ^ e)) * 2 ^ e)
  end.

(** [x + y] on floats, and on a float and a small [int]. *)
Definition float_add (x y : Q) : Q := binary64 (x + y).

(** [a / b] on [int]s: the quotient, correctly rounded. *)
Definition int_truediv (a b : Z) : Q := binary64 (inject_Z a / inject_Z b).

(** [round(x, 1)]: the exact value of [x] is rounded to one decimal, ties
    to even, and the decimal number is converted back to a float. *)
Definition round1 (x : Q) : Q :=
  binary64 (inject_Z (round_half_even (x * 10)) / 10).

(** [list.sort(key=key)]: a stable sort, ascending in the key.  Each element
    is put in front of the first one whose key is not smaller. *)
Fixpoint insert_by_key {A} (key : A → Q) (x : A) (l : list A) : list A :=
  match l with
  | [] => [x]
  | y :: l' =>
      if Qle_bool (key x) (key y) then x :: l
      else y :: insert_by_key key x l'
  end.

Definition sort_by_key {A} (key : A → Q) (l : list A) : list A :=
  foldr (insert_by_key key) [] l.

Module Recommendation.
Record t := mk {
  venue : Venue.t;
  interested_count : nat;
  score : Q;
  reason : string;
  already_interested : bool;
  friends_interested : nat;
  total_interested : nat
}.
End Recommendation.

Module UserBooking.
Record t := mk {
  id : string;
  venue_id : string;
  venue_name : string;
  venue_category : string;
  venue_image : string;
  venue_address : string;
  reservation_code : string;
  created_at : string;
  party_size : nat
}.
End UserBooking.

Module VenueBooking.
Record t := mk {
  id : string;
  reservation_code : string;
  created_at : string;
  party_size : nat
}.
End VenueBooking.

Module VenueBookingResponse.
Record t := mk {
  has_booking : bool;
  booking : option VenueBooking.t
}.
End VenueBookingResponse.

(** The code and the booking id that [booking_agent] mints from the random
    draw of the call and from the size of the registry. *)
Definition minted_code (o : Oracle) (venue_id : string) : string :=
  "LUNA-" +:+ venue_id +:+ "-" +:+ pretty (randint_1000_9999 o).

Definition minted_id (existing_bookings : list Booking.t) : string :=
  "booking_" +:+ pretty (S (length existing_bookings)).

(** The user ids that the toggle-on path hands to the collaborator. *)
Definition ids_for (venue_id : string) (interests : list Interest.t)
  : list string :=
  Interest.user_id <$>
    filter (λ interest, Interest.venue_id interest = venue_id) interests.

Section Handlers.

(** [data.py]: the user and venue directories.  [venues_dict] is given by its
    items, in insertion order. *)
Variable users_dict : gmap string User.t.
Variable venues_dict : list (string * Venue.t).

(** *** POST /interests *)

(** [interest.user_id == request.user_id and
     interest.venue_id == request.venue_id] *)
Definition is_interest_of (user_id venue_id : string) (interest : Interest.t)
  : Prop :=
  Interest.user_id interest = user_id ∧ Interest.venue_id interest = venue_id.

Global Instance is_interest_of_dec user_id venue_id interest :
  Decision (is_interest_of user_id venue_id interest).
Proof. unfold is_interest_of. apply _. Defined.

(** The [if existing_interest is not None] branch. *)
Definition toggle_off (venue_id user_id : string) (venue : Venue.t)
    (existing_interest : nat) (s : State) : State * InterestResponse.t :=
  let s := set_interests (delete existing_interest (interests_list s)) s in
  let s := logger INFO ("Interest removed: user=" +:+ user_id
                        +:+ ", venue=" +:+ venue_id) s in
  let interested_count := get_interested_count (interests_list s) venue_id in
  match first_active venue_id (bookings_list s) with
  | Some (k, active_booking) =>
      if bool_decide (interested_count < 3) then
        let s := set_bookings
                   (<[k := set_status "cancelled" active_booking]>
                      (bookings_list s)) s in
        let s := logger INFO ("Booking cancelled for venue=" +:+ venue_id
                              +:+ ", count dropped to "
                              +:+ pretty interested_count) s in
        (s, booking_cancelled_response)
      else (s, interest_removed (Venue.name venue))
  | None => (s, interest_removed (Venue.name venue))
  end.

(** The body of the [try] block: the state it leaves, and the response it
    returns or the exception it raises. *)
Definition try_booking (agent : Agent) (venue_id venue_name : string)
    (interested_count : nat) (interested_user_ids : list string) (s : State)
  : State * Raises InterestResponse.t :=
  match agent venue_id venue_name (Z.of_nat interested_count)
              interested_user_ids (bookings_list s) with
  | Raised e => (s, Raised e)
  | Returned agent_response =>
    match getitem "agent_triggered"
                  (AgentResponse.agent_triggered agent_response) with
    | Raised e => (s, Raised e)
    | Returned true =>
        let new_booking : Raises Booking.t :=
          id ← getitem "booking_id" (AgentResponse.booking_id agent_response);
          user_ids ← getitem "user_ids" (AgentResponse.user_ids agent_response);
          reservation_code ←
            getitem "reservation_code"
                    (AgentResponse.reservation_code agent_response);
          created_at ←
            getitem "created_at" (AgentResponse.created_at agent_response);
          mret (Booking.mk id venue_id user_ids reservation_code created_at
                           "active") in
        match new_booking with
        | Raised e => (s, Raised e)
        | Returned booking =>
            let s := set_bookings (bookings_list s ++ [booking]) s in
            let s := logger INFO ("Booking created: " +:+ Booking.id booking
                                  +:+ " for venue=" +:+ venue_id
                                  +:+ ", count=" +:+ pretty interested_count)
                            s in
            (s,
             message ← getitem "message" (AgentResponse.message agent_response);
             reservation_code ←
               getitem "reservation_code"
                       (AgentResponse.reservation_code agent_response);
             mret (booking_created message reservation_code))
        end
    | Returned false =>
        if bool_decide (AgentResponse.action agent_response
                        = Some "booking_exists") then
          let s := logger INFO ("Booking already exists for venue="
                                +:+ venue_id) s in
          (s,
           message ← getitem "message" (AgentResponse.message agent_response);
           reservation_code ←
             getitem "reservation_code"
                     (AgentResponse.reservation_code agent_response);
           mret (booking_already_active message reservation_code))
        else (s, Returned interest_recorded)
    end
  end.

(** The [else] branch (toggle on), with its [try ... except Exception]. *)
Definition toggle_on (agent : Agent) (now : datetime)
    (venue_id user_id : string) (venue : Venue.t) (s : State)
  : State * InterestResponse.t :=
  let new_interest := Interest.mk user_id venue_id now in
  let s := set_interests (interests_list s ++ [new_interest]) s in
  let s := logger INFO ("Interest added: user=" +:+ user_id
                        +:+ ", venue=" +:+ venue_id) s in
  let interested_user_ids :=
    Interest.user_id <$>
      filter (λ interest, Interest.venue_id interest = venue_id)
             (interests_list s) in
  let interested_count := length interested_user_ids in
  let venue_name := Venue.name venue in
  match try_booking agent venue_id venue_name interested_count
                    interested_user_ids s with
  | (s, Returned response) => (s, response)
  | (s, Raised e) =>
      (logger ERROR ("Booking agent error: " +:+ str_exn e) s,
       interest_recorded)
  end.

(** [express_interest], for a given booking collaborator.  [now] is the
    value of [datetime.now()] read on the toggle-on path. *)
Definition express_interest_with (agent : Agent) (now : datetime)
    (request : InterestRequest.t) (s : State)
  : State * Http InterestResponse.t :=
  let user_id := InterestRequest.user_id request in
  let venue_id := InterestRequest.venue_id request in
  let s := logger INFO ("Express interest request: user=" +:+ user_id
                        +:+ ", venue=" +:+ venue_id) s in
  match users_dict !! user_id with
  | None =>
      (logger WARNING ("User not found: " +:+ user_id) s,
       HTTPException 404 ("User with id '" +:+ user_id +:+ "' not found"))
  | Some _ =>
    match dict_get venues_dict venue_id with
    | None =>
        (logger WARNING ("Venue not found: " +:+ venue_id) s,
         HTTPException 404 ("Venue with id '" +:+ venue_id +:+ "' not found"))
    | Some venue =>
        let s := get_venue_lock venue_id s in
        match list_find (is_interest_of user_id venue_id)
                        (interests_list s) with
        | Some (existing_interest, _) =>
            let '(s, response) :=
              toggle_off venue_id user_id venue existing_interest s in
            (s, Ok response)
        | None =>
            let '(s, response) :=
              toggle_on agent now venue_id user_id venue s in
            (s, Ok response)
        end
    end
  end.

(** [express_interest] as deployed: the collaborator is [booking_agent]. *)
Definition the_agent (o : Oracle) : Agent :=
  λ venue_id venue_name user_count interested_user_ids existing_bookings,
    Returned (booking_agent o venue_id venue_name user_count
                            interested_user_ids existing_bookings).

Definition express_interest (o : Oracle) (now : datetime)
    (request : InterestRequest.t) (s : State)
  : State * Http InterestResponse.t :=
  express_interest_with (the_agent o) now request s.


(** *** Recommendation scoring *)

(** The loop over [user.interests] with its [break]: whether some interest
    tag matches the venue category. *)
Fixpoint category_matches (venue_category_lower : string)
    (interests : list string) : bool :=
  match interests with
  | [] => false
  | interest :: rest =>
      if str_in (lower interest) venue_category_lower
         || str_in venue_category_lower (lower interest)
      then true
      else category_matches venue_category_lower rest
  end.

Definition calculate_recommendation_score (interests : list Interest.t)
    (user_id venue_id : string) : Q * string * nat * nat :=
  match users_dict !! user_id, dict_get venues_dict venue_id with
  | Some user, Some venue =>
      let score := 0%Q in
      let reasons : list string := [] in
      let total_interested_count := get_interested_count interests venue_id in
      let other_users_interested :=
        length (filter (λ interest, Interest.venue_id interest = venue_id
                                    ∧ Interest.user_id interest ≠ user_id)
                       interests) in
      let friends_interested :=
        count_friends_interested interests user_id venue_id in
      let popularity_score :=
        Qmin (int_truediv (Z.of_nat other_users_interested) 3) 3 in
      let score := float_add score popularity_score in
      let reasons :=
        if bool_decide (0 < other_users_interested)
        then (reasons ++ ["Popular venue"])%list else reasons in
      let venue_category_lower := lower (Venue.category venue) in
      let matched :=
        category_matches venue_category_lower (User.interests user) in
      let score := if matched then float_add score 4 else score in
      let reasons :=
        if matched then (reasons ++ ["Matches your interests"])%list
        else reasons in
      let friend_score := Qmin (inject_Z (Z.of_nat friends_interested)) 3 in
      let score := float_add score friend_score in
      let reasons :=
        if bool_decide (0 < friends_interested)
        then (reasons ++ [pretty friends_interested +:+ " friend"
                          +:+ (if bool_decide (1 < friends_interested)
                               then "s" else "")
                          +:+ " interested"])%list
        else reasons in
      let reason :=
        match reasons with
        | [] => "New venue to explore"
        | _ => String.concat ", " reasons
        end in
      (score, reason, friends_interested, total_interested_count)
  | _, _ => (0%Q, "Invalid user or venue", 0, 0)
  end.

(** *** GET /recommendations *)

(** The set comprehension [user_interested_venue_ids]. *)
Definition user_interested_venue_ids (interests : list Interest.t)
    (user_id : string) : gset string :=
  list_to_set
    (Interest.venue_id <$>
       filter (λ interest, Interest.user_id interest = user_id) interests).

(** The entry appended for one item of [venues_dict]. *)
Definition recommendation_entry (interests : list Interest.t)
    (user_id : string) (item : string * Venue.t) : Recommendation.t :=
  let '(venue_id, venue) := item in
  let '(score, reason, friends_interested, total_interested) :=
    calculate_recommendation_score interests user_id venue_id in
  let already_interested :=
    bool_decide (venue_id ∈ user_interested_venue_ids interests user_id) in
  Recommendation.mk venue total_interested (round1 score) reason
                    already_interested friends_interested total_interested.

(** The list [recommendations] before it is sorted. *)
Definition unsorted_recommendations (interests : list Interest.t)
    (user_id : string) : list Recommendation.t :=
  recommendation_entry interests user_id <$> venues_dict.

Definition get_recommendations (user_id : string) (s : State)
  : State * Http (list Recommendation.t) :=
  let s := logger INFO ("Fetching recommendations for user_id: " +:+ user_id)
                  s in
  match users_dict !! user_id with
  | None =>
      (logger WARNING ("User not found: " +:+ user_id) s,
       HTTPException 404 ("User with id '" +:+ user_id +:+ "' not found"))
  | Some _ =>
      let recommendations :=
        unsorted_recommendations (interests_list s) user_id in
      let recommendations :=
        sort_by_key (λ x, - Recommendation.score x)%Q recommendations in
      let s :=
        logger INFO ("Returning " +:+ pretty (length recommendations)
                     +:+ " recommendations ("
                     +:+ pretty (size (user_interested_venue_ids
                                         (interests_list s) user_id))
                     +:+ " already interested)") s in
      (s, Ok recommendations)
  end.

(** *** GET /bookings/{user_id} *)

(** The loop body: the entry a booking contributes, if any. *)
Definition user_booking_entry (user_id : string) (booking : Booking.t)
  : option UserBooking.t :=
  if bool_decide (Booking.status booking = "active"
                  ∧ user_id ∈ Booking.user_ids booking) then
    match dict_get venues_dict (Booking.venue_id booking) with
    | Some venue =>
        Some (UserBooking.mk (Booking.id booking) (Venue.id venue)
                (Venue.name venue) (Venue.category venue) (Venue.image venue)
                (Venue.address venue) (Booking.reservation_code booking)
                (Booking.created_at booking)
                (length (Booking.user_ids booking)))
    | None => None
    end
  else None.

Definition get_user_bookings (user_id : string) (s : State)
  : State * Http (list UserBooking.t) :=
  let s := logger INFO ("Fetching bookings for user_id: " +:+ user_id) s in
  match users_dict !! user_id with
  | None =>
      (logger WARNING ("User not found: " +:+ user_id) s,
       HTTPException 404 ("User with id '" +:+ user_id +:+ "' not found"))
  | Some _ =>
      let user_bookings :=
        omap (user_booking_entry user_id) (bookings_list s) in
      let s := logger INFO ("Returning " +:+ pretty (length user_bookings)
                            +:+ " bookings for user " +:+ user_id) s in
      (s, Ok user_bookings)
  end.

(** *** GET /venues/{venue_id}/booking *)

Definition get_venue_booking (venue_id : string) (s : State)
  : State * Http VenueBookingResponse.t :=
  let s := logger INFO ("Checking booking status for venue_id: " +:+ venue_id)
                  s in
  match dict_get venues_dict venue_id with
  | None =>
      (logger WARNING ("Venue not found: " +:+ venue_id) s,
       HTTPException 404 ("Venue with id '" +:+ venue_id +:+ "' not found"))
  | Some _ =>
      match first_active venue_id (bookings_list s) with
      | Some (_, booking) =>
          (logger INFO ("Active booking found for venue " +:+ venue_id) s,
           Ok (VenueBookingResponse.mk true
                 (Some (VenueBooking.mk (Booking.id booking)
                          (Booking.reservation_code booking)
                          (Booking.created_at booking)
                          (length (Booking.user_ids booking))))))
      | None =>
          (logger INFO ("No active booking for venue " +:+ venue_id) s,
           Ok (VenueBookingResponse.mk false None))
      end
  end.

(** *** The other read-only endpoints *)

Definition get_interested_users (interests : list Interest.t)
    (venue_id : string) : list (string * string * string) :=
  let interested_user_ids :=
    Interest.user_id <$>
      filter (λ interest, Interest.venue_id interest = venue_id) interests in
  omap (λ user_id,
          match users_dict !! user_id with
          | Some user => Some (user_id, User.name user, User.avatar user)
          | None => None
          end) interested_user_ids.

Definition get_user_interested_venues (interests : list Interest.t)
    (user_id : string) : list (Venue.t * nat) :=
  let interested_venue_ids :=
    Interest.venue_id <$>
      filter (λ interest, Interest.user_id interest = user_id) interests in
  omap (λ venue_id,
          match dict_get venues_dict venue_id with
          | Some venue =>
              Some (venue, get_interested_count interests (Venue.id venue))
          | None => None
          end) interested_venue_ids.

(** GET /venues: id, name, category, image and interested_count of each
    venue. *)
Definition get_venues (s : State)
  : State * list (string * string * string * string * nat) :=
  let s := logger INFO "Fetching all venues" s in
  let venues :=
    (λ item : string * Venue.t,
       let venue := item.2 in
       (Venue.id venue, Venue.name venue, Venue.category venue,
        Venue.image venue,
        get_interested_count (interests_list s) (Venue.id venue)))
    <$> venues_dict in
  (logger INFO ("Returning " +:+ pretty (length venues) +:+ " venues") s,
   venues).

(** GET /venues/{venue_id} *)
Definition get_venue_detail (venue_id : string) (s : State)
  : State * Http (Venue.t * list (string * string * string)) :=
  let s := logger INFO ("Fetching venue detail for venue_id: " +:+ venue_id)
                  s in
  match dict_get venues_dict venue_id with
  | None =>
      (logger WARNING ("Venue not found: " +:+ venue_id) s,
       HTTPException 404 ("Venue with id '" +:+ venue_id +:+ "' not found"))
  | Some venue =>
      (s, Ok (venue, get_interested_users (interests_list s) venue_id))
  end.

(** GET /users/{user_id} *)
Definition get_user_profile (user_id : string) (s : State)
  : State * Http (User.t * list (Venue.t * nat)) :=
  let s := logger INFO ("Fetching user profile for user_id: " +:+ user_id)
                  s in
  match users_dict !! user_id with
  | None =>
      (logger WARNING ("User not found: " +:+ user_id) s,
       HTTPException 404 ("User with id '" +:+ user_id +:+ "' not found"))
  | Some user =>
      (s, Ok (user, get_user_interested_venues (interests_list s) user_id))
  end.

(** *** The service as a transition system *)

(** One request to the service, with what the handler reads from its
    environment. *)
Inductive Call :=
| PostInterests (o : Oracle) (now : datetime) (request : InterestRequest.t)
| GetVenues
| GetVenueDetail (venue_id : string)
| GetUserProfile (user_id : string)
| GetRecommendations (user_id : string)
| GetUserBookings (user_id : string)
| GetVenueBooking (venue_id : string).

(** The state that a request leaves. *)
Definition run (c : Call) (s : State) : State :=
  match c with
  | PostInterests o now request => (express_interest o now request s).1
  | GetVenues => (get_venues s).1
  | GetVenueDetail venue_id => (get_venue_detail venue_id s).1
  | GetUserProfile user_id => (get_user_profile user_id s).1
  | GetRecommendations user_id => (get_recommendations user_id s).1
  | GetUserBookings user_id => (get_user_bookings user_id s).1
  | GetVenueBooking venue_id => (get_venue_booking venue_id s).1
  end.

Definition run_all (calls : list Call) (s : State) : State :=
  foldl (λ s c, run c s) s calls.

(** The state at start-up: the ledger of [data.py], no booking, no lock, and
    nothing logged. *)
Definition initial_state (data_interests : list Interest.t) : State :=
  mkState data_interests [] ∅ [].

Inductive reachable (data_interests : list Interest.t) : State → Prop :=
| reachable_initial : reachable data_interests (initial_state data_interests)
| reachable_run c s :
    reachable data_interests s → reachable data_interests (run c s).

(** *** What one toggle does to the ledger and to the registry

    The six ways in which a call of [express_interest] with [booking_agent]
    ends, as a relation between the state before, the state after and the
    result.  [express_interest_effect] below shows that every call falls
    under one of them. *)
Inductive toggle_effect (o : Oracle) (now : datetime)
    (user_id venue_id : string) (s s' : State)
  : Http InterestResponse.t → Prop :=
| effect_not_found detail :
    users_dict !! user_id = None ∨ dict_get venues_dict venue_id = None →
    interests_list s' = interests_list s →
    bookings_list s' = bookings_list s →
    toggle_effect o now user_id venue_id s s' (HTTPException 404 detail)
| effect_cancelled user venue i x k b :
    users_dict !! user_id = Some user →
    dict_get venues_dict venue_id = Some venue →
    list_find (is_interest_of user_id venue_id) (interests_list s)
      = Some (i, x) →
    interests_list s' = delete i (interests_list s) →
    first_active venue_id (bookings_list s) = Some (k, b) →
    get_interested_count (interests_list s') venue_id < 3 →
    bookings_list s'
      = <[k := set_status "cancelled" b]> (bookings_list s) →
    toggle_effect o now user_id venue_id s s' (Ok booking_cancelled_response)
| effect_removed user venue i x :
    users_dict !! user_id = Some user →
    dict_get venues_dict venue_id = Some venue →
    list_find (is_interest_of user_id venue_id) (interests_list s)
      = Some (i, x) →
    interests_list s' = delete i (interests_list s) →
    first_active venue_id (bookings_list s) = None
    ∨ 3 ≤ get_interested_count (interests_list s') venue_id →
    bookings_list s' = bookings_list s →
    toggle_effect o now user_id venue_id s s'
                  (Ok (interest_removed (Venue.name venue)))
| effect_recorded user venue :
    users_dict !! user_id = Some user →
    dict_get venues_dict venue_id = Some venue →
    list_find (is_interest_of user_id venue_id) (interests_list s) = None →
    interests_list s'
      = interests_list s ++ [Interest.mk user_id venue_id now] →
    get_interested_count (interests_list s') venue_id < 3 →
    bookings_list s' = bookings_list s →
    toggle_effect o now user_id venue_id s s' (Ok interest_recorded)
| effect_already_active user venue k b :
    users_dict !! user_id = Some user →
    dict_get venues_dict venue_id = Some venue →
    list_find (is_interest_of user_id venue_id) (interests_list s) = None →
    interests_list s'
      = interests_list s ++ [Interest.mk user_id venue_id now] →
    3 ≤ get_interested_count (interests_list s') venue_id →
    first_active venue_id (bookings_list s) = Some (k, b) →
    bookings_list s' = bookings_list s →
    toggle_effect o now user_id venue_id s s'
      (Ok (booking_already_active
             ("Active booking already exists for " +:+ Venue.name venue)
             (Booking.reservation_code b)))
| effect_created user venue :
    users_dict !! user_id = Some user →
    dict_get venues_dict venue_id = Some venue →
    list_find (is_interest_of user_id venue_id) (interests_list s) = None →
    interests_list s'
      = interests_list s ++ [Interest.mk user_id venue_id now] →
    3 ≤ get_interested_count (interests_list s') venue_id →
    first_active venue_id (bookings_list s) = None →
    bookings_list s'
      = bookings_list s
        ++ [Booking.mk (minted_id (bookings_list s)) venue_id
                       (ids_for venue_id (interests_list s'))
                       (minted_code o venue_id) (now_isoformat o) "active"] →
    toggle_effect o now user_id venue_id s s'
      (Ok (booking_created
             ("Mock booking agent: Reserved table for "
              +:+ pretty (Z.of_nat (get_interested_count (interests_list s')
                                                         venue_id))
              +:+ " at " +:+ Venue.name venue)
             (minted_code o venue_id))).

End Handlers.

(** ** The three decisions of the booking trigger, as dictionaries *)

Definition agent_no_action : AgentResponse.t :=
  AgentResponse.mk (Some false) None None None None None None None.

Definition agent_booking_exists (venue_id venue_name code : string)
  : AgentResponse.t :=
  AgentResponse.mk (Some false) (Some "booking_exists") (Some venue_id) None
    (Some ("Active booking already exists for " +:+ venue_name))
    (Some code) None None.

Definition agent_create (o : Oracle) (venue_id venue_name : string)
    (user_count : Z) (interested_user_ids : list string)
    (existing_bookings : list Booking.t) : AgentResponse.t :=
  AgentResponse.mk (Some true) (Some "reservation_simulated") (Some venue_id)
    (Some (minted_id existing_bookings))
    (Some ("Mock booking agent: Reserved table for " +:+ pretty user_count
           +:+ " at " +:+ venue_name))
    (Some (minted_code o venue_id)) (Some interested_user_ids)
    (Some (now_isoformat o)).

(** ** Invariants of the ledger and of the registry *)

(** At most one booking of the registry is active for any venue. *)
Definition one_active_per_venue (bookings : list Booking.t) : Prop :=
  ∀ venue_id i j bi bj,
    bookings !! i = Some bi → bookings !! j = Some bj →
    is_active_for venue_id bi → is_active_for venue_id bj → i = j.

(** An active booking is backed by at least 3 interests in its venue. *)
Definition active_is_backed (s : State) : Prop :=
  ∀ b, b ∈ bookings_list s → Booking.status b = "active" →
       3 ≤ get_interested_count (interests_list s) (Booking.venue_id b).

(** The pair an interest is about, and the ledger as a set of pairs. *)
Definition interest_key (interest : Interest.t) : string * string :=
  (Interest.user_id interest, Interest.venue_id interest).

Definition ledger_membership (interests : list Interest.t)
  : gset (string * string) :=
  list_to_set (interest_key <$> interests).

(** Modelled from the spec: the initial [interests_list] of [data.py] is not
    among the sources; by the data model the ledger holds at most one
    interest per (user, venue) pair. *)
Definition ledger_unique (interests : list Interest.t) : Prop :=
  NoDup (interest_key <$> interests).

(** How a booking record may differ from an earlier version of itself:
    not at all, or by the status going from active to cancelled. *)
Definition booking_evolves (b b' : Booking.t) : Prop :=
  b' = b ∨ (Booking.status b = "active" ∧ b' = set_status "cancelled" b).

(** The first component of the tuple of [calculate_recommendation_score]. *)
Definition score_of (result : Q * string * nat * nat) : Q := result.1.1.1.

(** The interests of the ledger that are not those of [user_id]. *)
Definition others_interests (user_id : string) (interests : list Interest.t)
  : list Interest.t :=
  filter (λ interest, Interest.user_id interest ≠ user_id) interests.

(** The state in which the body under the venue lock starts. *)
Definition locked (request : InterestRequest.t) (s : State) : State :=
  get_venue_lock (InterestRequest.venue_id request)
    (logger INFO ("Express interest request: user="
                  +:+ InterestRequest.user_id request
                  +:+ ", venue=" +:+ InterestRequest.venue_id request) s).

(** The booking at position [i] of the registry has the id
    [booking_<i+1>]. *)
Definition ids_by_position (bookings : list Booking.t) : Prop :=
  ∀ i b, bookings !! i = Some b →
         Booking.id b = "booking_" +:+ pretty (S i).

(** The two invariants of the registry together. *)
Definition registry_invariant (s : State) : Prop :=
  one_active_per_venue (bookings_list s) ∧ active_is_backed s.

(** The message of [booking_agent] for a new booking. *)
Definition created_message (count : nat) (venue : Venue.t) : string :=
  "Mock booking agent: Reserved table for " +:+ pretty (Z.of_nat count)
  +:+ " at " +:+ Venue.name venue.

Definition exists_message (venue : Venue.t) : string :=
  "Active booking already exists for " +:+ Venue.name venue.

(** The booking that a toggle-on installs. *)
Definition installed_booking (o : Oracle) (venue_id : string)
    (bookings : list Booking.t) (interests : list Interest.t) : Booking.t :=
  Booking.mk (minted_id bookings) venue_id (ids_for venue_id interests)
             (minted_code o venue_id) (now_isoformat o) "active".

(** Whether some interest tag of the user matches the category of the
    venue: lower-cased, the tag occurs in the category or the category in the
    tag. *)
Definition matches_category (user : User.t) (venue : Venue.t) : bool :=
  existsb (λ tag, str_in (lower tag) (lower (Venue.category venue))
                  || str_in (lower (Venue.category venue)) (lower tag))
          (User.interests user).

(** The match as the specification words it: the tag occurs in the
    category. *)
Definition tag_in_category (user : User.t) (venue : Venue.t) : bool :=
  existsb (λ tag, str_in (lower tag) (lower (Venue.category venue)))
          (User.interests user).

(** The three factors, for [c] other users interested and a given category
    match, and their sum in float arithmetic. *)
Definition popularity (c : nat) : Q := Qmin (int_truediv (Z.of_nat c) 3) 3.

Definition category_match_points (category_match : bool) : Q :=
  if category_match then 4%Q else 0%Q.

Definition friend_bonus (c : nat) : Q := Qmin (inject_Z (Z.of_nat c)) 3.

Definition three_factors (c : nat) (category_match : bool) : Q :=
  float_add (float_add (popularity c) (category_match_points category_match))
            (friend_bonus c).

(** The sum of the three factors as real numbers. *)
Definition exact_factors (c : nat) (category_match : bool) : Q :=
  (Qmin (inject_Z (Z.of_nat c) / 3) 3
   + (if category_match then 4 else 0)
   + Qmin (inject_Z (Z.of_nat c)) 3)%Q.

(** The score as [calculate_recommendation_score] accumulates it. *)
Definition accumulated_score (c : nat) (category_match : bool) : Q :=
  let score := float_add 0 (popularity c) in
  let score := if category_match then float_add score 4 else score in
  float_add score (friend_bonus c).

(** The values that the sum of the three factors takes: it is constant from
    9 other users on. *)
Definition score_inputs : list (nat * bool) :=
  c ← seq 0 10; [(c, false); (c, true)].

Definition score_values : list Q :=
  c ← seq 0 10; [three_factors c false; three_factors c true].

(** ** The validator of [InterestRequest]

    [validate_ids] runs on each of the two ids of a request before the
    handler is called.  [str.isalnum], [str.strip] and [len] are modelled on
    ASCII text. *)

(** [c.isalnum()] for an ASCII character. *)
Definition isalnum (c : ascii) : bool :=
  let n := nat_of_ascii c in
  bool_decide (48 ≤ n ≤ 57) || bool_decide (65 ≤ n ≤ 90)
  || bool_decide (97 ≤ n ≤ 122).

(** [c.isspace()] for an ASCII character: tab to carriage return, the four
    separators FS, GS, RS, US, and the space. *)
Definition isspace (c : ascii) : bool :=
  let n := nat_of_ascii c in
  bool_decide (9 ≤ n ≤ 13) || bool_decide (28 ≤ n ≤ 32).

(** [all(p(c) for c in s)] *)
Fixpoint all_chars (p : ascii → bool) (s : string) : bool :=
  match s with
  | EmptyString => true
  | String c s' => p c && all_chars p s'
  end.

Fixpoint lstrip (s : string) : string :=
  match s with
  | EmptyString => EmptyString
  | String c s' => if isspace c then lstrip s' else s
  end.

Fixpoint rstrip (s : string) : string :=
  match s with
  | EmptyString => EmptyString
  | String c s' =>
      match rstrip s' with
      | EmptyString => if isspace c then EmptyString else String c EmptyString
      | t => String c t
      end
  end.

(** [s.strip()] *)
Definition strip (s : string) : string := rstrip (lstrip s).

(** [c.isalnum() or c == '_'] *)
Definition is_id_char (c : ascii) : bool :=
  isalnum c || bool_decide (c = "_"%char).

(** The value the validator returns, or the message of the [ValueError] it
    raises. *)
Inductive Validated :=
| Valid (v : string)
| ValueError (msg : string).

Definition validate_ids (v : string) : Validated :=
  if bool_decide (v = "") || bool_decide (strip v = "") then
    ValueError "ID cannot be empty"
  else if bool_decide (100 < String.length v) then
    ValueError "ID too long (max 100 characters)"
  else if negb (all_chars is_id_char v) then
    ValueError "ID contains invalid characters"
  else Valid (strip v).

(** The text is ASCII: the range on which the model of the string methods
    is that of Python. *)
Definition is_ascii (s : string) : Prop :=
  all_chars (λ c, bool_decide (nat_of_ascii c < 128)) s = true.

(** ** Further invariants *)

(** Every interest of the ledger is held by a user of the directory. *)
Definition ledger_users_known (users_dict : gmap string User.t)
    (interests : list Interest.t) : Prop :=
  ∀ interest, interest ∈ interests →
              is_Some (users_dict !! Interest.user_id interest).

(** Every interest of the ledger is in a venue of the directory. *)
Definition ledger_venues_known (venues_dict : list (string * Venue.t))
    (interests : list Interest.t) : Prop :=
  ∀ interest, interest ∈ interests →
              is_Some (dict_get venues_dict (Interest.venue_id interest)).

(** Every venue of the directory is stored under its own id. *)
Definition directory_well_keyed (venues_dict : list (string * Venue.t))
  : Prop :=
  ∀ key venue, dict_get venues_dict key = Some venue → Venue.id venue = key.

(** What holds of the booking at position [i] of a registry that the
    service has built. *)
Definition booking_well_formed (venues_dict : list (string * Venue.t))
    (i : nat) (b : Booking.t) : Prop :=
  Booking.id b = "booking_" +:+ pretty (S i)
  ∧ (∃ draw : Z, Booking.reservation_code b
                 = "LUNA-" +:+ Booking.venue_id b +:+ "-" +:+ pretty draw)
  ∧ 3 ≤ length (Booking.user_ids b)
  ∧ is_Some (dict_get venues_dict (Booking.venue_id b))
  ∧ (Booking.status b = "active" ∨ Booking.status b = "cancelled").

(** No record of the log is an ERROR. *)
Definition no_error_logged (s : State) : Prop :=
  Forall (λ record : Level * string, record.1 ≠ ERROR) (log s).

(** The requests that are served by a GET handler. *)
Definition is_read_only (c : Call) : bool :=
  match c with
  | PostInterests _ _ _ => false
  | _ => true
  end.

(** The reason string for [c] other users interested and a given category
    match. *)
Definition friends_phrase (c : nat) : string :=
  pretty c +:+ " friend" +:+ (if bool_decide (1 < c) then "s" else "")
  +:+ " interested".

Definition reason_for (c : nat) (category_match : bool) : string :=
  match c, category_match with
  | 0, false => "New venue to explore"
  | 0, true => "Matches your interests"
  | S _, false => "Popular venue, " +:+ friends_phrase c
  | S _, true =>
      "Popular venue, Matches your interests, " +:+ friends_phrase c
  end.

(** The second component of the tuple of [calculate_recommendation_score]. *)
Definition reason_of (result : Q * string * nat * nat) : string :=
  result.1.1.2.

(** ** A small directory and a few runs, for concrete checks *)

Definition demo_users : gmap string User.t :=
  list_to_map
    [("alice", User.mk "alice" "Alice" "alice.png" "Coffee lover"
                       ["coffee"; "food"]);
     ("bob", User.mk "bob" "Bob" "bob.png" "Night owl" ["Live Music"]);
     ("carol", User.mk "carol" "Carol" "carol.png" "Painter" ["art"]);
     ("dave", User.mk "dave" "Dave" "dave.png" "New in town" []);
     ("erin", User.mk "erin" "Erin" "erin.png" "Mixologist"
                      ["Cocktail Bars"])].

Definition demo_cafe : Venue.t :=
  Venue.mk "venue_1" "Blue Bottle Coffee" "Coffee Shop"
           "Specialty coffee" "cafe.png" "1 Main St".

Definition demo_bar : Venue.t :=
  Venue.mk "venue_2" "The Alchemist" "Bar" "Cocktails" "bar.png" "2 Main St".

Definition demo_museum : Venue.t :=
  Venue.mk "venue_3" "City Gallery" "Art Museum" "Modern art"
           "museum.png" "3 Main St".

Definition demo_venues : list (string * Venue.t) :=
  [("venue_1", demo_cafe); ("venue_2", demo_bar); ("venue_3", demo_museum)].

Definition demo_oracle (draw : Z) : Oracle :=
  Build_Oracle draw "2025-01-01T12:00:00".

(** A toggle of [user_id] on the cafe, at time [now]. *)
Definition demo_toggle (user_id : string) (now : datetime) : Call :=
  PostInterests (demo_oracle 4821) now (InterestRequest.mk user_id "venue_1").

Definition demo_run (calls : list Call) : State :=
  run_all demo_users demo_venues calls (initial_state []).

(** Alice and Bob are interested in the cafe. *)
Definition demo_two : State :=
  demo_run [demo_toggle "alice" 1; demo_toggle "bob" 2].

(** Carol is, too: the booking exists. *)
Definition demo_three : State :=
  demo_run [demo_toggle "alice" 1; demo_toggle "bob" 2;
            demo_toggle "carol" 3].

Definition demo_four : State :=
  demo_run [demo_toggle "alice" 1; demo_toggle "bob" 2;
            demo_toggle "carol" 3; demo_toggle "dave" 4].

(** A collaborator that always fails. *)
Definition failing_agent : Agent :=
  λ _ _ _ _ _, Raised (OtherException "booking service unavailable").

(** A collaborator that reports a reservation of its own and leaves out the
    [message]. *)
Definition forgetful_agent : Agent :=
  λ venue_id _ _ interested_user_ids _,
    Returned (AgentResponse.mk (Some true) (Some "reservation_simulated")
                (Some venue_id) (Some "booking_9") None (Some "TABLE-9")
                (Some interested_user_ids) (Some "2025-01-01T12:00:00")).

(** A few GET requests. *)
Definition demo_reads : list Call :=
  [GetVenues; GetRecommendations "alice"; GetVenueBooking "venue_9";
   GetUserProfile "zoe"].

(** * Properties *)

(** ** The scan for an active booking *)

Lemma first_active_Some venue_id bookings i b :
  first_active venue_id bookings = Some (i, b) ↔
  bookings !! i = Some b ∧ is_active_for venue_id b
  ∧ ∀ j b', bookings !! j = Some b' → j < i → ¬ is_active_for venue_id b'.
Proof. unfold first_active. apply list_find_Some. Qed.

Lemma first_active_None venue_id bookings :
  first_active venue_id bookings = None ↔
  ∀ b, b ∈ bookings → ¬ is_active_for venue_id b.
Proof.
  unfold first_active. rewrite list_find_None, Forall_forall. done.
Qed.

Lemma first_active_exists venue_id bookings b :
  b ∈ bookings → is_active_for venue_id b →
  ∃ i b', first_active venue_id bookings = Some (i, b').
Proof.
  intros Hin Hact.
  destruct (first_active venue_id bookings) as [[i b']|] eqn:E; [eauto|].
  rewrite first_active_None in E. by destruct (E b Hin).
Qed.

(** ** C3: the booking trigger *)

(** C3.  [booking_agent] decides from its arguments alone.  Below the
    threshold 3 it returns the dictionary with [agent_triggered] false and no
    action.  At or above the threshold, if some booking of the list is active
    for the venue, it reports [booking_exists] with the reservation code of
    the first such booking; if none is, it returns [agent_triggered] true with
    the code minted from the random draw of the call and the id
    [booking_<len+1>].  The list of bookings is an argument that the function
    only reads: its value is a dictionary, and no new list is produced. *)
Theorem booking_agent_decision (o : Oracle) (venue_id venue_name : string)
    (user_count : Z) (interested_user_ids : list string)
    (existing_bookings : list Booking.t) :
  let result := booking_agent o venue_id venue_name user_count
                              interested_user_ids existing_bookings in
  ((user_count < 3)%Z → result = agent_no_action)
  ∧ ((3 ≤ user_count)%Z →
     (∃ b, b ∈ existing_bookings ∧ is_active_for venue_id b) →
     ∃ i b, existing_bookings !! i = Some b
            ∧ is_active_for venue_id b
            ∧ (∀ j b', existing_bookings !! j = Some b' → j < i →
                       ¬ is_active_for venue_id b')
            ∧ result = agent_booking_exists venue_id venue_name
                         (Booking.reservation_code b))
  ∧ ((3 ≤ user_count)%Z →
     (∀ b, b ∈ existing_bookings → ¬ is_active_for venue_id b) →
     result = agent_create o venue_id venue_name user_count
                interested_user_ids existing_bookings).
Proof.
  cbv zeta. unfold booking_agent, threshold. repeat split.
  - intros Hlt. by rewrite bool_decide_eq_true_2.
  - intros Hge (b & Hin & Hact).
    rewrite bool_decide_eq_false_2 by lia.
    destruct (first_active_exists _ _ _ Hin Hact) as (i & b' & Hfind).
    rewrite Hfind. apply first_active_Some in Hfind as (Hi & Hb' & Hfirst).
    exists i, b'. done.
  - intros Hge Hnone.
    rewrite bool_decide_eq_false_2 by lia.
    apply first_active_None in Hnone. rewrite Hnone.
    unfold agent_create, minted_id, minted_code.
    by rewrite Nat.add_1_r.
Qed.

Section Properties.

Variable users_dict : gmap string User.t.
Variable venues_dict : list (string * Venue.t).

(** Projections of a state that was built by the setters. *)
Ltac state_proj :=
  cbn [fst snd interests_list bookings_list venue_locks log
       logger set_interests set_bookings get_venue_lock] in *.

(** ** The two paths of [express_interest] *)

Lemma length_ids_for venue_id interests :
  length (ids_for venue_id interests)
  = get_interested_count interests venue_id.
Proof. unfold ids_for, get_interested_count. by rewrite length_fmap. Qed.

Lemma express_interest_with_off agent now request s user venue i x :
  users_dict !! InterestRequest.user_id request = Some user →
  dict_get venues_dict (InterestRequest.venue_id request) = Some venue →
  list_find (is_interest_of (InterestRequest.user_id request)
                            (InterestRequest.venue_id request))
            (interests_list s) = Some (i, x) →
  express_interest_with users_dict venues_dict agent now request s
  = ((toggle_off (InterestRequest.venue_id request)
                 (InterestRequest.user_id request) venue i
                 (locked request s)).1,
     Ok (toggle_off (InterestRequest.venue_id request)
                    (InterestRequest.user_id request) venue i
                    (locked request s)).2).
Proof.
  intros Hu Hv Hfind. unfold express_interest_with.
  rewrite Hu, Hv. cbn [interests_list get_venue_lock logger].
  rewrite Hfind. fold (locked request s).
  by destruct (toggle_off _ _ _ _ _).
Qed.

Lemma express_interest_with_on agent now request s user venue :
  users_dict !! InterestRequest.user_id request = Some user →
  dict_get venues_dict (InterestRequest.venue_id request) = Some venue →
  list_find (is_interest_of (InterestRequest.user_id request)
                            (InterestRequest.venue_id request))
            (interests_list s) = None →
  express_interest_with users_dict venues_dict agent now request s
  = ((toggle_on agent now (InterestRequest.venue_id request)
                (InterestRequest.user_id request) venue
                (locked request s)).1,
     Ok (toggle_on agent now (InterestRequest.venue_id request)
                   (InterestRequest.user_id request) venue
                   (locked request s)).2).
Proof.
  intros Hu Hv Hfind. unfold express_interest_with.
  rewrite Hu, Hv. cbn [interests_list get_venue_lock logger].
  rewrite Hfind. fold (locked request s).
  by destruct (toggle_on _ _ _ _ _ _).
Qed.

Lemma express_interest_with_no_user agent now request s :
  users_dict !! InterestRequest.user_id request = None →
  ∃ s' detail,
    express_interest_with users_dict venues_dict agent now request s
    = (s', HTTPException 404 detail)
    ∧ interests_list s' = interests_list s
    ∧ bookings_list s' = bookings_list s.
Proof.
  intros Hu. unfold express_interest_with. rewrite Hu. by eexists _, _.
Qed.

Lemma express_interest_with_no_venue agent now request s :
  dict_get venues_dict (InterestRequest.venue_id request) = None →
  ∃ s' detail,
    express_interest_with users_dict venues_dict agent now request s
    = (s', HTTPException 404 detail)
    ∧ interests_list s' = interests_list s
    ∧ bookings_list s' = bookings_list s.
Proof.
  intros Hv. unfold express_interest_with. rewrite Hv.
  destruct (users_dict !! _); by eexists _, _.
Qed.

Lemma express_interest_unfold o now request s :
  express_interest users_dict venues_dict o now request s
  = express_interest_with users_dict venues_dict (the_agent o) now request s.
Proof. reflexivity. Qed.

Local Abbreviation express_interest := (express_interest users_dict venues_dict).
Local Abbreviation express_interest_with :=
  (express_interest_with users_dict venues_dict).
Local Abbreviation run := (run users_dict venues_dict).
Local Abbreviation run_all := (run_all users_dict venues_dict).
Local Abbreviation reachable := (reachable users_dict venues_dict).

(** The toggle-on path with [booking_agent] as the collaborator, by the
    decision of the agent. *)
Lemma toggle_on_the_agent o now venue_id user_id venue s :
  let interests :=
    (interests_list s ++ [Interest.mk user_id venue_id now])%list in
  let count := get_interested_count interests venue_id in
  let s1 := logger INFO ("Interest added: user=" +:+ user_id
                         +:+ ", venue=" +:+ venue_id)
                   (set_interests interests s) in
  toggle_on (the_agent o) now venue_id user_id venue s
  = if bool_decide (count < 3) then (s1, interest_recorded)
    else match first_active venue_id (bookings_list s) with
         | Some (_, b) =>
             (logger INFO ("Booking already exists for venue=" +:+ venue_id)
                     s1,
              booking_already_active
                ("Active booking already exists for " +:+ Venue.name venue)
                (Booking.reservation_code b))
         | None =>
             let booking :=
               Booking.mk (minted_id (bookings_list s)) venue_id
                          (ids_for venue_id interests) (minted_code o venue_id)
                          (now_isoformat o) "active" in
             (logger INFO ("Booking created: " +:+ Booking.id booking
                           +:+ " for venue=" +:+ venue_id
                           +:+ ", count=" +:+ pretty count)
                     (set_bookings (bookings_list s ++ [booking]) s1),
              booking_created
                ("Mock booking agent: Reserved table for "
                 +:+ pretty (Z.of_nat count) +:+ " at " +:+ Venue.name venue)
                (minted_code o venue_id))
         end.
Proof.
  cbv zeta. unfold toggle_on, try_booking, the_agent, booking_agent, threshold.
  cbn [interests_list bookings_list logger set_interests].
  fold (ids_for venue_id
          (interests_list s ++ [Interest.mk user_id venue_id now])%list).
  rewrite length_ids_for.
  set (count := get_interested_count _ venue_id).
  destruct (decide (count < 3)) as [Hlt|Hge].
  - rewrite (bool_decide_eq_true_2 (count < 3)) by done.
    rewrite bool_decide_eq_true_2 by lia. done.
  - rewrite (bool_decide_eq_false_2 (count < 3)) by done.
    rewrite bool_decide_eq_false_2 by lia.
    destruct (first_active venue_id (bookings_list s)) as [[k b]|]; cbn.
    + done.
    + unfold minted_id, minted_code. by rewrite Nat.add_1_r.
Qed.

Local Abbreviation toggle_effect := (toggle_effect users_dict venues_dict).

(** Every call of [express_interest] ends in one of the six ways of
    [toggle_effect]. *)
Lemma express_interest_effect o now request s :
  toggle_effect o now (InterestRequest.user_id request)
    (InterestRequest.venue_id request) s
    (express_interest o now request s).1
    (express_interest o now request s).2.
Proof.
  destruct request as [user_id venue_id].
  cbn [InterestRequest.user_id InterestRequest.venue_id].
  set (request := InterestRequest.mk user_id venue_id).
  rewrite express_interest_unfold.
  destruct (users_dict !! user_id) as [user|] eqn:Hu; cycle 1.
  { destruct (express_interest_with_no_user (the_agent o) now request s Hu)
      as (s' & detail & -> & Hl & Hb).
    by apply effect_not_found; [left|..]. }
  destruct (dict_get venues_dict venue_id) as [venue|] eqn:Hv; cycle 1.
  { destruct (express_interest_with_no_venue (the_agent o) now request s Hv)
      as (s' & detail & -> & Hl & Hb).
    by apply effect_not_found; [right|..]. }
  destruct (list_find (is_interest_of user_id venue_id) (interests_list s))
    as [[i x]|] eqn:Hfind.
  - rewrite (express_interest_with_off (the_agent o) now request s user venue
               i x Hu Hv Hfind).
    cbn [InterestRequest.user_id InterestRequest.venue_id request fst snd].
    unfold toggle_off, locked.
    cbn [interests_list bookings_list logger set_interests get_venue_lock].
    destruct (first_active venue_id (bookings_list s)) as [[k b]|] eqn:Hact.
    + case_bool_decide as Hcount.
      * by eapply effect_cancelled.
      * eapply effect_removed; try done. right. state_proj. lia.
    + eapply effect_removed; try done. by left.
  - rewrite (express_interest_with_on (the_agent o) now request s user venue
               Hu Hv Hfind).
    cbn [InterestRequest.user_id InterestRequest.venue_id request].
    rewrite toggle_on_the_agent. cbv zeta. unfold locked.
    cbn [interests_list bookings_list logger set_interests get_venue_lock].
    case_bool_decide as Hcount.
    + by eapply effect_recorded.
    + destruct (first_active venue_id (bookings_list s)) as [[k b]|] eqn:Hact.
      * eapply effect_already_active; try done. state_proj. lia.
      * eapply effect_created; try done. state_proj. lia.
Qed.

(** The requests other than POST /interests leave ledger and registry as
    they are. *)
Lemma run_read_only c s :
  (∀ o now request, c ≠ PostInterests o now request) →
  interests_list (run c s) = interests_list s
  ∧ bookings_list (run c s) = bookings_list s.
Proof.
  intros Hc. destruct c as [o now request| |v|u|u|u|v]; cbn.
  - by destruct (Hc o now request).
  - done.
  - unfold get_venue_detail. by destruct (dict_get venues_dict v).
  - unfold get_user_profile. by destruct (users_dict !! u).
  - unfold get_recommendations. by destruct (users_dict !! u).
  - unfold get_user_bookings. by destruct (users_dict !! u).
  - unfold get_venue_booking. destruct (dict_get venues_dict v); [|done].
    state_proj. by destruct (first_active v (bookings_list s)) as [[? ?]|].
Qed.

(** ** Counting interests *)

Lemma count_app interests interest venue_id :
  get_interested_count (interests ++ [interest]) venue_id
  = get_interested_count interests venue_id
    + (if decide (Interest.venue_id interest = venue_id) then 1 else 0).
Proof.
  unfold get_interested_count. rewrite filter_app, length_app.
  rewrite filter_cons, filter_nil. by case_decide.
Qed.

Lemma count_delete interests k x venue_id :
  interests !! k = Some x →
  get_interested_count interests venue_id
  = get_interested_count (delete k interests) venue_id
    + (if decide (Interest.venue_id x = venue_id) then 1 else 0).
Proof.
  intros Hk. unfold get_interested_count.
  rewrite <- (take_drop_middle interests k x Hk) at 1.
  rewrite delete_take_drop, !filter_app, filter_cons, !length_app.
  case_decide; cbn; lia.
Qed.

Lemma found_interest user_id venue_id interests i x :
  list_find (is_interest_of user_id venue_id) interests = Some (i, x) →
  interests !! i = Some x
  ∧ Interest.user_id x = user_id ∧ Interest.venue_id x = venue_id.
Proof. intros (Hi & [Hu Hv] & _)%list_find_Some. done. Qed.

Lemma no_interest user_id venue_id interests :
  list_find (is_interest_of user_id venue_id) interests = None ↔
  (user_id, venue_id) ∉ interest_key <$> interests.
Proof.
  rewrite list_find_None, Forall_forall, list_elem_of_fmap. split.
  - intros Hnone (x & Hkey & Hin). apply (Hnone x Hin).
    unfold interest_key in Hkey. by inversion Hkey.
  - intros Hnot x Hin [Hu Hv]. apply Hnot. exists x. split; [|done].
    unfold interest_key. by rewrite Hu, Hv.
Qed.

(** ** The registry invariants are kept by every request *)

Lemma set_status_cancelled_not_active venue_id b :
  ¬ is_active_for venue_id (set_status "cancelled" b).
Proof. by intros [_ Hst]. Qed.

Lemma one_active_cancel bookings k b :
  one_active_per_venue bookings →
  one_active_per_venue (<[k := set_status "cancelled" b]> bookings).
Proof.
  intros Hone v i j bi bj Hi Hj Hai Haj.
  destruct (decide (i = k)) as [->|Hik].
  { apply list_lookup_insert_Some in Hi as [(_ & <- & _)|[? _]]; [|done].
    by destruct (set_status_cancelled_not_active v b). }
  destruct (decide (j = k)) as [->|Hjk].
  { apply list_lookup_insert_Some in Hj as [(_ & <- & _)|[? _]]; [|done].
    by destruct (set_status_cancelled_not_active v b). }
  rewrite list_lookup_insert_ne in Hi, Hj by done. by eapply Hone.
Qed.

Lemma one_active_append bookings b :
  one_active_per_venue bookings →
  first_active (Booking.venue_id b) bookings = None →
  one_active_per_venue (bookings ++ [b]).
Proof.
  intros Hone Hnone v i j bi bj Hi Hj Hai Haj.
  rewrite first_active_None in Hnone.
  assert (∀ n bn, (bookings ++ [b]) !! n = Some bn → is_active_for v bn →
                  n < length bookings → v ≠ Booking.venue_id b ∨ False)
    as Hold.
  { intros n bn Hn Han Hlt. rewrite lookup_app_l in Hn by done.
    destruct (decide (v = Booking.venue_id b)) as [->|]; [right|by left].
    eapply Hnone; [|done]. by eapply list_elem_of_lookup_2. }
  assert (∀ n bn, (bookings ++ [b]) !! n = Some bn →
                  ¬ n < length bookings →
                  n = length bookings ∧ bn = b) as Hnew.
  { intros n bn Hn Hge. rewrite lookup_app_r in Hn by lia.
    apply list_lookup_singleton_Some in Hn as [? ->]. split; [lia|done]. }
  destruct (decide (i < length bookings)) as [Hil|Hil],
           (decide (j < length bookings)) as [Hjl|Hjl].
  - rewrite lookup_app_l in Hi, Hj by done. by eapply Hone.
  - destruct (Hnew j bj Hj Hjl) as [-> ->].
    destruct (Hold i bi Hi Hai Hil) as [Hne|[]]. by destruct Haj as [<- _].
  - destruct (Hnew i bi Hi Hil) as [-> ->].
    destruct (Hold j bj Hj Haj Hjl) as [Hne|[]]. by destruct Hai as [<- _].
  - destruct (Hnew i bi Hi Hil) as [-> _], (Hnew j bj Hj Hjl) as [-> _]. done.
Qed.

Lemma toggle_effect_invariant o now user_id venue_id s s' r :
  toggle_effect o now user_id venue_id s s' r →
  registry_invariant s → registry_invariant s'.
Proof.
  intros Heff [Hone Hback].
  destruct Heff as
    [detail _ Hl Hb
    |user venue i x k b _ _ Hfind Hl Hact Hcount Hb
    |user venue i x _ _ Hfind Hl Hkeep Hb
    |user venue _ _ Hfind Hl Hcount Hb
    |user venue k b _ _ Hfind Hl Hcount Hact Hb
    |user venue _ _ Hfind Hl Hcount Hact Hb];
    unfold registry_invariant, active_is_backed; rewrite Hb, Hl.
  - done.
  - (* cancelled *)
    apply found_interest in Hfind as (Hi & _ & Hxv).
    apply first_active_Some in Hact as (Hk & Hbact & _).
    split; [by apply one_active_cancel|].
    intros b' Hin Hst.
    apply list_elem_of_lookup in Hin as [j Hj].
    destruct (decide (j = k)) as [->|Hjk].
    { apply list_lookup_insert_Some in Hj as [(_ & <- & _)|[? _]]; done. }
    rewrite list_lookup_insert_ne in Hj by done.
    assert (Booking.venue_id b' ≠ venue_id) as Hother.
    { intros Heq. apply Hjk. by eapply (Hone venue_id j k b' b). }
    specialize (Hback b' (list_elem_of_lookup_2 _ _ _ Hj) Hst).
    rewrite (count_delete _ _ _ (Booking.venue_id b') Hi) in Hback.
    rewrite decide_False in Hback by congruence. lia.
  - (* removed *)
    apply found_interest in Hfind as (Hi & _ & Hxv).
    split; [done|]. intros b' Hin Hst.
    specialize (Hback b' Hin Hst).
    rewrite (count_delete _ _ _ (Booking.venue_id b') Hi) in Hback.
    case_decide as Hv; [|lia].
    destruct Hkeep as [Hnone|Hge].
    + rewrite first_active_None in Hnone. destruct (Hnone b' Hin).
      split; [congruence|done].
    + rewrite Hl in Hge. congruence.
  - (* recorded *)
    split; [done|]. intros b' Hin Hst. rewrite count_app.
    specialize (Hback b' Hin Hst). lia.
  - (* already active *)
    split; [done|]. intros b' Hin Hst. rewrite count_app.
    specialize (Hback b' Hin Hst). lia.
  - (* created *)
    split; [by apply one_active_append|].
    intros b' Hin Hst. apply elem_of_app in Hin as [Hin|Hin].
    + rewrite count_app. specialize (Hback b' Hin Hst). lia.
    + apply list_elem_of_singleton in Hin as ->. by rewrite Hl in Hcount.
Qed.

Lemma run_invariant c s :
  registry_invariant s → registry_invariant (run c s).
Proof.
  intros Hinv. destruct c as [o now request| |v|u|u|u|v].
  1: exact (toggle_effect_invariant _ _ _ _ _ _ _
              (express_interest_effect o now request s) Hinv).
  all: match goal with
       | |- registry_invariant (run ?c ?s0) =>
           destruct (run_read_only c s0) as [Hl Hb]; [done|]
       end;
       destruct Hinv as [Hone Hback];
       unfold registry_invariant, active_is_backed;
       by rewrite Hl, Hb.
Qed.

Lemma initial_invariant data_interests :
  registry_invariant (initial_state data_interests).
Proof.
  split.
  - intros v i j bi bj Hi. cbn in Hi. by rewrite lookup_nil in Hi.
  - intros b Hin. cbn in Hin. by apply elem_of_nil in Hin.
Qed.

Lemma reachable_invariant data_interests s :
  reachable data_interests s → registry_invariant s.
Proof.
  induction 1 as [|c s _ IH].
  - apply initial_invariant.
  - by apply run_invariant.
Qed.

(** *** The ids of the registry *)

Lemma toggle_effect_ids o now user_id venue_id s s' r :
  toggle_effect o now user_id venue_id s s' r →
  ids_by_position (bookings_list s) → ids_by_position (bookings_list s').
Proof.
  intros Heff Hids.
  destruct Heff as
    [detail _ Hl Hb
    |user venue i x k b _ _ Hfind Hl Hact Hcount Hb
    |user venue i x _ _ Hfind Hl Hkeep Hb
    |user venue _ _ Hfind Hl Hcount Hb
    |user venue k b _ _ Hfind Hl Hcount Hact Hb
    |user venue _ _ Hfind Hl Hcount Hact Hb]; rewrite Hb; try done.
  - apply first_active_Some in Hact as (Hk & _ & _).
    intros j bj Hj. destruct (decide (j = k)) as [->|Hjk].
    + apply list_lookup_insert_Some in Hj as [(_ & <- & _)|[? _]]; [|done].
      cbn. by apply Hids.
    + rewrite list_lookup_insert_ne in Hj by done. by apply Hids.
  - intros j bj Hj. apply lookup_app_Some in Hj as [Hj|[Hge Hj]].
    + by apply Hids.
    + apply list_lookup_singleton_Some in Hj as [Hj <-]. cbn.
      unfold minted_id. do 3 f_equal. lia.
Qed.

Lemma reachable_ids data_interests s :
  reachable data_interests s → ids_by_position (bookings_list s).
Proof.
  induction 1 as [|c s _ IH].
  - intros i b Hi. cbn in Hi. by rewrite lookup_nil in Hi.
  - destruct c as [o now request| |v|u|u|u|v].
    1: exact (toggle_effect_ids _ _ _ _ _ _ _
                (express_interest_effect o now request s) IH).
    all: match goal with
         | |- ids_by_position (bookings_list (run ?c ?s0)) =>
             destruct (run_read_only c s0) as [_ ->]; done
         end.
Qed.

(** The id minted for a new booking is the id of no booking of the
    registry. *)
Lemma minted_id_is_new bookings b :
  ids_by_position bookings → b ∈ bookings →
  Booking.id b ≠ minted_id bookings.
Proof.
  intros Hids [i Hi]%list_elem_of_lookup Heq.
  rewrite (Hids i b Hi) in Heq. unfold minted_id in Heq.
  apply (inj (String.app "booking_")), (inj pretty) in Heq.
  apply lookup_lt_Some in Hi. lia.
Qed.

(** ** The effect of a toggle, by path *)

Lemma toggle_on_cases o now user_id venue_id s s' r user venue :
  users_dict !! user_id = Some user →
  dict_get venues_dict venue_id = Some venue →
  list_find (is_interest_of user_id venue_id) (interests_list s) = None →
  toggle_effect o now user_id venue_id s s' r →
  let count := get_interested_count (interests_list s') venue_id in
  interests_list s' = interests_list s ++ [Interest.mk user_id venue_id now]
  ∧ ((count < 3 ∧ r = Ok interest_recorded
      ∧ bookings_list s' = bookings_list s)
     ∨ (3 ≤ count
        ∧ (∃ k b, first_active venue_id (bookings_list s) = Some (k, b)
                  ∧ r = Ok (booking_already_active
                              ("Active booking already exists for "
                               +:+ Venue.name venue)
                              (Booking.reservation_code b)))
        ∧ bookings_list s' = bookings_list s)
     ∨ (3 ≤ count
        ∧ first_active venue_id (bookings_list s) = None
        ∧ r = Ok (booking_created
                    ("Mock booking agent: Reserved table for "
                     +:+ pretty (Z.of_nat count) +:+ " at "
                     +:+ Venue.name venue)
                    (minted_code o venue_id))
        ∧ bookings_list s'
          = bookings_list s
            ++ [Booking.mk (minted_id (bookings_list s)) venue_id
                           (ids_for venue_id (interests_list s'))
                           (minted_code o venue_id) (now_isoformat o)
                           "active"])).
Proof.
  intros Hu Hv Hfind Heff. cbv zeta.
  destruct Heff as
    [detail [Hnf|Hnf] Hl Hb
    |user' venue' i x k b _ _ Hfind' Hl Hact Hcount Hb
    |user' venue' i x _ _ Hfind' Hl Hkeep Hb
    |user' venue' _ Hv' _ Hl Hcount Hb
    |user' venue' k b _ Hv' _ Hl Hcount Hact Hb
    |user' venue' _ Hv' _ Hl Hcount Hact Hb]; try congruence.
  - split; [done|]. by left.
  - assert (venue' = venue) as -> by congruence.
    split; [done|]. right; left. split_and!; [done| |done]. by exists k, b.
  - assert (venue' = venue) as -> by congruence.
    split; [done|]. by right; right.
Qed.

Lemma toggle_off_cases o now user_id venue_id s s' r user venue i x :
  users_dict !! user_id = Some user →
  dict_get venues_dict venue_id = Some venue →
  list_find (is_interest_of user_id venue_id) (interests_list s)
    = Some (i, x) →
  toggle_effect o now user_id venue_id s s' r →
  let count := get_interested_count (interests_list s') venue_id in
  interests_list s' = delete i (interests_list s)
  ∧ ((∃ k b, first_active venue_id (bookings_list s) = Some (k, b)
             ∧ count < 3
             ∧ bookings_list s'
               = <[k := set_status "cancelled" b]> (bookings_list s)
             ∧ r = Ok booking_cancelled_response)
     ∨ ((first_active venue_id (bookings_list s) = None ∨ 3 ≤ count)
        ∧ bookings_list s' = bookings_list s
        ∧ r = Ok (interest_removed (Venue.name venue)))).
Proof.
  intros Hu Hv Hfind Heff. cbv zeta.
  destruct Heff as
    [detail [Hnf|Hnf] Hl Hb
    |user' venue' i' x' k b _ _ Hfind' Hl Hact Hcount Hb
    |user' venue' i' x' _ Hv' Hfind' Hl Hkeep Hb
    |user' venue' _ _ Hfind' Hl Hcount Hb
    |user' venue' k b _ _ Hfind' Hl Hcount Hact Hb
    |user' venue' _ _ Hfind' Hl Hcount Hact Hb]; try congruence.
  - assert (i' = i) as -> by congruence.
    split; [done|]. left. by exists k, b.
  - assert (i' = i) as -> by congruence.
    assert (venue' = venue) as -> by congruence.
    split; [done|]. by right.
Qed.

(** ** C5: at most one active booking per venue *)

Lemma toggle_effect_one_active o now user_id venue_id s s' r :
  toggle_effect o now user_id venue_id s s' r →
  one_active_per_venue (bookings_list s) →
  one_active_per_venue (bookings_list s').
Proof.
  intros Heff Hone.
  destruct Heff as
    [detail _ Hl Hb
    |user venue i x k b _ _ Hfind Hl Hact Hcount Hb
    |user venue i x _ _ Hfind Hl Hkeep Hb
    |user venue _ _ Hfind Hl Hcount Hb
    |user venue k b _ _ Hfind Hl Hcount Hact Hb
    |user venue _ _ Hfind Hl Hcount Hact Hb]; rewrite Hb; try done.
  - by apply one_active_cancel.
  - by apply one_active_append.
Qed.

(** C5.  In every state that is reached from the initial state (whose
    registry is empty) by any sequence of requests, at most one booking of
    the registry is active for any venue; and every request, POST /interests
    in particular, keeps the registry that way. *)
Theorem one_active_booking_per_venue (data_interests : list Interest.t) :
  (∀ s, reachable data_interests s → one_active_per_venue (bookings_list s))
  ∧ (∀ c s, one_active_per_venue (bookings_list s) →
            one_active_per_venue (bookings_list (run c s))).
Proof.
  split.
  - intros s Hreach. by destruct (reachable_invariant _ _ Hreach).
  - intros c s Hone. destruct c as [o now request| |v|u|u|u|v].
    1: exact (toggle_effect_one_active _ _ _ _ _ _ _
                (express_interest_effect o now request s) Hone).
    all: match goal with
         | |- one_active_per_venue (bookings_list (run ?c ?s0)) =>
             destruct (run_read_only c s0) as [_ ->]; done
         end.
Qed.

(** ** C1: toggle on *)

Lemma toggle_on_reachable data_interests s o now user_id venue_id user venue :
  reachable data_interests s →
  users_dict !! user_id = Some user →
  dict_get venues_dict venue_id = Some venue →
  (user_id, venue_id) ∉ interest_key <$> interests_list s →
  let s' := (express_interest o now (InterestRequest.mk user_id venue_id) s).1
  in
  let r := (express_interest o now (InterestRequest.mk user_id venue_id) s).2
  in
  let count := get_interested_count (interests_list s') venue_id in
  interests_list s' = interests_list s ++ [Interest.mk user_id venue_id now]
  ∧ (3 ≤ count →
     (∀ b, b ∈ bookings_list s → ¬ is_active_for venue_id b) →
     r = Ok (booking_created (created_message count venue)
                             (minted_code o venue_id))
     ∧ bookings_list s'
       = bookings_list s
         ++ [installed_booking o venue_id (bookings_list s)
                               (interests_list s')])
  ∧ (∀ b, b ∈ bookings_list s → is_active_for venue_id b →
          r = Ok (booking_already_active (exists_message venue)
                                         (Booking.reservation_code b))
          ∧ bookings_list s' = bookings_list s
          ∧ 3 ≤ count)
  ∧ (count < 3 →
     r = Ok interest_recorded ∧ bookings_list s' = bookings_list s).
Proof.
  intros Hreach Hu Hv Hnone. cbv zeta.
  apply no_interest in Hnone.
  pose proof (express_interest_effect o now
                (InterestRequest.mk user_id venue_id) s) as Heff.
  cbn [InterestRequest.user_id InterestRequest.venue_id] in Heff.
  destruct (toggle_on_cases _ _ _ _ _ _ _ _ _ Hu Hv Hnone Heff)
    as [Hl Hcases].
  destruct (reachable_invariant _ _ Hreach) as [Hone Hback].
  split; [done|]. unfold created_message, exists_message, installed_booking.
  split_and!.
  - intros Hcount Hno.
    destruct Hcases as [(Hlt & _)|[(_ & (k & b & Hact & _) & _)|(_ & _ & Hr & Hb)]].
    + lia.
    + apply first_active_Some in Hact as (Hk & Hbact & _).
      destruct (Hno b); [by eapply list_elem_of_lookup_2|done].
    + done.
  - intros b Hin Hbact.
    assert (3 ≤ get_interested_count (interests_list s) venue_id) as Hge.
    { destruct Hbact as [<- Hst]. by apply Hback. }
    destruct Hcases as [(Hlt & _)|[(Hcount & (k & b0 & Hact & Hr) & Hb)|(_ & Hact & _)]].
    + rewrite Hl, count_app in Hlt. lia.
    + apply first_active_Some in Hact as (Hk & Hb0 & _).
      apply list_elem_of_lookup in Hin as [j Hj].
      assert (j = k) as -> by (by eapply (Hone venue_id j k b b0)).
      assert (b0 = b) as -> by congruence. done.
    + rewrite first_active_None in Hact. by destruct (Hact b Hin).
  - intros Hlt.
    destruct Hcases as [(_ & Hr & Hb)|[(Hcount & _)|(Hcount & _)]];
      [done|lia|lia].
Qed.

(** C1 (amended).  In a reachable state, for an existing user and an
    existing venue with no interest recorded for the pair, POST /interests
    appends the interest with the timestamp of the call, and
    - when the new count of the venue is at least 3 and no booking is active
      for the venue, it appends a new active booking (an id minted from the
      size of the registry, which no booking of the registry has; the user
      ids interested in the venue; the code minted from the random draw of
      the call, which a cancelled booking of the registry may have as well)
      and answers [booking_created] with that code;
    - when a booking is active for the venue, it answers
      [booking_already_active] with the code of that booking and leaves the
      registry as it is (the count is then at least 3, so this case and the
      next exclude each other);
    - when the new count is below 3, it answers [interest_recorded] and
      leaves the registry as it is.
    In particular, from a count of exactly 2 the call answers
    [booking_created], and the toggle-on of any further user who has no
    interest in the venue then answers [booking_already_active] with the same
    code. *)
Theorem toggle_on_outcome (data_interests : list Interest.t) (s : State)
    (o : Oracle) (now : datetime) (user_id venue_id : string)
    (user : User.t) (venue : Venue.t) :
  reachable data_interests s →
  users_dict !! user_id = Some user →
  dict_get venues_dict venue_id = Some venue →
  (user_id, venue_id) ∉ interest_key <$> interests_list s →
  let s' := (express_interest o now (InterestRequest.mk user_id venue_id) s).1
  in
  let r := (express_interest o now (InterestRequest.mk user_id venue_id) s).2
  in
  let count := get_interested_count (interests_list s') venue_id in
  interests_list s' = interests_list s ++ [Interest.mk user_id venue_id now]
  ∧ (3 ≤ count →
     (∀ b, b ∈ bookings_list s → ¬ is_active_for venue_id b) →
     r = Ok (booking_created (created_message count venue)
                             (minted_code o venue_id))
     ∧ bookings_list s'
       = bookings_list s
         ++ [installed_booking o venue_id (bookings_list s)
                               (interests_list s')]
     ∧ ∀ b, b ∈ bookings_list s →
            Booking.id b ≠ minted_id (bookings_list s))
  ∧ (∀ b, b ∈ bookings_list s → is_active_for venue_id b →
          r = Ok (booking_already_active (exists_message venue)
                                         (Booking.reservation_code b))
          ∧ bookings_list s' = bookings_list s
          ∧ 3 ≤ count)
  ∧ (count < 3 →
     r = Ok interest_recorded ∧ bookings_list s' = bookings_list s)
  ∧ (get_interested_count (interests_list s) venue_id = 2 →
     r = Ok (booking_created (created_message 3 venue)
                             (minted_code o venue_id))
     ∧ ∀ o4 now4 user_id4 user4,
         users_dict !! user_id4 = Some user4 →
         user_id4 ≠ user_id →
         (user_id4, venue_id) ∉ interest_key <$> interests_list s →
         (express_interest o4 now4 (InterestRequest.mk user_id4 venue_id)
                           s').2
         = Ok (booking_already_active (exists_message venue)
                                      (minted_code o venue_id))).
Proof.
  intros Hreach Hu Hv Hnone. cbv zeta.
  pose proof (toggle_on_reachable data_interests s o now user_id venue_id
                user venue Hreach Hu Hv Hnone) as Hgen.
  cbv zeta in Hgen.
  set (s' := (express_interest o now
                (InterestRequest.mk user_id venue_id) s).1) in *.
  destruct Hgen as (Hl & Hcreate & Hexists & Hbelow).
  split_and!; try done.
  { intros Hcount Hno. destruct (Hcreate Hcount Hno) as [Hr Hb].
    split_and!; [done..|]. intros b Hin.
    apply minted_id_is_new; [|done]. by eapply reachable_ids. }
  intros Htwo.
  assert (get_interested_count (interests_list s') venue_id = 3) as Hthree.
  { rewrite Hl, count_app, Htwo. cbn. by rewrite decide_True. }
  destruct (reachable_invariant _ _ Hreach) as [_ Hback].
  destruct Hcreate as [Hr Hb].
  { lia. }
  { intros b Hin [Hbv Hst]. specialize (Hback b Hin Hst).
    rewrite Hbv in Hback. lia. }
  rewrite Hthree in Hr. split; [done|].
  intros o4 now4 user_id4 user4 Hu4 Hne Hnone4.
  assert (reachable data_interests s') as Hreach'.
  { apply (reachable_run _ _ _
             (PostInterests o now (InterestRequest.mk user_id venue_id))).
    done. }
  assert ((user_id4, venue_id) ∉ interest_key <$> interests_list s')
    as Hnone4'.
  { rewrite Hl, fmap_app. intros [Hin|Hin]%elem_of_app; [done|].
    apply list_elem_of_singleton in Hin. unfold interest_key in Hin.
    cbn in Hin. congruence. }
  destruct (toggle_on_reachable data_interests s' o4 now4 user_id4 venue_id
              user4 venue Hreach' Hu4 Hv Hnone4') as (_ & _ & Hexists4 & _).
  destruct (Hexists4 (installed_booking o venue_id (bookings_list s)
                                        (interests_list s')))
    as (Hr4 & _).
  - rewrite Hb. apply elem_of_app. right. by apply list_elem_of_singleton.
  - done.
  - exact Hr4.
Qed.

(** ** C2: toggle off *)

Lemma get_venue_booking_result venue_id venue s :
  dict_get venues_dict venue_id = Some venue →
  (get_venue_booking venues_dict venue_id s).2
  = match first_active venue_id (bookings_list s) with
    | Some (_, booking) =>
        Ok (VenueBookingResponse.mk true
              (Some (VenueBooking.mk (Booking.id booking)
                       (Booking.reservation_code booking)
                       (Booking.created_at booking)
                       (length (Booking.user_ids booking)))))
    | None => Ok (VenueBookingResponse.mk false None)
    end.
Proof.
  intros Hv. unfold get_venue_booking. rewrite Hv. state_proj.
  by destruct (first_active venue_id (bookings_list s)) as [[? ?]|].
Qed.

Lemma has_interest user_id venue_id interests :
  (user_id, venue_id) ∈ interest_key <$> interests →
  ∃ i x, list_find (is_interest_of user_id venue_id) interests = Some (i, x).
Proof.
  intros Hin.
  destruct (list_find (is_interest_of user_id venue_id) interests)
    as [[i x]|] eqn:Hfind; [by exists i, x|].
  by apply no_interest in Hfind.
Qed.

(** C2.  For an existing user and an existing venue with an interest
    recorded for the pair, POST /interests removes the first (in a ledger
    without duplicates: the) interest of the pair and nothing else, so that
    the count of the venue goes down by one.  If some booking is active for
    the venue and the new count is below 3, the first such booking gets the
    status cancelled, the answer is [booking_cancelled_response], the scan of
    GET /venues/{venue_id}/booking no longer stops at that booking, and, when
    the registry had at most one active booking per venue, that endpoint
    reports no booking.  Otherwise the answer is [interest_removed] and the
    registry is as before. *)
Theorem toggle_off_outcome (s : State) (o : Oracle) (now : datetime)
    (user_id venue_id : string) (user : User.t) (venue : Venue.t) :
  users_dict !! user_id = Some user →
  dict_get venues_dict venue_id = Some venue →
  (user_id, venue_id) ∈ interest_key <$> interests_list s →
  let s' := (express_interest o now (InterestRequest.mk user_id venue_id) s).1
  in
  let r := (express_interest o now (InterestRequest.mk user_id venue_id) s).2
  in
  let count := get_interested_count (interests_list s') venue_id in
  (∃ i x, interests_list s !! i = Some x
          ∧ interest_key x = (user_id, venue_id)
          ∧ (∀ j y, interests_list s !! j = Some y → j < i →
                    interest_key y ≠ (user_id, venue_id))
          ∧ interests_list s' = delete i (interests_list s))
  ∧ get_interested_count (interests_list s) venue_id = S count
  ∧ ((∃ b, b ∈ bookings_list s ∧ is_active_for venue_id b) →
     count < 3 →
     r = Ok booking_cancelled_response
     ∧ ∃ k b,
         bookings_list s !! k = Some b
         ∧ is_active_for venue_id b
         ∧ bookings_list s'
           = <[k := set_status "cancelled" b]> (bookings_list s)
         ∧ Booking.status <$> bookings_list s' !! k = Some "cancelled"
         ∧ (∀ j b', first_active venue_id (bookings_list s') = Some (j, b')
                    → j ≠ k)
         ∧ (one_active_per_venue (bookings_list s) →
            (get_venue_booking venues_dict venue_id s').2
            = Ok (VenueBookingResponse.mk false None)))
  ∧ ((¬ ∃ b, b ∈ bookings_list s ∧ is_active_for venue_id b) ∨ 3 ≤ count →
     r = Ok (interest_removed (Venue.name venue))
     ∧ bookings_list s' = bookings_list s).
Proof.
  intros Hu Hv Hin. cbv zeta.
  destruct (has_interest _ _ _ Hin) as (i & x & Hfind).
  pose proof (express_interest_effect o now
                (InterestRequest.mk user_id venue_id) s) as Heff.
  cbn [InterestRequest.user_id InterestRequest.venue_id] in Heff.
  destruct (toggle_off_cases _ _ _ _ _ _ _ _ _ _ _ Hu Hv Hfind Heff)
    as [Hl Hcases].
  set (s' := (express_interest o now
                (InterestRequest.mk user_id venue_id) s).1) in *.
  set (r := (express_interest o now
               (InterestRequest.mk user_id venue_id) s).2) in *.
  clearbody s' r. clear Heff.
  pose proof Hfind as (Hi & [Hxu Hxv] & Hfirst)%list_find_Some.
  split_and!.
  - exists i, x. split_and!; [done|by unfold interest_key; rewrite Hxu, Hxv| |done].
    intros j y Hj Hlt Hkey. apply (Hfirst j y Hj Hlt).
    unfold interest_key in Hkey. by inversion Hkey.
  - rewrite (count_delete _ _ _ venue_id Hi), Hl.
    rewrite decide_True by done. lia.
  - intros (b0 & Hb0in & Hb0) Hcount.
    destruct Hcases as [(k & b & Hact & _ & Hb & Hr)|([Hnone|Hge] & _)];
      cycle 1.
    { rewrite first_active_None in Hnone. by destruct (Hnone b0 Hb0in). }
    { lia. }
    split; [done|].
    apply first_active_Some in Hact as (Hk & Hbact & _).
    assert (k < length (bookings_list s)) as Hklt
      by (by eapply lookup_lt_Some).
    exists k, b. split_and!; try done.
    + by rewrite Hb, list_lookup_insert_eq.
    + intros j b' (Hj & Hb' & _)%first_active_Some ->.
      rewrite Hb, list_lookup_insert_eq in Hj by done.
      injection Hj as <-. by destruct Hb' as [_ ?].
    + intros Hone. rewrite (get_venue_booking_result _ venue) by done.
      destruct (first_active venue_id (bookings_list s'))
        as [[j b']|] eqn:Hact'; [|done].
      apply first_active_Some in Hact' as (Hj & Hb' & _).
      rewrite Hb in Hj.
      destruct (decide (j = k)) as [->|Hjk].
      * rewrite list_lookup_insert_eq in Hj by done.
        injection Hj as <-. by destruct Hb' as [_ ?].
      * rewrite list_lookup_insert_ne in Hj by done.
        destruct Hjk. by eapply (Hone venue_id j k b' b).
  - intros Hother.
    destruct Hcases as [(k & b & Hact & Hlt & _)|(_ & Hb & Hr)]; [|done].
    destruct Hother as [Hno|Hge]; [|lia].
    destruct Hno. exists b.
    apply first_active_Some in Hact as (Hk & Hbact & _).
    split; [by eapply list_elem_of_lookup_2|done].
Qed.

(** ** C9: toggling twice *)

Lemma keys_delete interests i x :
  interests !! i = Some x →
  interest_key <$> interests
  ≡ₚ interest_key x :: (interest_key <$> delete i interests).
Proof.
  intros Hi. rewrite <- fmap_cons. apply fmap_Permutation.
  by apply delete_Permutation.
Qed.

Lemma toggle_effect_ledger_unique o now user_id venue_id s s' r :
  toggle_effect o now user_id venue_id s s' r →
  ledger_unique (interests_list s) → ledger_unique (interests_list s').
Proof.
  unfold ledger_unique. intros Heff Huniq.
  assert (∀ i x, interests_list s !! i = Some x →
                 NoDup (interest_key <$> delete i (interests_list s)))
    as Hdel.
  { intros i x Hi. rewrite (keys_delete _ _ _ Hi) in Huniq.
    by apply NoDup_cons in Huniq as [_ ?]. }
  assert (list_find (is_interest_of user_id venue_id) (interests_list s)
          = None →
          ∀ now, NoDup (interest_key <$> interests_list s
                                          ++ [Interest.mk user_id venue_id now]))
    as Happ.
  { intros Hnone%no_interest now'. rewrite fmap_app.
    apply NoDup_app. split_and!; [done| |apply NoDup_singleton].
    intros key Hin Hkey%list_elem_of_singleton. by subst. }
  destruct Heff as
    [detail _ Hl Hb
    |user venue i x k b _ _ Hfind Hl Hact Hcount Hb
    |user venue i x _ _ Hfind Hl Hkeep Hb
    |user venue _ _ Hfind Hl Hcount Hb
    |user venue k b _ _ Hfind Hl Hcount Hact Hb
    |user venue _ _ Hfind Hl Hcount Hact Hb]; rewrite Hl;
    first [done
          |apply found_interest in Hfind as (Hi & _); by eapply Hdel
          |by apply Happ].
Qed.

Lemma run_ledger_unique c s :
  ledger_unique (interests_list s) → ledger_unique (interests_list (run c s)).
Proof.
  intros Huniq. destruct c as [o now request| |v|u|u|u|v].
  1: exact (toggle_effect_ledger_unique _ _ _ _ _ _ _
              (express_interest_effect o now request s) Huniq).
  all: match goal with
       | |- ledger_unique (interests_list (run ?c ?s0)) =>
           destruct (run_read_only c s0) as [-> _]; done
       end.
Qed.

Lemma reachable_ledger_unique data_interests s :
  ledger_unique data_interests →
  reachable data_interests s → ledger_unique (interests_list s).
Proof.
  intros Hdata. induction 1 as [|c s _ IH]; [done|].
  by apply run_ledger_unique.
Qed.

(** C9.  For an existing user and an existing venue, and a ledger that holds
    at most one interest per pair (every ledger reached from such a ledger
    does, [reachable_ledger_unique]), two consecutive calls of
    POST /interests for the pair leave the set of (user, venue) pairs of the
    ledger as it was before the first call. *)
Theorem toggle_twice_restores_membership (s : State)
    (o1 o2 : Oracle) (now1 now2 : datetime) (user_id venue_id : string)
    (user : User.t) (venue : Venue.t) :
  users_dict !! user_id = Some user →
  dict_get venues_dict venue_id = Some venue →
  ledger_unique (interests_list s) →
  let request := InterestRequest.mk user_id venue_id in
  let s1 := (express_interest o1 now1 request s).1 in
  let s2 := (express_interest o2 now2 request s1).1 in
  ledger_membership (interests_list s2) = ledger_membership (interests_list s).
Proof.
  intros Hu Hv Huniq. cbv zeta.
  pose proof (express_interest_effect o1 now1
                (InterestRequest.mk user_id venue_id) s) as Heff1.
  set (s1 := (express_interest o1 now1
                (InterestRequest.mk user_id venue_id) s).1) in *.
  pose proof (express_interest_effect o2 now2
                (InterestRequest.mk user_id venue_id) s1) as Heff2.
  set (s2 := (express_interest o2 now2
                (InterestRequest.mk user_id venue_id) s1).1) in *.
  cbn [InterestRequest.user_id InterestRequest.venue_id] in Heff1, Heff2.
  clearbody s2. clearbody s1. unfold ledger_membership.
  destruct (list_find (is_interest_of user_id venue_id) (interests_list s))
    as [[i x]|] eqn:Hfind.
  - (* off, then on *)
    destruct (toggle_off_cases _ _ _ _ _ _ _ _ _ _ _ Hu Hv Hfind Heff1)
      as [Hl1 _].
    apply found_interest in Hfind as (Hi & Hxu & Hxv).
    pose proof (keys_delete _ _ _ Hi) as Hperm.
    assert (interest_key x = (user_id, venue_id)) as Hkey
      by (by unfold interest_key; rewrite Hxu, Hxv).
    assert (list_find (is_interest_of user_id venue_id) (interests_list s1)
            = None) as Hfind1.
    { apply no_interest. rewrite Hl1. unfold ledger_unique in Huniq.
      rewrite Hperm, Hkey in Huniq. by apply NoDup_cons in Huniq as [? _]. }
    destruct (toggle_on_cases _ _ _ _ _ _ _ _ _ Hu Hv Hfind1 Heff2)
      as [Hl2 _].
    rewrite Hl2, Hl1, fmap_app. cbn [fmap list_fmap].
    apply list_to_set_perm_L. rewrite Hperm, Hkey.
    unfold interest_key at 2. cbn.
    by rewrite <- Permutation_cons_append.
  - (* on, then off *)
    destruct (toggle_on_cases _ _ _ _ _ _ _ _ _ Hu Hv Hfind Heff1)
      as [Hl1 _].
    assert (list_find (is_interest_of user_id venue_id) (interests_list s1)
            = Some (length (interests_list s),
                    Interest.mk user_id venue_id now1)) as Hfind1.
    { rewrite Hl1. apply list_find_Some. split_and!.
      - by rewrite lookup_app_r, Nat.sub_diag.
      - done.
      - intros j y Hj Hlt. rewrite lookup_app_l in Hj by done.
        rewrite list_find_None, Forall_forall in Hfind.
        apply Hfind. by eapply list_elem_of_lookup_2. }
    destruct (toggle_off_cases _ _ _ _ _ _ _ _ _ _ _ Hu Hv Hfind1 Heff2)
      as [Hl2 _].
    rewrite Hl2, Hl1. rewrite delete_take_drop.
    rewrite take_app_length, drop_app_ge by lia.
    replace (S (length (interests_list s)) - length (interests_list s))
      with 1 by lia.
    cbn. by rewrite app_nil_r.
Qed.

(** ** C8: a collaborator that raises *)

(** C8.  On the toggle-on path, if the call of the booking collaborator
    raises an exception [e], POST /interests still answers
    [interest_recorded] (a response, not an HTTP error): the interest that
    was appended stays in the ledger, the registry is as before, and the
    records logged by the call end with the ERROR record of the fault. *)
Theorem collaborator_fault_is_absorbed (agent : Agent) (now : datetime)
    (s : State) (user_id venue_id : string) (user : User.t) (venue : Venue.t)
    (e : PyException) :
  users_dict !! user_id = Some user →
  dict_get venues_dict venue_id = Some venue →
  (user_id, venue_id) ∉ interest_key <$> interests_list s →
  let interests := interests_list s ++ [Interest.mk user_id venue_id now] in
  agent venue_id (Venue.name venue)
        (Z.of_nat (length (ids_for venue_id interests)))
        (ids_for venue_id interests) (bookings_list s) = Raised e →
  let request := InterestRequest.mk user_id venue_id in
  (express_interest_with agent now request s).2 = Ok interest_recorded
  ∧ interests_list (express_interest_with agent now request s).1 = interests
  ∧ bookings_list (express_interest_with agent now request s).1
    = bookings_list s
  ∧ log (express_interest_with agent now request s).1
    = log s
      ++ [(INFO, "Express interest request: user=" +:+ user_id
                 +:+ ", venue=" +:+ venue_id);
          (INFO, "Interest added: user=" +:+ user_id
                 +:+ ", venue=" +:+ venue_id);
          (ERROR, "Booking agent error: " +:+ str_exn e)].
Proof.
  intros Hu Hv Hnone%no_interest. cbv zeta. intros Hraise.
  rewrite (express_interest_with_on agent now
             (InterestRequest.mk user_id venue_id) s user venue Hu Hv Hnone).
  cbn [InterestRequest.user_id InterestRequest.venue_id].
  unfold toggle_on, try_booking, locked. state_proj.
  fold (ids_for venue_id
          (interests_list s ++ [Interest.mk user_id venue_id now])).
  rewrite Hraise. state_proj.
  by rewrite <- !app_assoc.
Qed.

(** ** C4: the score does not depend on the interests of the viewer *)

Lemma try_booking_interests agent venue_id venue_name count ids s :
  interests_list (try_booking agent venue_id venue_name count ids s).1
  = interests_list s.
Proof.
  unfold try_booking. repeat case_match; done.
Qed.

Lemma toggle_on_interests agent now venue_id user_id venue s :
  interests_list (toggle_on agent now venue_id user_id venue s).1
  = interests_list s ++ [Interest.mk user_id venue_id now].
Proof.
  unfold toggle_on.
  match goal with
  | |- context [try_booking ?a ?b ?c ?d ?e ?f] =>
      pose proof (try_booking_interests a b c d e f) as Htry;
      destruct (try_booking a b c d e f) as [s2 [response|exn]]
  end; exact Htry.
Qed.

Lemma toggle_off_interests venue_id user_id venue i s :
  interests_list (toggle_off venue_id user_id venue i s).1
  = delete i (interests_list s).
Proof.
  unfold toggle_off. state_proj. repeat case_match; done.
Qed.

Lemma others_app user_id interests interest :
  Interest.user_id interest = user_id →
  others_interests user_id (interests ++ [interest])
  = others_interests user_id interests.
Proof.
  intros Hu. unfold others_interests.
  rewrite filter_app, filter_cons_False, filter_nil by naive_solver.
  apply app_nil_r.
Qed.

Lemma others_delete user_id interests i x :
  interests !! i = Some x → Interest.user_id x = user_id →
  others_interests user_id (delete i interests)
  = others_interests user_id interests.
Proof.
  intros Hi Hu. unfold others_interests.
  rewrite <- (take_drop_middle interests i x Hi) at 2.
  rewrite delete_take_drop, !filter_app.
  by rewrite filter_cons_False by naive_solver.
Qed.

(** A toggle of a user changes no interest of another user, whatever the
    collaborator does. *)
Lemma express_interest_with_others agent now user_id venue_id s :
  others_interests user_id
    (interests_list (express_interest_with agent now
                       (InterestRequest.mk user_id venue_id) s).1)
  = others_interests user_id (interests_list s).
Proof.
  set (request := InterestRequest.mk user_id venue_id).
  destruct (users_dict !! user_id) as [user|] eqn:Hu; cycle 1.
  { destruct (express_interest_with_no_user agent now request s Hu)
      as (s' & detail & -> & Hl & _). cbn [fst]. by rewrite Hl. }
  destruct (dict_get venues_dict venue_id) as [venue|] eqn:Hv; cycle 1.
  { destruct (express_interest_with_no_venue agent now request s Hv)
      as (s' & detail & -> & Hl & _). cbn [fst]. by rewrite Hl. }
  destruct (list_find (is_interest_of user_id venue_id) (interests_list s))
    as [[i x]|] eqn:Hfind.
  - rewrite (express_interest_with_off agent now request s user venue i x
               Hu Hv Hfind).
    cbn [fst]. rewrite toggle_off_interests. unfold locked. state_proj.
    apply found_interest in Hfind as (Hi & Hxu & _).
    by eapply others_delete.
  - rewrite (express_interest_with_on agent now request s user venue
               Hu Hv Hfind).
    cbn [fst]. rewrite toggle_on_interests. unfold locked. state_proj.
    by apply others_app.
Qed.

Lemma count_friends_others interests user_id venue_id :
  count_friends_interested interests user_id venue_id
  = length (filter (λ interest, Interest.venue_id interest = venue_id)
                   (others_interests user_id interests)).
Proof.
  unfold count_friends_interested, others_interests.
  by rewrite list_filter_filter.
Qed.

Lemma count_friends_agree interests1 interests2 user_id venue_id :
  others_interests user_id interests1 ≡ₚ others_interests user_id interests2 →
  count_friends_interested interests1 user_id venue_id
  = count_friends_interested interests2 user_id venue_id.
Proof.
  intros Hperm. rewrite !count_friends_others. by rewrite Hperm.
Qed.

(** The score in closed form, for an existing user and venue. *)
Lemma score_closed_form interests user_id venue_id user venue :
  users_dict !! user_id = Some user →
  dict_get venues_dict venue_id = Some venue →
  score_of (calculate_recommendation_score users_dict venues_dict
              interests user_id venue_id)
  = accumulated_score
      (count_friends_interested interests user_id venue_id)
      (category_matches (lower (Venue.category venue)) (User.interests user)).
Proof.
  intros Hu Hv. unfold calculate_recommendation_score, score_of.
  rewrite Hu, Hv. reflexivity.
Qed.

Lemma score_invalid interests user_id venue_id :
  users_dict !! user_id = None ∨ dict_get venues_dict venue_id = None →
  score_of (calculate_recommendation_score users_dict venues_dict
              interests user_id venue_id) = 0%Q.
Proof.
  unfold calculate_recommendation_score, score_of.
  intros [->| ->]; [done|]. by destruct (users_dict !! user_id).
Qed.

Local Abbreviation Score interests user_id venue_id :=
  (score_of (calculate_recommendation_score users_dict venues_dict
               interests user_id venue_id)).

Lemma score_agree interests1 interests2 user_id venue_id :
  others_interests user_id interests1 ≡ₚ others_interests user_id interests2 →
  Score interests1 user_id venue_id = Score interests2 user_id venue_id.
Proof.
  intros Hperm.
  destruct (users_dict !! user_id) as [user|] eqn:Hu; cycle 1.
  { by rewrite !score_invalid by by left. }
  destruct (dict_get venues_dict venue_id) as [venue|] eqn:Hv; cycle 1.
  { by rewrite !score_invalid by by right. }
  rewrite !(score_closed_form _ _ _ user venue) by done.
  by rewrite (count_friends_agree _ _ _ _ Hperm).
Qed.

(** C4.  The score of a venue for a user is the same in any two ledgers that
    hold the same interests of the other users (in any order); in particular
    it is the same before and after the user toggles an interest of their
    own, in this venue or in any other, whatever the booking collaborator
    does. *)
Theorem score_ignores_own_interests (user_id venue_id : string) :
  (∀ interests1 interests2,
     others_interests user_id interests1
     ≡ₚ others_interests user_id interests2 →
     Score interests1 user_id venue_id = Score interests2 user_id venue_id)
  ∧ (∀ agent now toggled_venue_id s,
       Score (interests_list
                (express_interest_with agent now
                   (InterestRequest.mk user_id toggled_venue_id) s).1)
             user_id venue_id
       = Score (interests_list s) user_id venue_id).
Proof.
  split.
  - intros interests1 interests2. apply score_agree.
  - intros agent now toggled_venue_id s. apply score_agree.
    by rewrite express_interest_with_others.
Qed.

(** ** C6: the formula of the score *)

Lemma category_matches_existsb category tags :
  category_matches category tags
  = existsb (λ tag, str_in (lower tag) category
                    || str_in category (lower tag)) tags.
Proof.
  induction tags as [|tag tags IH]; [done|]. cbn.
  by destruct (str_in (lower tag) category || str_in category (lower tag)).
Qed.

Lemma friends_are_distinct_users interests user_id venue_id :
  ledger_unique interests →
  NoDup (Interest.user_id <$>
           filter (λ interest, Interest.venue_id interest = venue_id
                               ∧ Interest.user_id interest ≠ user_id)
                  interests).
Proof.
  unfold ledger_unique.
  induction interests as [|x interests IH]; [constructor|].
  rewrite fmap_cons, NoDup_cons. intros [Hx Huniq].
  rewrite filter_cons. case_decide as Hp; [|by apply IH].
  rewrite fmap_cons. apply NoDup_cons. split; [|by apply IH].
  intros (y & Hxy & Hy)%list_elem_of_fmap.
  apply list_elem_of_filter in Hy as [[Hyv _] Hy].
  apply Hx, list_elem_of_fmap. exists y. split; [|done].
  unfold interest_key. destruct Hp as [Hxv _]. congruence.
Qed.

(** ** Float arithmetic *)

Lemma binade_lower q : (0 < q)%Q → (2 ^ binade q <= q)%Q.
Proof.
  intros Hq. unfold binade.
  destruct (Qle_bool _ q) eqn:Hle; [by apply Qle_bool_iff|]. clear Hle.
  destruct q as [n d]. cbn [Qnum Qden].
  assert (0 < n)%Z as Hn.
  { unfold Qlt in Hq. cbn in Hq. lia. }
  pose proof (Z.log2_spec n Hn) as [Ha _].
  pose proof (Z.log2_spec (Z.pos d) (Pos2Z.is_pos d)) as [_ Hd].
  pose proof (Z.log2_nonneg n) as Ha0.
  pose proof (Z.log2_nonneg (Z.pos d)) as Hb0.
  set (a := Z.log2 n) in *. set (b := Z.log2 (Z.pos d)) in *.
  replace (a - b - 1)%Z with (a - Z.succ b)%Z by lia.
  rewrite Qpower_minus by done.
  rewrite <- (Zpower_Qpower 2 a), <- (Zpower_Qpower 2 (Z.succ b)) by lia.
  assert (0 < 2 ^ Z.succ b)%Z as HB by (apply Z.pow_pos_nonneg; lia).
  set (A := (2 ^ a)%Z) in *. set (B := (2 ^ Z.succ b)%Z) in *.
  clearbody A B.
  apply Qle_shift_div_r.
  { change 0%Q with (inject_Z 0). by rewrite <- Zlt_Qlt. }
  unfold Qle, Qmult, inject_Z. cbn [Qnum Qden].
  rewrite Pos.mul_1_r, Z.mul_1_r. nia.
Qed.

Lemma round_half_even_ge k y :
  (inject_Z k <= y)%Q → (k <= round_half_even y)%Z.
Proof.
  intros Hk. unfold round_half_even.
  assert (k <= Qfloor y)%Z as Hf.
  { rewrite <- (Qfloor_Z k). by apply Qfloor_resp_le. }
  destruct (_ ?= _)%Q; [destruct (Z.even _)|..]; lia.
Qed.

Lemma round_half_even_proper x y :
  (x == y)%Q → round_half_even x = round_half_even y.
Proof.
  intros Hxy. unfold round_half_even.
  rewrite (Qfloor_comp _ _ Hxy).
  assert (x - inject_Z (Qfloor y) == y - inject_Z (Qfloor y))%Q as Hfrac
    by (by rewrite Hxy).
  by rewrite (Qcompare_comp _ _ Hfrac (1 # 2) (1 # 2) (Qeq_refl _)).
Qed.

(** Rounding does not take a number that is at least 3 below 3. *)
Lemma binary64_ge_3 x : (3 <= x)%Q → (3 <= binary64 x)%Q.
Proof.
  intros Hx. unfold binary64.
  assert (3 <= Qred x)%Q as Hx' by (by rewrite Qred_correct).
  set (x' := Qred x) in *. clearbody x'. clear Hx x.
  assert (0 < x')%Q as Hpos by (by apply Qlt_le_trans with 3%Q).
  destruct (Qnum x') eqn:Hnum.
  { unfold Qlt in Hpos. rewrite Hnum in Hpos. cbn in Hpos. lia. }
  2: { unfold Qlt in Hpos. rewrite Hnum in Hpos. cbn in Hpos. lia. }
  cbv zeta. rewrite Qred_correct.
  assert (2 ^ binade (Qabs x') <= x')%Q as Hb.
  { rewrite <- (Qabs_pos x') at 2 by by apply Qlt_le_weak.
    apply binade_lower. rewrite Qabs_pos; [done|by apply Qlt_le_weak]. }
  set (b := binade (Qabs x')) in *. clearbody b.
  assert (0 < 2 ^ (b - 52))%Q as He by by apply Qpower_0_lt.
  destruct (decide (b - 52 <= 0)%Z) as [Hneg|Hbig].
  - assert (3 == inject_Z (3 * 2 ^ (52 - b)) * 2 ^ (b - 52))%Q as H3.
    { rewrite inject_Z_mult, Zpower_Qpower by lia.
      rewrite <- Qmult_assoc, <- Qpower_plus by done.
      replace (52 - b + (b - 52))%Z with 0%Z by lia. by rewrite Qmult_1_r. }
    rewrite H3 at 1. apply Qmult_le_compat_r; [|by apply Qlt_le_weak].
    rewrite <- Zle_Qle. apply round_half_even_ge.
    apply Qle_shift_div_l; [done|]. by rewrite <- H3.
  - assert (inject_Z (2 ^ 52) <= x' / 2 ^ (b - 52))%Q as Hy.
    { apply Qle_shift_div_l; [done|].
      rewrite Zpower_Qpower by lia. rewrite <- Qpower_plus by done.
      by replace (52 + (b - 52))%Z with b by lia. }
    apply round_half_even_ge in Hy.
    assert (1 <= 2 ^ (b - 52))%Q as H1 by (apply Qpower_1_le; [done|lia]).
    apply Qle_trans with (inject_Z (2 ^ 52) * 1)%Q; [done|].
    apply Qle_trans
      with (inject_Z (round_half_even (x' / 2 ^ (b - 52))) * 1)%Q.
    + apply Qmult_le_compat_r; [by rewrite <- Zle_Qle|done].
    + apply Qmult_le_l; [|done].
      apply Qlt_le_trans with (inject_Z (2 ^ 52)); [done|].
      by rewrite <- Zle_Qle.
Qed.

Lemma binary64_proper x y : (x == y)%Q → binary64 x = binary64 y.
Proof. intros Hxy. unfold binary64. by rewrite (Qred_complete _ _ Hxy). Qed.

Lemma float_add_proper x x' y y' :
  (x == x')%Q → (y == y')%Q → float_add x y = float_add x' y'.
Proof.
  intros Hx Hy. unfold float_add. apply binary64_proper. by rewrite Hx, Hy.
Qed.

Lemma round1_proper x y : (x == y)%Q → round1 x = round1 y.
Proof.
  intros Hxy. unfold round1.
  assert (x * 10 == y * 10)%Q as H10 by (by rewrite Hxy).
  by rewrite (round_half_even_proper _ _ H10).
Qed.

(** From 9 other users on, the quotient is at least 3 and the factors are
    those of 9. *)
Lemma popularity_cap c : (popularity c == popularity (Nat.min c 9))%Q.
Proof.
  destruct (decide (c ≤ 9)) as [Hle|Hgt].
  { by rewrite Nat.min_l. }
  rewrite Nat.min_r by lia.
  transitivity 3%Q; [|by vm_compute].
  unfold popularity, int_truediv. apply Q.min_r, binary64_ge_3.
  apply Qle_shift_div_l; [done|].
  change (3 * inject_Z 3)%Q with (inject_Z 9). rewrite <- Zle_Qle. lia.
Qed.

Lemma friend_bonus_cap c : (friend_bonus c == friend_bonus (Nat.min c 9))%Q.
Proof.
  destruct (decide (c ≤ 9)) as [Hle|Hgt].
  { by rewrite Nat.min_l. }
  rewrite Nat.min_r by lia.
  transitivity 3%Q; [|by vm_compute].
  unfold friend_bonus. apply Q.min_r.
  change 3%Q with (inject_Z 3). rewrite <- Zle_Qle. lia.
Qed.

Lemma three_factors_cap c category_match :
  three_factors c category_match
  = three_factors (Nat.min c 9) category_match.
Proof.
  unfold three_factors.
  apply float_add_proper; [|apply friend_bonus_cap].
  by rewrite (float_add_proper _ _ _ _ (popularity_cap c)
                (Qeq_refl (category_match_points category_match))).
Qed.

Lemma accumulated_score_cap c category_match :
  accumulated_score c category_match
  = accumulated_score (Nat.min c 9) category_match.
Proof.
  unfold accumulated_score. cbv zeta.
  assert (float_add 0 (popularity c)
          = float_add 0 (popularity (Nat.min c 9))) as ->
    by (apply float_add_proper; [done|apply popularity_cap]).
  apply float_add_proper; [done|apply friend_bonus_cap].
Qed.

Lemma exact_factors_cap c category_match :
  (exact_factors c category_match
   == exact_factors (Nat.min c 9) category_match)%Q.
Proof.
  destruct (decide (c ≤ 9)) as [Hle|Hgt].
  { by rewrite Nat.min_l. }
  rewrite Nat.min_r by lia. unfold exact_factors.
  assert (9 <= inject_Z (Z.of_nat c))%Q as Hc.
  { change 9%Q with (inject_Z 9). rewrite <- Zle_Qle. lia. }
  assert (Qmin (inject_Z (Z.of_nat c) / 3) 3 == 3)%Q as ->.
  { apply Q.min_r. apply Qle_shift_div_l; [done|]. exact Hc. }
  assert (Qmin (inject_Z (Z.of_nat c)) 3 == 3)%Q as ->.
  { apply Q.min_r. apply Qle_trans with 9%Q; [done|exact Hc]. }
  by destruct category_match.
Qed.

(** Up to 9 other users: the score as accumulated is the sum of the three
    factors, it is at most 10, and it is within 10^-14 of the sum of the
    factors as real numbers. *)
Lemma score_table :
  Forall (λ c,
            Forall (λ m,
                      Qeq_bool (accumulated_score c m) (three_factors c m)
                      = true
                      ∧ Qle_bool (three_factors c m) 10 = true
                      ∧ Qle_bool (Qabs (three_factors c m
                                        - exact_factors c m))
                                 (1 # 100000000000000)
                        = true)
                   [false; true])
         (seq 0 10).
Proof. compute_done. Qed.

Lemma score_table_at c category_match :
  (accumulated_score c category_match == three_factors c category_match)%Q
  ∧ (three_factors c category_match <= 10)%Q
  ∧ (Qabs (three_factors c category_match - exact_factors c category_match)
     <= 1 # 100000000000000)%Q.
Proof.
  rewrite accumulated_score_cap, three_factors_cap, exact_factors_cap.
  pose proof score_table as Hall.
  rewrite Forall_forall in Hall.
  specialize (Hall (Nat.min c 9)). rewrite elem_of_seq in Hall.
  specialize (Hall ltac:(lia)).
  rewrite Forall_forall in Hall.
  assert (category_match ∈ [false; true]) as Hm
    by (destruct category_match; [by right; left|by left]).
  specialize (Hall category_match Hm).
  destruct Hall as (Heq & Hle & Hclose).
  split_and!; [by apply Qeq_bool_iff|by apply Qle_bool_iff..].
Qed.

Lemma score_three_factors interests user_id venue_id user venue :
  users_dict !! user_id = Some user →
  dict_get venues_dict venue_id = Some venue →
  (Score interests user_id venue_id
   == three_factors (count_friends_interested interests user_id venue_id)
                    (matches_category user venue))%Q.
Proof.
  intros Hu Hv. rewrite (score_closed_form _ _ _ user venue Hu Hv).
  rewrite category_matches_existsb. fold (matches_category user venue).
  apply score_table_at.
Qed.

(** C6 (amended).  For an existing user and venue whose interest tags and
    category are ASCII text, with [c] the number of interests in the venue
    held by other users, the score is the sum, in float arithmetic, of
    min(c/3, 3), category_match and min(c, 3), where category_match is 4 if,
    lower-cased, some interest tag of the user occurs in the category of the
    venue or the category occurs in the tag, and 0 otherwise.  The score is
    within 10^-14 of the sum of the three factors as real numbers, and it is
    at most 10.  In a ledger with at most one interest per pair, [c] is the
    number of other users interested in the venue. *)
Theorem score_is_sum_of_factors (interests : list Interest.t)
    (user_id venue_id : string) (user : User.t) (venue : Venue.t) :
  users_dict !! user_id = Some user →
  dict_get venues_dict venue_id = Some venue →
  is_ascii (Venue.category venue) →
  Forall is_ascii (User.interests user) →
  let c := count_friends_interested interests user_id venue_id in
  (Score interests user_id venue_id
   == three_factors c (matches_category user venue))%Q
  ∧ (Qabs (Score interests user_id venue_id
           - exact_factors c (matches_category user venue))
     <= 1 # 100000000000000)%Q
  ∧ (Score interests user_id venue_id <= 10)%Q
  ∧ (ledger_unique interests →
     c = size (list_to_set
                 (Interest.user_id <$>
                    filter (λ interest, Interest.venue_id interest = venue_id
                                        ∧ Interest.user_id interest ≠ user_id)
                           interests) : gset string)).
Proof.
  intros Hu Hv _ _. cbv zeta.
  pose proof (score_three_factors interests user_id venue_id user venue
                Hu Hv) as Hsum.
  destruct (score_table_at
              (count_friends_interested interests user_id venue_id)
              (matches_category user venue)) as (_ & Hle & Hclose).
  split_and!.
  - exact Hsum.
  - by rewrite Hsum.
  - by rewrite Hsum.
  - intros Huniq.
    rewrite size_list_to_set by by apply friends_are_distinct_users.
    unfold count_friends_interested. by rewrite length_fmap.
Qed.

(** ** C7: the ranking *)

(** *** Rounding to one decimal and the order of the scores *)

Lemma three_factors_value c category_match :
  ∃ q, q ∈ score_values ∧ three_factors c category_match = q.
Proof.
  exists (three_factors (Nat.min c 9) category_match).
  split; [|apply three_factors_cap].
  unfold score_values. apply list_elem_of_bind. exists (Nat.min c 9).
  split.
  - destruct category_match; [by right; left|by left].
  - apply elem_of_seq. lia.
Qed.

(** Rounding to one decimal is monotone on the values of the score.  (It
    is not injective on them: see [rounded_scores_can_tie].) *)
Lemma rounding_on_score_values :
  Forall (λ a, Forall (λ b, implb (Qle_bool a b)
                                  (Qle_bool (round1 a) (round1 b)) = true)
                      score_values)
         score_values.
Proof. compute_done. Qed.

Lemma rounding_keeps_order c1 m1 c2 m2 :
  (three_factors c1 m1 <= three_factors c2 m2 →
   round1 (three_factors c1 m1) <= round1 (three_factors c2 m2))%Q.
Proof.
  destruct (three_factors_value c1 m1) as (a & Ha & ->).
  destruct (three_factors_value c2 m2) as (b & Hb & ->).
  pose proof rounding_on_score_values as Hall.
  rewrite Forall_forall in Hall. specialize (Hall a Ha).
  rewrite Forall_forall in Hall. specialize (Hall b Hb).
  rewrite <- !Qle_bool_iff. intros Hle. by rewrite Hle in Hall.
Qed.

(** The entry scores compare as the sums of the factors as real numbers
    do: the rounding to one decimal undoes the rounding errors of the float
    arithmetic, and it is injective on the real sums, which are thirds. *)
Lemma rounding_on_score_inputs :
  Forall (λ a : nat * bool,
            Forall (λ b : nat * bool,
                      Qle_bool (round1 (three_factors a.1 a.2))
                               (round1 (three_factors b.1 b.2))
                      = Qle_bool (exact_factors a.1 a.2)
                                 (exact_factors b.1 b.2))
                   score_inputs)
         score_inputs.
Proof. compute_done. Qed.

Lemma score_inputs_elem c category_match :
  c ≤ 9 → (c, category_match) ∈ score_inputs.
Proof.
  intros Hc. unfold score_inputs. apply list_elem_of_bind. exists c.
  split; [|apply elem_of_seq; lia].
  destruct category_match; [by right; left|by left].
Qed.

Lemma rounding_orders_exact c1 m1 c2 m2 :
  (round1 (three_factors c1 m1) <= round1 (three_factors c2 m2)
   ↔ exact_factors c1 m1 <= exact_factors c2 m2)%Q.
Proof.
  rewrite (three_factors_cap c1), (three_factors_cap c2).
  rewrite (exact_factors_cap c1), (exact_factors_cap c2).
  pose proof rounding_on_score_inputs as Hall.
  rewrite Forall_forall in Hall.
  specialize (Hall (Nat.min c1 9, m1)
                (score_inputs_elem _ _ (Nat.le_min_r c1 9))).
  rewrite Forall_forall in Hall.
  specialize (Hall (Nat.min c2 9, m2)
                (score_inputs_elem _ _ (Nat.le_min_r c2 9))).
  cbn [fst snd] in Hall. rewrite <- !Qle_bool_iff. by rewrite Hall.
Qed.

(** *** The stable sort *)

Lemma insert_by_key_perm {A} (key : A → Q) x l :
  insert_by_key key x l ≡ₚ x :: l.
Proof.
  induction l as [|y l IH]; cbn; [done|].
  destruct (Qle_bool (key x) (key y)); [done|].
  by rewrite IH, Permutation_swap.
Qed.

Lemma sort_by_key_perm {A} (key : A → Q) l : sort_by_key key l ≡ₚ l.
Proof.
  induction l as [|x l IH]; cbn; [done|].
  by rewrite insert_by_key_perm, IH.
Qed.

Lemma insert_by_key_sorted {A} (key : A → Q) x l :
  StronglySorted (λ a b, key a <= key b)%Q l →
  StronglySorted (λ a b, key a <= key b)%Q (insert_by_key key x l).
Proof.
  induction 1 as [|y l Hsorted IH Hy]; cbn.
  { repeat constructor. }
  destruct (Qle_bool (key x) (key y)) eqn:Hle.
  - apply Qle_bool_iff in Hle.
    constructor; [by constructor|]. constructor; [done|].
    eapply Forall_impl; [exact Hy|]. intros z Hz. cbn in Hz.
    by eapply Qle_trans.
  - constructor; [done|]. rewrite insert_by_key_perm.
    constructor; [|done].
    destruct (Qlt_le_dec (key y) (key x)) as [Hlt|Hge].
    + by apply Qlt_le_weak.
    + apply Qle_bool_iff in Hge. congruence.
Qed.

Lemma sort_by_key_sorted {A} (key : A → Q) l :
  StronglySorted (λ a b, key a <= key b)%Q (sort_by_key key l).
Proof.
  induction l as [|x l IH]; cbn; [constructor|].
  by apply insert_by_key_sorted.
Qed.

(** Elements of equal key keep their order. *)
Lemma insert_by_key_filter {A} (key : A → Q) (q : Q) x l :
  filter (λ a, Qeq_bool (key a) q) (insert_by_key key x l)
  = filter (λ a, Qeq_bool (key a) q) (x :: l).
Proof.
  induction l as [|y l IH]; cbn; [done|].
  destruct (Qle_bool (key x) (key y)) eqn:Hle; [done|].
  rewrite filter_cons, IH, !filter_cons.
  destruct (decide (Qeq_bool (key y) q)) as [Hy|Hy]; [|done].
  destruct (decide (Qeq_bool (key x) q)) as [Hx|Hx]; [|done].
  apply Is_true_true, Qeq_bool_iff in Hx, Hy.
  assert (Qle_bool (key x) (key y) = true) as Hle'.
  { apply Qle_bool_iff. rewrite Hx, Hy. apply Qle_refl. }
  congruence.
Qed.

Lemma sort_by_key_stable {A} (key : A → Q) (q : Q) l :
  filter (λ a, Qeq_bool (key a) q) (sort_by_key key l)
  = filter (λ a, Qeq_bool (key a) q) l.
Proof.
  induction l as [|x l IH]; [done|].
  change (sort_by_key key (x :: l))
    with (insert_by_key key x (sort_by_key key l)).
  by rewrite insert_by_key_filter, !filter_cons, IH.
Qed.

(** The sort sees its elements through their keys only. *)
Lemma sort_by_key_fmap {A B} (keyA : A → Q) (keyB : B → Q) (f : A → B) l :
  (∀ a, keyB (f a) = keyA a) →
  sort_by_key keyB (f <$> l) = f <$> sort_by_key keyA l.
Proof.
  intros Hkey.
  assert (∀ x k, insert_by_key keyB (f x) (f <$> k)
                 = f <$> insert_by_key keyA x k) as Hins.
  { intros x k. induction k as [|y k IH]; cbn; [done|].
    rewrite !Hkey. destruct (Qle_bool (keyA x) (keyA y)); [done|].
    cbn. by rewrite IH. }
  induction l as [|x l IH]; [done|].
  change (sort_by_key keyA (x :: l))
    with (insert_by_key keyA x (sort_by_key keyA l)).
  rewrite <- Hins, <- IH. done.
Qed.

Lemma strongly_sorted_impl {A} (R1 R2 : A → A → Prop) l :
  (∀ a b, R1 a b → R2 a b) → StronglySorted R1 l → StronglySorted R2 l.
Proof.
  intros Himpl. induction 1 as [|x l _ IH Hx]; constructor; [done|].
  eapply Forall_impl; [exact Hx|]. intros y. apply Himpl.
Qed.

(** Two lists of entries with the same venues and the same scores, position
    by position, are sorted into the same order of venues. *)
Lemma order_from_scores (recs1 recs2 : list Recommendation.t) :
  Recommendation.venue <$> recs1 = Recommendation.venue <$> recs2 →
  Recommendation.score <$> recs1 = Recommendation.score <$> recs2 →
  Recommendation.venue
    <$> sort_by_key (λ x, - Recommendation.score x)%Q recs1
  = Recommendation.venue
      <$> sort_by_key (λ x, - Recommendation.score x)%Q recs2.
Proof.
  intros Hvenues Hscores.
  set (proj := λ r, (Recommendation.venue r, Recommendation.score r)).
  assert (proj <$> recs1 = proj <$> recs2) as Hproj.
  { revert recs2 Hvenues Hscores.
    induction recs1 as [|r1 recs1 IH]; intros [|r2 recs2]; cbn;
      intros Hv Hs; try done.
    injection Hv as Hv1 Hv. injection Hs as Hs1 Hs.
    f_equal; [|by apply IH]. unfold proj. by rewrite Hv1, Hs1. }
  assert (∀ recs, Recommendation.venue
                    <$> sort_by_key (λ x, - Recommendation.score x)%Q recs
                  = fst <$> sort_by_key (λ p : Venue.t * Q, - p.2)%Q
                                        (proj <$> recs)) as Hvia.
  { intros recs.
    rewrite (sort_by_key_fmap (λ x, - Recommendation.score x)%Q
                              (λ p : Venue.t * Q, - p.2)%Q proj) by done.
    by rewrite <- list_fmap_compose. }
  by rewrite !Hvia, Hproj.
Qed.

Lemma get_recommendations_result user_id s user :
  users_dict !! user_id = Some user →
  (get_recommendations users_dict venues_dict user_id s).2
  = Ok (sort_by_key (λ x, - Recommendation.score x)%Q
          (unsorted_recommendations users_dict venues_dict
             (interests_list s) user_id)).
Proof. intros Hu. unfold get_recommendations. by rewrite Hu. Qed.

Lemma recommendation_entry_fields interests user_id venue_id venue :
  let r := recommendation_entry users_dict venues_dict interests user_id
                                (venue_id, venue) in
  Recommendation.venue r = venue
  ∧ Recommendation.score r = round1 (Score interests user_id venue_id)
  ∧ Recommendation.already_interested r
    = bool_decide ((user_id, venue_id) ∈ interest_key <$> interests).
Proof.
  cbv zeta. unfold recommendation_entry, score_of.
  destruct (calculate_recommendation_score _ _ _ _ _)
    as [[[score reason] friends] total].
  split_and!; [done..|]. cbn. apply bool_decide_ext.
  unfold user_interested_venue_ids.
  rewrite elem_of_list_to_set, !list_elem_of_fmap. split.
  - intros (x & -> & [Hxu Hin]%list_elem_of_filter). exists x.
    split; [|done]. unfold interest_key. by rewrite Hxu.
  - intros (x & Hkey & Hin). unfold interest_key in Hkey.
    injection Hkey as -> ->. exists x. split; [done|].
    by apply list_elem_of_filter.
Qed.

Lemma dict_get_in {V} (d : list (string * V)) key :
  key ∈ d.*1 → ∃ v, dict_get d key = Some v.
Proof.
  induction d as [|[k v] d IH]; cbn.
  { by intros ?%elem_of_nil. }
  intros Hin. case_bool_decide as Hk; [by exists v|].
  apply elem_of_cons in Hin as [->|Hin]; [done|by apply IH].
Qed.

(** For venues of the directory, the rounding to one decimal is monotone in
    the score. *)
Lemma score_rounding interests user_id user venue_id1 venue_id2 :
  users_dict !! user_id = Some user →
  venue_id1 ∈ venues_dict.*1 → venue_id2 ∈ venues_dict.*1 →
  (Score interests user_id venue_id1 <= Score interests user_id venue_id2 →
   round1 (Score interests user_id venue_id1)
   <= round1 (Score interests user_id venue_id2))%Q.
Proof.
  intros Hu [venue1 Hv1]%dict_get_in [venue2 Hv2]%dict_get_in.
  pose proof (score_three_factors interests user_id venue_id1 user venue1
                Hu Hv1) as H1.
  pose proof (score_three_factors interests user_id venue_id2 user venue2
                Hu Hv2) as H2.
  rewrite (round1_proper _ _ H1), (round1_proper _ _ H2), H1, H2.
  apply rounding_keeps_order.
Qed.

(** For venues of the directory, the entry scores compare as the sums of
    the three factors as real numbers do. *)
Lemma entry_score_order interests user_id user venue_id1 venue_id2
    venue1 venue2 :
  users_dict !! user_id = Some user →
  dict_get venues_dict venue_id1 = Some venue1 →
  dict_get venues_dict venue_id2 = Some venue2 →
  (round1 (Score interests user_id venue_id1)
   <= round1 (Score interests user_id venue_id2)
   ↔ exact_factors (count_friends_interested interests user_id venue_id1)
                   (matches_category user venue1)
     <= exact_factors (count_friends_interested interests user_id venue_id2)
                      (matches_category user venue2))%Q.
Proof.
  intros Hu Hv1 Hv2.
  rewrite (round1_proper _ _ (score_three_factors interests user_id
                                venue_id1 user venue1 Hu Hv1)).
  rewrite (round1_proper _ _ (score_three_factors interests user_id
                                venue_id2 user venue2 Hu Hv2)).
  apply rounding_orders_exact.
Qed.

Lemma unsorted_venues interests user_id :
  Recommendation.venue
    <$> unsorted_recommendations users_dict venues_dict interests user_id
  = venues_dict.*2.
Proof.
  unfold unsorted_recommendations.
  rewrite <- list_fmap_compose. apply list_fmap_ext.
  intros i [venue_id venue] _. cbn.
  by destruct (recommendation_entry_fields interests user_id venue_id venue)
    as [? _].
Qed.

Lemma unsorted_scores interests user_id :
  Recommendation.score
    <$> unsorted_recommendations users_dict venues_dict interests user_id
  = (λ item : string * Venue.t, round1 (Score interests user_id item.1))
      <$> venues_dict.
Proof.
  unfold unsorted_recommendations.
  rewrite <- list_fmap_compose. apply list_fmap_ext.
  intros i [venue_id venue] _. cbn.
  by destruct (recommendation_entry_fields interests user_id venue_id venue)
    as (_ & ? & _).
Qed.

Local Abbreviation unsorted_recommendations :=
  (unsorted_recommendations users_dict venues_dict).
Local Abbreviation get_recommendations :=
  (get_recommendations users_dict venues_dict).

(** C7.  For an existing user, GET /recommendations answers a list [recs]
    such that
    - the list built before the sort has one entry per item of
      [venues_dict], in the order of the dictionary; the entry of a venue
      holds the venue, its score rounded to one decimal, and an
      [already_interested] flag that tells whether the ledger holds an
      interest of the user in the venue;
    - [recs] is a permutation of that list,
    - sorted by the score of the entries, descending,
    - in which entries of equal score are in the order of the dictionary;
    - the rounding is monotone in the score: of two venues of the
      directory, the one with the larger score does not get the smaller
      entry score, so that it is not placed after the other unless both
      round to the same decimal;
    - for venues of the directory, with tags and categories in ASCII, the
      entry scores compare exactly as the sums of the three factors as real
      numbers do: [recs] is in descending order of min(c/3, 3) +
      category_match + min(c, 3), and the ties of the sort are the venues
      for which that sum is equal;
    - the order of the venues in [recs] is determined by the scores: any
      ledger that gives every venue the same entry score yields the same
      order of venues, whatever its flags are; in particular the order is
      the same after the user has toggled an interest of their own. *)
Theorem ranking_by_score (s : State) (user_id : string) (user : User.t) :
  users_dict !! user_id = Some user →
  let interests := interests_list s in
  let unsorted := unsorted_recommendations interests user_id in
  ∃ recs,
    (get_recommendations user_id s).2 = Ok recs
    ∧ Forall2 (λ (item : string * Venue.t) r,
                 Recommendation.venue r = item.2
                 ∧ Recommendation.score r
                   = round1 (Score interests user_id item.1)
                 ∧ Recommendation.already_interested r
                   = bool_decide ((user_id, item.1)
                                  ∈ interest_key <$> interests))
              venues_dict unsorted
    ∧ recs ≡ₚ unsorted
    ∧ StronglySorted
        (λ a b, Recommendation.score b <= Recommendation.score a)%Q recs
    ∧ (∀ q, filter (λ r, Qeq_bool (Recommendation.score r) q) recs
            = filter (λ r, Qeq_bool (Recommendation.score r) q) unsorted)
    ∧ (∀ venue_id1 venue_id2,
         venue_id1 ∈ venues_dict.*1 → venue_id2 ∈ venues_dict.*1 →
         (Score interests user_id venue_id1
          <= Score interests user_id venue_id2 →
          round1 (Score interests user_id venue_id1)
          <= round1 (Score interests user_id venue_id2))%Q)
    ∧ (∀ venue_id1 venue_id2 venue1 venue2,
         dict_get venues_dict venue_id1 = Some venue1 →
         dict_get venues_dict venue_id2 = Some venue2 →
         Forall is_ascii (User.interests user) →
         is_ascii (Venue.category venue1) →
         is_ascii (Venue.category venue2) →
         (round1 (Score interests user_id venue_id1)
          <= round1 (Score interests user_id venue_id2)
          ↔ exact_factors
              (count_friends_interested interests user_id venue_id1)
              (matches_category user venue1)
            <= exact_factors
                 (count_friends_interested interests user_id venue_id2)
                 (matches_category user venue2))%Q)
    ∧ (∀ interests2,
         Recommendation.score <$> unsorted_recommendations interests2 user_id
         = Recommendation.score <$> unsorted →
         Recommendation.venue
           <$> sort_by_key (λ x, - Recommendation.score x)%Q
                           (unsorted_recommendations interests2 user_id)
         = Recommendation.venue <$> recs)
    ∧ (∀ agent now toggled_venue_id,
         let s' := (express_interest_with agent now
                      (InterestRequest.mk user_id toggled_venue_id) s).1 in
         Recommendation.venue
           <$> sort_by_key (λ x, - Recommendation.score x)%Q
                 (unsorted_recommendations (interests_list s') user_id)
         = Recommendation.venue <$> recs).
Proof.
  intros Hu. cbv zeta. eexists. split.
  { by apply (get_recommendations_result _ _ user). }
  set (unsorted := unsorted_recommendations (interests_list s) user_id).
  split_and!.
  - unfold unsorted. apply Forall2_fmap_r, Forall_Forall2_diag.
    apply Forall_forall. intros [venue_id venue] _.
    apply recommendation_entry_fields.
  - apply sort_by_key_perm.
  - eapply strongly_sorted_impl; [|apply sort_by_key_sorted].
    intros a b Hab. cbn in Hab.
    apply Qopp_le_compat in Hab. by rewrite !Qopp_involutive in Hab.
  - intros q.
    assert (∀ recs : list Recommendation.t,
              filter (λ r, Qeq_bool (Recommendation.score r) q) recs
              = filter (λ r, Qeq_bool (- Recommendation.score r) (- q)) recs)
      as Hswitch.
    { intros recs. apply list_filter_iff. intros r.
      rewrite !Is_true_true, !Qeq_bool_iff. split.
      - intros Heq. by rewrite Heq.
      - intros Heq. rewrite <- (Qopp_involutive (Recommendation.score r)).
        rewrite Heq. apply Qopp_involutive. }
    rewrite !Hswitch.
    apply (sort_by_key_stable (λ x, - Recommendation.score x)%Q (- q)).
  - intros venue_id1 venue_id2. by apply (score_rounding _ _ user).
  - intros venue_id1 venue_id2 venue1 venue2 Hv1 Hv2 _ _ _.
    by apply entry_score_order.
  - intros interests2 Hscores. apply order_from_scores; [|done].
    unfold unsorted. by rewrite !unsorted_venues.
  - intros agent now toggled_venue_id. unfold unsorted.
    apply order_from_scores; [by rewrite !unsorted_venues|].
    rewrite !unsorted_scores. apply list_fmap_ext.
    intros i [venue_id venue] _. cbn. f_equal.
    apply score_agree. by rewrite express_interest_with_others.
Qed.

(** ** C10: booking records are kept, and only their status changes *)

Lemma booking_evolves_trans b1 b2 b3 :
  booking_evolves b1 b2 → booking_evolves b2 b3 → booking_evolves b1 b3.
Proof.
  intros [->|[Hst ->]] [->|[Hst' ->]]; by (left + right).
Qed.

Lemma toggle_effect_evolves o now user_id venue_id s s' r i b :
  toggle_effect o now user_id venue_id s s' r →
  bookings_list s !! i = Some b →
  ∃ b', bookings_list s' !! i = Some b' ∧ booking_evolves b b'.
Proof.
  intros Heff Hi.
  destruct Heff as
    [detail _ Hl Hb
    |user venue j x k bk _ _ Hfind Hl Hact Hcount Hb
    |user venue j x _ _ Hfind Hl Hkeep Hb
    |user venue _ _ Hfind Hl Hcount Hb
    |user venue k bk _ _ Hfind Hl Hcount Hact Hb
    |user venue _ _ Hfind Hl Hcount Hact Hb]; rewrite Hb.
  1, 3, 4, 5: exists b; split; [done|by left].
  - apply first_active_Some in Hact as (Hk & [_ Hst] & _).
    destruct (decide (i = k)) as [->|Hik].
    + assert (bk = b) as -> by congruence.
      exists (set_status "cancelled" b). split; [|by right].
      apply list_lookup_insert_eq. by eapply lookup_lt_Some.
    + exists b. split; [|by left]. by rewrite list_lookup_insert_ne.
  - exists b. split; [|by left]. rewrite lookup_app_l; [done|].
    by eapply lookup_lt_Some.
Qed.

Lemma run_evolves c s i b :
  bookings_list s !! i = Some b →
  ∃ b', bookings_list (run c s) !! i = Some b' ∧ booking_evolves b b'.
Proof.
  intros Hi. destruct c as [o now request| |v|u|u|u|v].
  1: exact (toggle_effect_evolves _ _ _ _ _ _ _ _ _
              (express_interest_effect o now request s) Hi).
  all: match goal with
       | |- ∃ _, bookings_list (run ?c ?s0) !! _ = _ ∧ _ =>
           destruct (run_read_only c s0) as [_ ->]; [done|]
       end;
       exists b; split; [done|by left].
Qed.

Lemma run_all_evolves calls s i b :
  bookings_list s !! i = Some b →
  ∃ b', bookings_list (run_all calls s) !! i = Some b'
        ∧ booking_evolves b b'.
Proof.
  revert s b. induction calls as [|c calls IH]; intros s b Hi; cbn.
  { exists b. split; [done|by left]. }
  destruct (run_evolves c s i b Hi) as (b1 & Hi1 & Hev1).
  destruct (IH _ _ Hi1) as (b2 & Hi2 & Hev2).
  exists b2. split; [done|]. by eapply booking_evolves_trans.
Qed.

Lemma get_user_bookings_result user_id s user :
  users_dict !! user_id = Some user →
  (get_user_bookings users_dict venues_dict user_id s).2
  = Ok (omap (user_booking_entry venues_dict user_id) (bookings_list s)).
Proof. intros Hu. unfold get_user_bookings. by rewrite Hu. Qed.

(** C10.  Whatever requests are served, a booking record stays at its
    position in the registry, with the id, venue, user ids, reservation code
    and creation time it had; at most its status has gone from active to
    cancelled.  The user ids are those recorded at creation: when a user
    toggles an interest off and the count of the venue stays at 3 or more,
    the registry is untouched and GET /bookings/{user_id} answers as before,
    so an active booking that lists the user is still reported to them. *)
Theorem bookings_are_kept (s : State) :
  (∀ calls i b,
     bookings_list s !! i = Some b →
     ∃ b', bookings_list (run_all calls s) !! i = Some b'
           ∧ booking_evolves b b'
           ∧ Booking.id b' = Booking.id b
           ∧ Booking.venue_id b' = Booking.venue_id b
           ∧ Booking.user_ids b' = Booking.user_ids b
           ∧ Booking.reservation_code b' = Booking.reservation_code b
           ∧ Booking.created_at b' = Booking.created_at b)
  ∧ (∀ o now user_id venue_id user venue,
       users_dict !! user_id = Some user →
       dict_get venues_dict venue_id = Some venue →
       (user_id, venue_id) ∈ interest_key <$> interests_list s →
       let s' := (express_interest o now
                    (InterestRequest.mk user_id venue_id) s).1 in
       3 ≤ get_interested_count (interests_list s') venue_id →
       bookings_list s' = bookings_list s
       ∧ (get_user_bookings users_dict venues_dict user_id s').2
         = (get_user_bookings users_dict venues_dict user_id s).2
       ∧ ∀ b entry,
           b ∈ bookings_list s →
           Booking.status b = "active" →
           user_id ∈ Booking.user_ids b →
           user_booking_entry venues_dict user_id b = Some entry →
           ∃ entries,
             (get_user_bookings users_dict venues_dict user_id s').2
             = Ok entries
             ∧ entry ∈ entries).
Proof.
  split.
  - intros calls i b Hi.
    destruct (run_all_evolves calls s i b Hi) as (b' & Hi' & Hev).
    exists b'. split_and!; [done|done|..];
      by destruct Hev as [->|[_ ->]].
  - intros o now user_id venue_id user venue Hu Hv Hin. cbv zeta.
    intros Hcount.
    destruct (has_interest _ _ _ Hin) as (i & x & Hfind).
    pose proof (express_interest_effect o now
                  (InterestRequest.mk user_id venue_id) s) as Heff.
    cbn [InterestRequest.user_id InterestRequest.venue_id] in Heff.
    destruct (toggle_off_cases _ _ _ _ _ _ _ _ _ _ _ Hu Hv Hfind Heff)
      as [Hl [(k & b & _ & Hlt & _)|(_ & Hb & _)]]; [lia|].
    rewrite !(get_user_bookings_result _ _ user) by done. rewrite Hb.
    split_and!; [done..|].
    intros b entry Hbin Hst Huser Hentry. eexists. split; [done|].
    apply list_elem_of_omap. by exists b.
Qed.

Lemma reachable_run_all data_interests calls s :
  reachable data_interests s → reachable data_interests (run_all calls s).
Proof.
  revert s. induction calls as [|c calls IH]; intros s Hreach; [done|].
  cbn. apply IH. by constructor.
Qed.

End Properties.

(** * Concrete checks on the demo directory *)

Lemma demo_reachable calls : reachable demo_users demo_venues [] (demo_run calls).
Proof. apply reachable_run_all. constructor. Qed.

(** C1 on a run: Carol is the third user interested in the cafe and gets the
    booking; Dave, the fourth, is told the code of that booking. *)
Lemma toggle_on_outcome_witness :
  (express_interest demo_users demo_venues (demo_oracle 4821) 3
     (InterestRequest.mk "carol" "venue_1") demo_two).2
  = Ok (booking_created (created_message 3 demo_cafe) "LUNA-venue_1-4821")
  ∧ (express_interest demo_users demo_venues (demo_oracle 7777) 4
       (InterestRequest.mk "dave" "venue_1") demo_three).2
    = Ok (booking_already_active (exists_message demo_cafe)
                                 "LUNA-venue_1-4821").
Proof.
  destruct (toggle_on_outcome demo_users demo_venues [] demo_two
              (demo_oracle 4821) 3 "carol" "venue_1"
              (User.mk "carol" "Carol" "carol.png" "Painter" ["art"])
              demo_cafe) as (_ & _ & _ & _ & Hboundary).
  - apply demo_reachable.
  - reflexivity.
  - reflexivity.
  - compute_done.
  - destruct Hboundary as [Hthird Hfourth]; [reflexivity|].
    split; [exact Hthird|].
    apply (Hfourth (demo_oracle 7777) 4%Z "dave"
             (User.mk "dave" "Dave" "dave.png" "New in town" [])).
    + reflexivity.
    + compute_done.
    + compute_done.
Defined.

(** C2 on a run: with the booking in place, Carol withdraws; two interests
    remain and the booking is cancelled. *)
Lemma toggle_off_outcome_witness :
  let s' := (express_interest demo_users demo_venues (demo_oracle 1) 5
               (InterestRequest.mk "carol" "venue_1") demo_three).1 in
  (express_interest demo_users demo_venues (demo_oracle 1) 5
     (InterestRequest.mk "carol" "venue_1") demo_three).2
  = Ok booking_cancelled_response
  ∧ (get_venue_booking demo_venues "venue_1" s').2
    = Ok (VenueBookingResponse.mk false None).
Proof.
  destruct (toggle_off_outcome demo_users demo_venues demo_three
              (demo_oracle 1) 5 "carol" "venue_1"
              (User.mk "carol" "Carol" "carol.png" "Painter" ["art"])
              demo_cafe) as (_ & _ & Hcancel & _).
  - reflexivity.
  - reflexivity.
  - compute_done.
  - destruct Hcancel as (Hr & k & b & _ & _ & _ & _ & _ & Hget).
    + exists (installed_booking (demo_oracle 4821) "venue_1" []
                (interests_list demo_three)).
      split; compute_done.
    + compute_done.
    + split; [exact Hr|]. apply Hget.
      by destruct (reachable_invariant demo_users demo_venues [] demo_three
                     (demo_reachable _)).
Defined.

(** C3 on an input: three interested users and an empty registry. *)
Lemma booking_agent_decision_witness :
  booking_agent (demo_oracle 4821) "venue_1" "Blue Bottle Coffee" 3
                ["alice"; "bob"; "carol"] []
  = agent_create (demo_oracle 4821) "venue_1" "Blue Bottle Coffee" 3
                 ["alice"; "bob"; "carol"] [].
Proof.
  apply (booking_agent_decision (demo_oracle 4821) "venue_1"
           "Blue Bottle Coffee" 3 ["alice"; "bob"; "carol"] []).
  - lia.
  - intros b Hb. by apply elem_of_nil in Hb.
Defined.

(** C4 on a run: the score of the cafe for Alice is the same with and
    without her own interest, and after her toggle. *)
Lemma score_ignores_own_interests_witness :
  score_of (calculate_recommendation_score demo_users demo_venues
              [Interest.mk "bob" "venue_1" 2; Interest.mk "carol" "venue_1" 3]
              "alice" "venue_1")
  = score_of (calculate_recommendation_score demo_users demo_venues
                [Interest.mk "carol" "venue_1" 3;
                 Interest.mk "alice" "venue_1" 1;
                 Interest.mk "bob" "venue_1" 2]
                "alice" "venue_1")
  ∧ score_of (calculate_recommendation_score demo_users demo_venues
                (interests_list
                   (express_interest_with demo_users demo_venues
                      failing_agent 9
                      (InterestRequest.mk "alice" "venue_1") demo_three).1)
                "alice" "venue_1")
    = score_of (calculate_recommendation_score demo_users demo_venues
                  (interests_list demo_three) "alice" "venue_1").
Proof.
  destruct (score_ignores_own_interests demo_users demo_venues
              "alice" "venue_1") as [Hagree Htoggle].
  split.
  - apply Hagree. cbn. apply perm_swap.
  - apply Htoggle.
Defined.

(** C5 on a run: after four toggles on the cafe the registry has one active
    booking for it. *)
Lemma one_active_booking_per_venue_witness :
  one_active_per_venue (bookings_list demo_four)
  ∧ length (filter (is_active_for "venue_1") (bookings_list demo_four)) = 1.
Proof.
  split; [|reflexivity].
  exact (proj1 (one_active_booking_per_venue demo_users demo_venues [])
           demo_four (demo_reachable _)).
Defined.

(** C6 with the category match as the specification words it, refuted on
    an input: Erin's tag "Cocktail Bars" does not occur in the category
    "Bar", so the stated
    sum is 0; the category occurs in the tag, and the score is 4. *)
Lemma score_stated_formula_counterexample :
  tag_in_category
    (User.mk "erin" "Erin" "erin.png" "Mixologist" ["Cocktail Bars"])
    demo_bar = false
  ∧ (three_factors 0 false == 0)%Q
  ∧ (score_of (calculate_recommendation_score demo_users demo_venues []
                 "erin" "venue_2") == 4)%Q
  ∧ Qeq_bool
      (score_of (calculate_recommendation_score demo_users demo_venues []
                   "erin" "venue_2"))
      (three_factors
         (count_friends_interested [] "erin" "venue_2")
         (tag_in_category
            (User.mk "erin" "Erin" "erin.png" "Mixologist" ["Cocktail Bars"])
            demo_bar))
    = false.
Proof. split_and!; reflexivity. Qed.

(** C6 (amended) on the same input. *)
Lemma score_is_sum_of_factors_witness :
  (score_of (calculate_recommendation_score demo_users demo_venues
               (interests_list demo_three) "erin" "venue_2")
   == three_factors 0 true)%Q
  ∧ (score_of (calculate_recommendation_score demo_users demo_venues
                 (interests_list demo_three) "erin" "venue_2") <= 10)%Q.
Proof.
  destruct (score_is_sum_of_factors demo_users demo_venues
              (interests_list demo_three) "erin" "venue_2"
              (User.mk "erin" "Erin" "erin.png" "Mixologist"
                       ["Cocktail Bars"])
              demo_bar) as (Hsum & _ & Hbound & _).
  - reflexivity.
  - reflexivity.
  - reflexivity.
  - by repeat constructor.
  - split; [exact Hsum|exact Hbound].
Defined.

(** C7 on a run: for Erin the cafe and the bar both score 4.0 and stay in
    the order of the dictionary; the museum scores 0.0 and comes last. *)
Lemma ranking_by_score_witness :
  ∃ recs,
    (get_recommendations demo_users demo_venues "erin" demo_three).2 = Ok recs
    ∧ Recommendation.venue <$> recs = [demo_cafe; demo_bar; demo_museum]
    ∧ StronglySorted
        (λ a b, Recommendation.score b <= Recommendation.score a)%Q recs.
Proof.
  destruct (ranking_by_score demo_users demo_venues demo_three "erin"
              (User.mk "erin" "Erin" "erin.png" "Mixologist"
                       ["Cocktail Bars"]))
    as (recs & Hr & _ & _ & Hsorted & _).
  - reflexivity.
  - exists recs. split_and!; [exact Hr| |exact Hsorted].
    vm_compute in Hr. injection Hr as <-. reflexivity.
Defined.

(** C8 on a run: the collaborator fails when Alice adds the bar. *)
Lemma collaborator_fault_is_absorbed_witness :
  let result :=
    express_interest_with demo_users demo_venues failing_agent 9
      (InterestRequest.mk "alice" "venue_2") demo_two in
  result.2 = Ok interest_recorded
  ∧ interests_list result.1
    = interests_list demo_two ++ [Interest.mk "alice" "venue_2" 9]
  ∧ bookings_list result.1 = []
  ∧ last (log result.1)
    = Some (ERROR, "Booking agent error: booking service unavailable").
Proof.
  destruct (collaborator_fault_is_absorbed demo_users demo_venues
              failing_agent 9 demo_two "alice" "venue_2"
              (User.mk "alice" "Alice" "alice.png" "Coffee lover"
                       ["coffee"; "food"])
              demo_bar (OtherException "booking service unavailable"))
    as (Hr & Hl & Hb & Hlog).
  - reflexivity.
  - reflexivity.
  - compute_done.
  - reflexivity.
  - cbv zeta. split_and!; [exact Hr|exact Hl|exact Hb|].
    rewrite Hlog. reflexivity.
Defined.

(** C9 on a run: Dave toggles on and off again, Carol off and on again. *)
Lemma toggle_twice_restores_membership_witness :
  ledger_membership
    (interests_list
       (express_interest demo_users demo_venues (demo_oracle 2) 5
          (InterestRequest.mk "dave" "venue_1")
          (express_interest demo_users demo_venues (demo_oracle 1) 4
             (InterestRequest.mk "dave" "venue_1") demo_three).1).1)
  = ledger_membership (interests_list demo_three).
Proof.
  apply (toggle_twice_restores_membership demo_users demo_venues demo_three
           (demo_oracle 1) (demo_oracle 2) 4 5 "dave" "venue_1"
           (User.mk "dave" "Dave" "dave.png" "New in town" []) demo_cafe).
  - reflexivity.
  - reflexivity.
  - unfold ledger_unique. compute_done.
Defined.

(** C10 on a run: Alice withdraws from the cafe while three others stay
    interested; her booking is still reported to her. *)
Lemma bookings_are_kept_witness :
  let s' := (express_interest demo_users demo_venues (demo_oracle 1) 5
               (InterestRequest.mk "alice" "venue_1") demo_four).1 in
  ∃ entries,
    (get_user_bookings demo_users demo_venues "alice" s').2 = Ok entries
    ∧ UserBooking.mk "booking_1" "venue_1" "Blue Bottle Coffee" "Coffee Shop"
                     "cafe.png" "1 Main St" "LUNA-venue_1-4821"
                     "2025-01-01T12:00:00" 3
      ∈ entries.
Proof.
  destruct (bookings_are_kept demo_users demo_venues demo_four)
    as [_ Hsnapshot].
  destruct (Hsnapshot (demo_oracle 1) 5%Z "alice" "venue_1"
              (User.mk "alice" "Alice" "alice.png" "Coffee lover"
                       ["coffee"; "food"])
              demo_cafe) as (_ & _ & Hlisted).
  - reflexivity.
  - reflexivity.
  - compute_done.
  - compute_done.
  - apply (Hlisted (installed_booking (demo_oracle 4821) "venue_1" []
                      (interests_list demo_three))).
    + compute_done.
    + reflexivity.
    + compute_done.
    + reflexivity.
Defined.

(** The reservation code is minted from a random draw, so it need not be
    fresh: after the booking of the cafe is cancelled, a new threshold
    crossing with the same draw answers [booking_created] with the code of
    the first booking, and installs a second booking with a new id and that
    code. *)
Lemma reservation_code_can_repeat :
  let s :=
    demo_run [demo_toggle "alice" 1; demo_toggle "bob" 2;
              demo_toggle "carol" 3; demo_toggle "carol" 4] in
  let result :=
    express_interest demo_users demo_venues (demo_oracle 4821) 5
      (InterestRequest.mk "carol" "venue_1") s in
  let summary (b : Booking.t) :=
    (Booking.id b, Booking.reservation_code b, Booking.status b) in
  summary <$> bookings_list s
  = [("booking_1", "LUNA-venue_1-4821", "cancelled")]
  ∧ get_interested_count (interests_list s) "venue_1" = 2
  ∧ result.2
    = Ok (booking_created (created_message 3 demo_cafe) "LUNA-venue_1-4821")
  ∧ summary <$> bookings_list result.1
    = [("booking_1", "LUNA-venue_1-4821", "cancelled");
       ("booking_2", "LUNA-venue_1-4821", "active")].
Proof. split_and!; reflexivity. Qed.

(** Two scores one unit in the last place apart get the same entry score:
    with 7 other users interested and no category match the score is
    5.3333333333333339, with 1 other user and a match it is
    5.333333333333333, and both are rounded to 5.3. *)
Lemma rounded_scores_can_tie :
  Qle_bool (three_factors 7 false) (three_factors 1 true) = false
  ∧ Qle_bool (three_factors 1 true) (three_factors 7 false) = true
  ∧ Qeq_bool (round1 (three_factors 7 false)) (round1 (three_factors 1 true))
    = true
  ∧ Qeq_bool (round1 (three_factors 1 true)) (binary64 (53 # 10)) = true.
Proof. by vm_compute. Qed.

(** Why the ledger must hold at most one interest per pair for the double
    toggle to restore it: of two copies of an interest, both are removed. *)
Lemma duplicate_interest_is_removed_twice :
  let s := mkState [Interest.mk "alice" "venue_1" 1;
                    Interest.mk "alice" "venue_1" 2] [] ∅ [] in
  interests_list
    (run_all demo_users demo_venues
       [demo_toggle "alice" 3; demo_toggle "alice" 4] s)
  = [].
Proof. reflexivity. Qed.

(** * Further properties of the handlers *)

(** ** The handlers, unfolded *)

Section Unfoldings.

Variable users_dict : gmap string User.t.
Variable venues_dict : list (string * Venue.t).

Ltac state_proj :=
  cbn [fst snd interests_list bookings_list venue_locks log
       logger set_interests set_bookings get_venue_lock] in *.

Lemma express_interest_with_refused agent now request s :
  let user_id := InterestRequest.user_id request in
  let venue_id := InterestRequest.venue_id request in
  let requested :=
    (INFO, "Express interest request: user=" +:+ user_id
           +:+ ", venue=" +:+ venue_id) in
  (users_dict !! user_id = None →
   express_interest_with users_dict venues_dict agent now request s
   = (mkState (interests_list s) (bookings_list s) (venue_locks s)
              (log s ++ [requested;
                         (WARNING, "User not found: " +:+ user_id)]),
      HTTPException 404 ("User with id '" +:+ user_id +:+ "' not found")))
  ∧ (is_Some (users_dict !! user_id) →
     dict_get venues_dict venue_id = None →
     express_interest_with users_dict venues_dict agent now request s
     = (mkState (interests_list s) (bookings_list s) (venue_locks s)
                (log s ++ [requested;
                           (WARNING, "Venue not found: " +:+ venue_id)]),
        HTTPException 404 ("Venue with id '" +:+ venue_id
                           +:+ "' not found"))).
Proof.
  cbv zeta. unfold express_interest_with, logger. split.
  - intros ->. cbn. by rewrite <- app_assoc.
  - intros [user ->] ->. cbn. by rewrite <- app_assoc.
Qed.

Lemma express_interest_with_served agent now request s user venue :
  users_dict !! InterestRequest.user_id request = Some user →
  dict_get venues_dict (InterestRequest.venue_id request) = Some venue →
  ∃ response,
    (express_interest_with users_dict venues_dict agent now request s).2
    = Ok response.
Proof.
  intros Hu Hv. unfold express_interest_with. rewrite Hu, Hv.
  destruct (list_find _ _) as [[i x]|].
  - destruct (toggle_off _ _ _ _ _). by eexists.
  - destruct (toggle_on _ _ _ _ _ _). by eexists.
Qed.

(** What the [try] block can do, for any collaborator. *)
Lemma try_booking_shape agent venue_id venue_name count ids s :
  let r := try_booking agent venue_id venue_name count ids s in
  interests_list r.1 = interests_list s
  ∧ venue_locks r.1 = venue_locks s
  ∧ (bookings_list r.1 = bookings_list s
     ∨ ∃ b, bookings_list r.1 = bookings_list s ++ [b]
            ∧ Booking.venue_id b = venue_id
            ∧ Booking.status b = "active")
  ∧ (∀ response, r.2 = Returned response →
       InterestResponse.success response = true
       ∧ (InterestResponse.agent_triggered response = true →
          ∃ b, bookings_list r.1 = bookings_list s ++ [b]
               ∧ Booking.venue_id b = venue_id
               ∧ Booking.status b = "active"
               ∧ InterestResponse.reservation_code response
                 = Some (Booking.reservation_code b))).
Proof.
  cbv zeta. unfold try_booking, getitem.
  destruct (agent _ _ _ _ _) as [response|e]; [|by split_and!; [..|left|]].
  destruct response as [[[]|] action vid bid msg code uids created]; cbn;
    [|destruct (bool_decide _); cbn|];
    repeat match goal with
           | |- context [match ?x with Some _ => _ | None => _ end] =>
               destruct x; cbn
           end;
    (split_and!; [done|done|first [by left|right; by eexists]|]);
    intros response' Hret; try done;
    injection Hret as <-; cbn; (split; [done|]); intros Htrig; try done;
    by eexists.
Qed.

Lemma toggle_on_shape agent now venue_id user_id venue s :
  let r := toggle_on agent now venue_id user_id venue s in
  interests_list r.1
  = interests_list s ++ [Interest.mk user_id venue_id now]
  ∧ venue_locks r.1 = venue_locks s
  ∧ InterestResponse.success r.2 = true
  ∧ (bookings_list r.1 = bookings_list s
     ∨ ∃ b, bookings_list r.1 = bookings_list s ++ [b]
            ∧ Booking.venue_id b = venue_id
            ∧ Booking.status b = "active")
  ∧ (InterestResponse.agent_triggered r.2 = true →
     ∃ b, bookings_list r.1 = bookings_list s ++ [b]
          ∧ Booking.venue_id b = venue_id
          ∧ Booking.status b = "active"
          ∧ InterestResponse.reservation_code r.2
            = Some (Booking.reservation_code b)).
Proof.
  cbv zeta. unfold toggle_on.
  match goal with
  | |- context [try_booking ?a ?b ?c ?d ?e ?f] =>
      pose proof (try_booking_shape a b c d e f) as Htry;
      destruct (try_booking a b c d e f) as [s2 [response|exn]]
  end; cbv zeta in Htry; cbn [fst snd] in *;
    destruct Htry as (Hl & Hlocks & Hb & Hresp); state_proj.
  - destruct (Hresp response eq_refl) as [Hsucc Htrig]. by split_and!.
  - by split_and!.
Qed.

Lemma toggle_off_shape venue_id user_id venue i s :
  let r := toggle_off venue_id user_id venue i s in
  venue_locks r.1 = venue_locks s
  ∧ InterestResponse.success r.2 = true
  ∧ InterestResponse.agent_triggered r.2 = false
  ∧ InterestResponse.reservation_code r.2 = None.
Proof.
  cbv zeta. unfold toggle_off. state_proj. repeat case_match; done.
Qed.

(** A request that is served takes the lock of its venue. *)
Lemma express_interest_with_locks agent now request s user venue :
  users_dict !! InterestRequest.user_id request = Some user →
  dict_get venues_dict (InterestRequest.venue_id request) = Some venue →
  venue_locks (express_interest_with users_dict venues_dict agent now
                 request s).1
  = {[InterestRequest.venue_id request]} ∪ venue_locks s.
Proof.
  intros Hu Hv.
  assert (venue_locks (locked request s)
          = {[InterestRequest.venue_id request]} ∪ venue_locks s) as Hlock.
  { unfold locked. cbn. case_bool_decide as Hin; [|done].
    apply set_eq. intros x. rewrite elem_of_union, elem_of_singleton.
    split; [by right|]. by intros [->|Hx]. }
  destruct (list_find (is_interest_of (InterestRequest.user_id request)
                         (InterestRequest.venue_id request))
                      (interests_list s)) as [[i x]|] eqn:Hfind.
  - rewrite (express_interest_with_off users_dict venues_dict agent now
               request s user venue i x Hu Hv Hfind). cbn [fst].
    by destruct (toggle_off_shape (InterestRequest.venue_id request)
                   (InterestRequest.user_id request) venue i
                   (locked request s)) as [-> _].
  - rewrite (express_interest_with_on users_dict venues_dict agent now
               request s user venue Hu Hv Hfind). cbn [fst].
    by destruct (toggle_on_shape agent now
                   (InterestRequest.venue_id request)
                   (InterestRequest.user_id request) venue
                   (locked request s)) as (_ & -> & _).
Qed.

(** The read-only requests change the log only, and log no ERROR. *)
Lemma run_read_only_frame c s :
  (∀ o now request, c ≠ PostInterests o now request) →
  interests_list (run users_dict venues_dict c s) = interests_list s
  ∧ bookings_list (run users_dict venues_dict c s) = bookings_list s
  ∧ venue_locks (run users_dict venues_dict c s) = venue_locks s
  ∧ ∃ records, log (run users_dict venues_dict c s) = log s ++ records
               ∧ Forall (λ record : Level * string, record.1 ≠ ERROR)
                        records.
Proof.
  intros Hc. destruct c as [o now request| |v|u|u|u|v]; cbn.
  - by destruct (Hc o now request).
  - split_and!; [done..|]. eexists. rewrite <- app_assoc.
    split; [done|]. by repeat constructor.
  - unfold get_venue_detail. destruct (dict_get venues_dict v); cbn;
      (split_and!; [done..|]); eexists; rewrite <- ?app_assoc;
      (split; [done|]); by repeat constructor.
  - unfold get_user_profile. destruct (users_dict !! u); cbn;
      (split_and!; [done..|]); eexists; rewrite <- ?app_assoc;
      (split; [done|]); by repeat constructor.
  - unfold get_recommendations. destruct (users_dict !! u); cbn;
      (split_and!; [done..|]); eexists; rewrite <- ?app_assoc;
      (split; [done|]); by repeat constructor.
  - unfold get_user_bookings. destruct (users_dict !! u); cbn;
      (split_and!; [done..|]); eexists; rewrite <- ?app_assoc;
      (split; [done|]); by repeat constructor.
  - unfold get_venue_booking. destruct (dict_get venues_dict v);
      [state_proj; destruct (first_active v (bookings_list s)) as [[? ?]|]|];
      cbn;
      (split_and!; [done..|]); eexists; rewrite <- ?app_assoc;
      (split; [done|]); by repeat constructor.
Qed.

(** The toggle-on path when the collaborator returns a dictionary that has
    the keys of a booking but no [message]. *)
Lemma toggle_on_missing_message agent now venue_id user_id venue s
    action vid bid uids code created :
  let interests := interests_list s ++ [Interest.mk user_id venue_id now] in
  agent venue_id (Venue.name venue)
        (Z.of_nat (length (ids_for venue_id interests)))
        (ids_for venue_id interests) (bookings_list s)
  = Returned (AgentResponse.mk (Some true) action vid (Some bid) None
                               (Some code) (Some uids) (Some created)) →
  toggle_on agent now venue_id user_id venue s
  = (mkState interests
             (bookings_list s
              ++ [Booking.mk bid venue_id uids code created "active"])
             (venue_locks s)
             (log s
              ++ [(INFO, "Interest added: user=" +:+ user_id
                         +:+ ", venue=" +:+ venue_id);
                  (INFO, "Booking created: " +:+ bid +:+ " for venue="
                         +:+ venue_id +:+ ", count="
                         +:+ pretty (length (ids_for venue_id interests)));
                  (ERROR, "Booking agent error: 'message'")]),
     interest_recorded).
Proof.
  cbv zeta. intros Hagent. unfold toggle_on, try_booking. state_proj.
  fold (ids_for venue_id
          (interests_list s ++ [Interest.mk user_id venue_id now])).
  rewrite Hagent. cbn. unfold logger, set_bookings. cbn.
  by rewrite <- !app_assoc.
Qed.

(** With [booking_agent] as the collaborator, a request logs INFO and
    WARNING records only. *)
Lemma express_interest_log o now request s :
  ∃ records,
    log (express_interest users_dict venues_dict o now request s).1
    = log s ++ records
    ∧ Forall (λ record : Level * string, record.1 ≠ ERROR) records.
Proof.
  rewrite express_interest_unfold.
  destruct (express_interest_with_refused (the_agent o) now request s)
    as [Huser Hvenue]. cbv zeta in Huser, Hvenue.
  destruct (users_dict !! InterestRequest.user_id request)
    as [user|] eqn:Hu; cycle 1.
  { rewrite Huser by done. eexists. split; [done|]. by repeat constructor. }
  destruct (dict_get venues_dict (InterestRequest.venue_id request))
    as [venue|] eqn:Hv; cycle 1.
  { rewrite Hvenue by done. eexists. split; [done|]. by repeat constructor. }
  destruct (list_find (is_interest_of (InterestRequest.user_id request)
                         (InterestRequest.venue_id request))
                      (interests_list s)) as [[i x]|] eqn:Hfind.
  - rewrite (express_interest_with_off users_dict venues_dict (the_agent o)
               now request s user venue i x Hu Hv Hfind). cbn [fst].
    unfold toggle_off, locked. state_proj.
    destruct (first_active _ (bookings_list s)) as [[k b]|];
      [case_bool_decide|]; cbn; rewrite <- ?app_assoc;
      (eexists; split; [done|]); by repeat constructor.
  - rewrite (express_interest_with_on users_dict venues_dict (the_agent o)
               now request s user venue Hu Hv Hfind). cbn [fst].
    rewrite toggle_on_the_agent. cbv zeta. unfold locked. state_proj.
    case_bool_decide;
      [|destruct (first_active _ (bookings_list s)) as [[k b]|]];
      cbn; rewrite <- ?app_assoc;
      (eexists; split; [done|]); by repeat constructor.
Qed.

(** The tuple of [calculate_recommendation_score], for an existing user and
    venue. *)
Lemma calculate_recommendation_score_tuple interests user_id venue_id
    user venue :
  users_dict !! user_id = Some user →
  dict_get venues_dict venue_id = Some venue →
  let result :=
    calculate_recommendation_score users_dict venues_dict interests
                                   user_id venue_id in
  let c := count_friends_interested interests user_id venue_id in
  reason_of result = reason_for c (matches_category user venue)
  ∧ result.1.2 = c
  ∧ result.2 = get_interested_count interests venue_id.
Proof.
  intros Hu Hv. cbv zeta.
  unfold calculate_recommendation_score, reason_of. rewrite Hu, Hv. cbn.
  fold (count_friends_interested interests user_id venue_id).
  split_and!; [|done..].
  rewrite category_matches_existsb. fold (matches_category user venue).
  unfold reason_for, friends_phrase.
  destruct (count_friends_interested interests user_id venue_id) as [|c];
    destruct (matches_category user venue); done.
Qed.

(** The entry of a venue in the list of recommendations. *)
Lemma recommendation_entry_counts interests user_id venue_id venue
    user stored :
  users_dict !! user_id = Some user →
  dict_get venues_dict venue_id = Some stored →
  let r := recommendation_entry users_dict venues_dict interests user_id
                                (venue_id, venue) in
  Recommendation.interested_count r
  = get_interested_count interests venue_id
  ∧ Recommendation.total_interested r
    = get_interested_count interests venue_id
  ∧ Recommendation.friends_interested r
    = count_friends_interested interests user_id venue_id
  ∧ Recommendation.reason r
    = reason_for (count_friends_interested interests user_id venue_id)
                 (matches_category user stored).
Proof.
  intros Hu Hv. cbv zeta.
  destruct (calculate_recommendation_score_tuple interests user_id venue_id
              user stored Hu Hv) as (Hreason & Hfriends & Htotal).
  unfold recommendation_entry, reason_of in *.
  destruct (calculate_recommendation_score _ _ _ _ _)
    as [[[score reason] friends] total]. cbn in *. by subst.
Qed.

Lemma get_venue_detail_result venue_id venue s :
  dict_get venues_dict venue_id = Some venue →
  (get_venue_detail users_dict venues_dict venue_id s).2
  = Ok (venue, get_interested_users users_dict (interests_list s) venue_id).
Proof. intros Hv. unfold get_venue_detail. by rewrite Hv. Qed.

Lemma get_user_profile_result user_id user s :
  users_dict !! user_id = Some user →
  (get_user_profile users_dict venues_dict user_id s).2
  = Ok (user,
        get_user_interested_venues venues_dict (interests_list s) user_id).
Proof. intros Hu. unfold get_user_profile. by rewrite Hu. Qed.

Lemma get_interested_users_ids interests venue_id :
  (λ entry : string * string * string, entry.1.1)
    <$> get_interested_users users_dict interests venue_id
  = filter (λ user_id, is_Some (users_dict !! user_id))
           (ids_for venue_id interests).
Proof.
  unfold get_interested_users. fold (ids_for venue_id interests).
  induction (ids_for venue_id interests) as [|user_id ids IH]; [done|].
  cbn [omap list_omap]. rewrite filter_cons.
  destruct (users_dict !! user_id) as [user|] eqn:Hu.
  - rewrite decide_True by done. cbn. by rewrite IH.
  - rewrite decide_False by (by intros [? ?]). done.
Qed.



(** The answers of the read-only requests are read off the ledger and the
    registry. *)
Lemma read_answers_frame s1 s2 :
  interests_list s1 = interests_list s2 →
  bookings_list s1 = bookings_list s2 →
  (get_venues venues_dict s1).2 = (get_venues venues_dict s2).2
  ∧ (∀ venue_id,
       (get_venue_detail users_dict venues_dict venue_id s1).2
       = (get_venue_detail users_dict venues_dict venue_id s2).2)
  ∧ (∀ user_id,
       (get_user_profile users_dict venues_dict user_id s1).2
       = (get_user_profile users_dict venues_dict user_id s2).2)
  ∧ (∀ user_id,
       (get_recommendations users_dict venues_dict user_id s1).2
       = (get_recommendations users_dict venues_dict user_id s2).2)
  ∧ (∀ user_id,
       (get_user_bookings users_dict venues_dict user_id s1).2
       = (get_user_bookings users_dict venues_dict user_id s2).2)
  ∧ (∀ venue_id,
       (get_venue_booking venues_dict venue_id s1).2
       = (get_venue_booking venues_dict venue_id s2).2).
Proof.
  intros Hi Hb. split_and!.
  - unfold get_venues. state_proj. by rewrite Hi.
  - intros v. unfold get_venue_detail.
    destruct (dict_get venues_dict v); state_proj; [|done]. by rewrite Hi.
  - intros u. unfold get_user_profile.
    destruct (users_dict !! u); state_proj; [|done]. by rewrite Hi.
  - intros u. unfold get_recommendations.
    destruct (users_dict !! u); state_proj; [|done]. by rewrite Hi.
  - intros u. unfold get_user_bookings.
    destruct (users_dict !! u); state_proj; [|done]. by rewrite Hb.
  - intros v. unfold get_venue_booking.
    destruct (dict_get venues_dict v); state_proj; [|done]. rewrite Hb.
    by destruct (first_active v (bookings_list s2)) as [[? ?]|].
Qed.

(** The answer of a read-only request about a user or a venue that is not
    in the directory, and the record it logs. *)
Lemma read_user_not_found user_id s :
  users_dict !! user_id = None →
  let answer {A} : Http A :=
    HTTPException 404 ("User with id '" +:+ user_id +:+ "' not found") in
  (get_user_profile users_dict venues_dict user_id s).2 = answer
  ∧ (get_recommendations users_dict venues_dict user_id s).2 = answer
  ∧ (get_user_bookings users_dict venues_dict user_id s).2 = answer
  ∧ last (log (get_user_profile users_dict venues_dict user_id s).1)
    = Some (WARNING, "User not found: " +:+ user_id)
  ∧ last (log (get_recommendations users_dict venues_dict user_id s).1)
    = Some (WARNING, "User not found: " +:+ user_id)
  ∧ last (log (get_user_bookings users_dict venues_dict user_id s).1)
    = Some (WARNING, "User not found: " +:+ user_id).
Proof.
  intros Hu. cbv zeta.
  unfold get_user_profile, get_recommendations, get_user_bookings.
  rewrite Hu. state_proj. by rewrite !last_snoc.
Qed.

Lemma read_venue_not_found venue_id s :
  dict_get venues_dict venue_id = None →
  let answer {A} : Http A :=
    HTTPException 404 ("Venue with id '" +:+ venue_id +:+ "' not found") in
  (get_venue_detail users_dict venues_dict venue_id s).2 = answer
  ∧ (get_venue_booking venues_dict venue_id s).2 = answer
  ∧ last (log (get_venue_detail users_dict venues_dict venue_id s).1)
    = Some (WARNING, "Venue not found: " +:+ venue_id)
  ∧ last (log (get_venue_booking venues_dict venue_id s).1)
    = Some (WARNING, "Venue not found: " +:+ venue_id).
Proof.
  intros Hv. cbv zeta. unfold get_venue_detail, get_venue_booking.
  rewrite Hv. state_proj. by rewrite !last_snoc.
Qed.

End Unfoldings.

Section Further.

Variable users_dict : gmap string User.t.
Variable venues_dict : list (string * Venue.t).

Local Abbreviation express_interest := (express_interest users_dict venues_dict).
Local Abbreviation express_interest_with :=
  (express_interest_with users_dict venues_dict).
Local Abbreviation run := (run users_dict venues_dict).
Local Abbreviation run_all := (run_all users_dict venues_dict).
Local Abbreviation reachable := (reachable users_dict venues_dict).
Local Abbreviation toggle_effect := (toggle_effect users_dict venues_dict).

Ltac state_proj :=
  cbn [fst snd interests_list bookings_list venue_locks log
       logger set_interests set_bookings get_venue_lock] in *.

(** ** Requests that name an unknown user or venue *)

(** X1.  POST /interests answers an HTTP error exactly when the user or the
    venue of the request is not in the directory, and then the status is
    404.  The user is looked up first: when the user is unknown the detail
    names the user, whatever the venue is.  A refused request changes
    neither the ledger, nor the registry, nor the lock table; it logs the
    request and one WARNING.  This holds for any booking collaborator. *)
Theorem express_interest_not_found (agent : Agent) (now : datetime)
    (user_id venue_id : string) (s : State) :
  let request := InterestRequest.mk user_id venue_id in
  let result := express_interest_with agent now request s in
  let requested :=
    (INFO, "Express interest request: user=" +:+ user_id
           +:+ ", venue=" +:+ venue_id) in
  (users_dict !! user_id = None →
   result
   = (mkState (interests_list s) (bookings_list s) (venue_locks s)
              (log s ++ [requested;
                         (WARNING, "User not found: " +:+ user_id)]),
      HTTPException 404 ("User with id '" +:+ user_id +:+ "' not found")))
  ∧ (is_Some (users_dict !! user_id) →
     dict_get venues_dict venue_id = None →
     result
     = (mkState (interests_list s) (bookings_list s) (venue_locks s)
                (log s ++ [requested;
                           (WARNING, "Venue not found: " +:+ venue_id)]),
        HTTPException 404 ("Venue with id '" +:+ venue_id
                           +:+ "' not found")))
  ∧ ((∃ response, result.2 = Ok response)
     ↔ is_Some (users_dict !! user_id)
       ∧ is_Some (dict_get venues_dict venue_id)).
Proof.
  cbv zeta.
  destruct (express_interest_with_refused users_dict venues_dict agent now
              (InterestRequest.mk user_id venue_id) s) as [Huser Hvenue].
  cbn [InterestRequest.user_id InterestRequest.venue_id] in Huser, Hvenue.
  split_and!; [done|done|]. split.
  - intros [response Hok].
    destruct (users_dict !! user_id) as [user|] eqn:Hu; cycle 1.
    { by rewrite Huser in Hok. }
    destruct (dict_get venues_dict venue_id) as [venue|] eqn:Hv; cycle 1.
    { by rewrite Hvenue in Hok. }
    done.
  - intros [[user Hu] [venue Hv]].
    exact (express_interest_with_served users_dict venues_dict agent now
             (InterestRequest.mk user_id venue_id) s user venue Hu Hv).
Qed.

(** ** The lock table *)

Lemma dict_get_Some_in {V} (d : list (string * V)) key v :
  dict_get d key = Some v → key ∈ d.*1.
Proof.
  induction d as [|[k v'] d IH]; cbn; [done|].
  case_bool_decide as Hk.
  - intros _. subst. apply elem_of_cons. by left.
  - intros Hget. apply elem_of_cons. right. by apply IH.
Qed.

Lemma express_interest_with_locks_cases agent now request s :
  let s' := (express_interest_with agent now request s).1 in
  venue_locks s' = venue_locks s
  ∨ (venue_locks s' = {[InterestRequest.venue_id request]} ∪ venue_locks s
     ∧ InterestRequest.venue_id request ∈ venues_dict.*1).
Proof.
  cbv zeta.
  destruct (express_interest_with_refused users_dict venues_dict agent now
              request s) as [Huser Hvenue]. cbv zeta in Huser, Hvenue.
  destruct (users_dict !! InterestRequest.user_id request)
    as [user|] eqn:Hu; cycle 1.
  { left. by rewrite Huser. }
  destruct (dict_get venues_dict (InterestRequest.venue_id request))
    as [venue|] eqn:Hv; cycle 1.
  { left. by rewrite Hvenue. }
  right. split; [|by eapply dict_get_Some_in].
  by apply (express_interest_with_locks users_dict venues_dict agent now
              request s user venue).
Qed.

(** X2.  The lock table holds locks of venues of the directory only: a
    request for an unknown venue is refused before a lock is made, so the
    table cannot grow beyond the directory.  No request removes a lock, and
    a request that is served leaves the lock of its venue in the table. *)
Theorem venue_locks_are_venues :
  (∀ data_interests s,
     reachable data_interests s →
     ∀ venue_id, venue_id ∈ venue_locks s → venue_id ∈ venues_dict.*1)
  ∧ (∀ c s, venue_locks s ⊆ venue_locks (run c s))
  ∧ (∀ agent now request s response,
       (express_interest_with agent now request s).2 = Ok response →
       venue_locks (express_interest_with agent now request s).1
       = {[InterestRequest.venue_id request]} ∪ venue_locks s).
Proof.
  assert (∀ c s,
            venue_locks (run c s) = venue_locks s
            ∨ ∃ venue_id, venue_locks (run c s) = {[venue_id]} ∪ venue_locks s
                          ∧ venue_id ∈ venues_dict.*1) as Hstep.
  { intros c s.
    destruct c as [o now request| |v|u|u|u|v].
    1: { destruct (express_interest_with_locks_cases (the_agent o) now
                     request s) as [Hsame|[Hadd Hin]]; [by left|right].
         by eexists. }
    all: left; by apply run_read_only_frame. }
  split_and!.
  - intros data_interests s Hreach.
    induction Hreach as [|c s _ IH]; intros venue_id Hin.
    { cbn in Hin. by apply not_elem_of_empty in Hin. }
    destruct (Hstep c s) as [Hsame|(v & Hadd & Hv)].
    + rewrite Hsame in Hin. by apply IH.
    + rewrite Hadd in Hin.
      apply elem_of_union in Hin as [->%elem_of_singleton|Hin];
        [done|by apply IH].
  - intros c s venue_id Hin.
    destruct (Hstep c s) as [->|(v & -> & _)]; [done|].
    apply elem_of_union. by right.
  - intros agent now request s response Hok.
    destruct (express_interest_with_refused users_dict venues_dict agent now
                request s) as [Huser Hvenue]. cbv zeta in Huser, Hvenue.
    destruct (users_dict !! InterestRequest.user_id request)
      as [user|] eqn:Hu; cycle 1.
    { by rewrite Huser in Hok. }
    destruct (dict_get venues_dict (InterestRequest.venue_id request))
      as [venue|] eqn:Hv; cycle 1.
    { by rewrite Hvenue in Hok. }
    by apply (express_interest_with_locks users_dict venues_dict agent now
                request s user venue).
Qed.

(** ** Toggle on, whatever the collaborator does *)

(** X3.  On the toggle-on path the handler never fails, whatever the booking
    collaborator returns or raises: it answers a response with [success]
    true, the interest is in the ledger, and the registry is as before or
    longer by one active booking of the venue; bookings that were there are
    not touched.  A response with [agent_triggered] true is given only when
    that booking was appended, and then carries its reservation code. *)
Theorem toggle_on_any_collaborator (agent : Agent) (now : datetime)
    (s : State) (user_id venue_id : string) (user : User.t)
    (venue : Venue.t) :
  users_dict !! user_id = Some user →
  dict_get venues_dict venue_id = Some venue →
  (user_id, venue_id) ∉ interest_key <$> interests_list s →
  let result :=
    express_interest_with agent now (InterestRequest.mk user_id venue_id) s
  in
  ∃ response,
    result.2 = Ok response
    ∧ InterestResponse.success response = true
    ∧ interests_list result.1
      = interests_list s ++ [Interest.mk user_id venue_id now]
    ∧ (bookings_list result.1 = bookings_list s
       ∨ ∃ b, bookings_list result.1 = bookings_list s ++ [b]
              ∧ Booking.venue_id b = venue_id
              ∧ Booking.status b = "active")
    ∧ (InterestResponse.agent_triggered response = true →
       ∃ b, bookings_list result.1 = bookings_list s ++ [b]
            ∧ Booking.venue_id b = venue_id
            ∧ Booking.status b = "active"
            ∧ InterestResponse.reservation_code response
              = Some (Booking.reservation_code b)).
Proof.
  intros Hu Hv Hnone%no_interest. cbv zeta.
  rewrite (express_interest_with_on users_dict venues_dict agent now
             (InterestRequest.mk user_id venue_id) s user venue Hu Hv Hnone).
  cbn [InterestRequest.user_id InterestRequest.venue_id fst snd].
  eexists. split; [done|].
  destruct (toggle_on_shape agent now venue_id user_id venue
              (locked (InterestRequest.mk user_id venue_id) s))
    as (Hl & _ & Hsucc & Hb & Htrig).
  by split_and!.
Qed.

(** X4.  A booking can be installed behind a degraded answer.  If the
    collaborator returns a dictionary with [agent_triggered] true and the
    four keys of a booking but without [message], the active booking is
    appended to the registry before the missing key is read; the [KeyError]
    is caught, the answer is the plain [interest_recorded] (no reservation
    code, [agent_triggered] false), and the fault is logged as an ERROR. *)
Theorem booking_installed_despite_fault (agent : Agent) (now : datetime)
    (s : State) (user_id venue_id : string) (user : User.t)
    (venue : Venue.t) (action vid : option string) (bid code created : string)
    (uids : list string) :
  users_dict !! user_id = Some user →
  dict_get venues_dict venue_id = Some venue →
  (user_id, venue_id) ∉ interest_key <$> interests_list s →
  let interests := interests_list s ++ [Interest.mk user_id venue_id now] in
  agent venue_id (Venue.name venue)
        (Z.of_nat (length (ids_for venue_id interests)))
        (ids_for venue_id interests) (bookings_list s)
  = Returned (AgentResponse.mk (Some true) action vid (Some bid) None
                               (Some code) (Some uids) (Some created)) →
  let result :=
    express_interest_with agent now (InterestRequest.mk user_id venue_id) s
  in
  result.2 = Ok interest_recorded
  ∧ bookings_list result.1
    = bookings_list s ++ [Booking.mk bid venue_id uids code created "active"]
  ∧ last (log result.1) = Some (ERROR, "Booking agent error: 'message'").
Proof.
  intros Hu Hv Hnone%no_interest. cbv zeta. intros Hagent.
  rewrite (express_interest_with_on users_dict venues_dict agent now
             (InterestRequest.mk user_id venue_id) s user venue Hu Hv Hnone).
  cbn [InterestRequest.user_id InterestRequest.venue_id fst snd].
  rewrite (toggle_on_missing_message agent now venue_id user_id venue
             (locked (InterestRequest.mk user_id venue_id) s)
             action vid bid uids code created Hagent).
  cbn [fst snd bookings_list log]. split_and!; [done..|].
  by rewrite last_app_cons.
Qed.

(** ** The deployed collaborator never faults *)

(** X5.  With [booking_agent] as the collaborator the [except] branch of
    POST /interests is never taken: starting from an empty log, no sequence
    of requests logs an ERROR record.  The dictionaries that [booking_agent]
    returns always hold the keys that the handler reads. *)
Theorem no_error_is_logged (data_interests : list Interest.t) (s : State) :
  reachable data_interests s → no_error_logged s.
Proof.
  unfold no_error_logged. induction 1 as [|c s _ IH].
  { constructor. }
  assert (∃ records, log (run c s) = log s ++ records
                     ∧ Forall (λ record : Level * string, record.1 ≠ ERROR)
                              records) as (records & -> & Hrecords).
  { destruct c as [o now request| |v|u|u|u|v].
    1: apply express_interest_log.
    all: by apply run_read_only_frame. }
  by apply Forall_app.
Qed.

(** ** What the answer of a toggle says about the registry *)

Lemma first_active_app_new venue_id bookings b :
  first_active venue_id bookings = None →
  is_active_for venue_id b →
  first_active venue_id (bookings ++ [b]) = Some (length bookings, b).
Proof.
  intros Hnone Hb. apply first_active_Some. split_and!.
  - by rewrite lookup_app_r, Nat.sub_diag.
  - done.
  - intros j b' Hj Hlt. rewrite lookup_app_l in Hj by done.
    rewrite first_active_None in Hnone.
    apply Hnone. by eapply list_elem_of_lookup_2.
Qed.

Lemma first_active_cancelled venue_id bookings k b :
  one_active_per_venue bookings →
  first_active venue_id bookings = Some (k, b) →
  first_active venue_id (<[k := set_status "cancelled" b]> bookings) = None.
Proof.
  intros Hone (Hk & Hb & _)%first_active_Some.
  apply first_active_None. intros b' [j Hj]%list_elem_of_lookup Hb'.
  destruct (decide (j = k)) as [->|Hjk].
  - apply list_lookup_insert_Some in Hj as [(_ & <- & _)|[? _]]; [|done].
    by destruct Hb' as [_ ?].
  - rewrite list_lookup_insert_ne in Hj by done.
    apply Hjk. by eapply (Hone venue_id j k b' b).
Qed.

Lemma get_venue_booking_found venue_id venue s k b :
  dict_get venues_dict venue_id = Some venue →
  first_active venue_id (bookings_list s) = Some (k, b) →
  (get_venue_booking venues_dict venue_id s).2
  = Ok (VenueBookingResponse.mk true
          (Some (VenueBooking.mk (Booking.id b) (Booking.reservation_code b)
                   (Booking.created_at b) (length (Booking.user_ids b))))).
Proof.
  intros Hv Hact. rewrite (get_venue_booking_result _ _ venue) by done.
  by rewrite Hact.
Qed.

(** X6.  In a reachable state, the answer of POST /interests agrees with the
    registry that the call leaves:
    - [agent_triggered] is true exactly when the registry got one record
      longer;
    - an answer that carries a reservation code is followed by an answer of
      GET /venues/{venue_id}/booking that reports a booking with that code;
    - an answer with [booking_cancelled] true is followed by an answer of
      GET /venues/{venue_id}/booking that reports no booking. *)
Theorem answer_agrees_with_registry (data_interests : list Interest.t)
    (s : State) (o : Oracle) (now : datetime) (user_id venue_id : string)
    (response : InterestResponse.t) :
  reachable data_interests s →
  let result :=
    express_interest o now (InterestRequest.mk user_id venue_id) s in
  result.2 = Ok response →
  (InterestResponse.agent_triggered response = true
   ↔ length (bookings_list result.1) = S (length (bookings_list s)))
  ∧ (∀ code,
       InterestResponse.reservation_code response = Some code →
       ∃ booking,
         (get_venue_booking venues_dict venue_id result.1).2
         = Ok (VenueBookingResponse.mk true (Some booking))
         ∧ VenueBooking.reservation_code booking = code)
  ∧ (InterestResponse.booking_cancelled response = Some true →
     (get_venue_booking venues_dict venue_id result.1).2
     = Ok (VenueBookingResponse.mk false None)).
Proof.
  intros Hreach. cbv zeta.
  pose proof (express_interest_effect users_dict venues_dict o now
                (InterestRequest.mk user_id venue_id) s) as Heff.
  cbn [InterestRequest.user_id InterestRequest.venue_id] in Heff.
  destruct (reachable_invariant _ _ _ _ Hreach) as [Hone _].
  set (s' := (express_interest o now
                (InterestRequest.mk user_id venue_id) s).1) in *.
  set (r := (express_interest o now
               (InterestRequest.mk user_id venue_id) s).2) in *.
  clearbody s' r. intros Hr. subst r.
  inversion Heff as
    [detail
    |user venue i x k b Hu Hv Hfind Hl Hact Hcount Hb Hresp
    |user venue i x Hu Hv Hfind Hl Hkeep Hb Hresp
    |user venue Hu Hv Hfind Hl Hcount Hb Hresp
    |user venue k b Hu Hv Hfind Hl Hcount Hact Hb Hresp
    |user venue Hu Hv Hfind Hl Hcount Hact Hb Hresp]; subst response;
    rewrite Hb; cbn.
  - (* cancelled *)
    split_and!; [|done|].
    + rewrite length_insert. split; [done|lia].
    + intros _. rewrite (get_venue_booking_result _ _ venue) by done.
      by rewrite Hb, (first_active_cancelled _ _ _ _ Hone Hact).
  - split_and!; [|done..]. split; [done|lia].
  - split_and!; [|done..]. split; [done|lia].
  - (* already active *)
    split_and!; [split; [done|lia]| |done].
    intros code [= <-]. eexists. split.
    + apply (get_venue_booking_found _ venue s' k b); [done|].
      by rewrite Hb.
    + done.
  - (* created *)
    split_and!; [| |done].
    + by rewrite length_app, Nat.add_1_r.
    + intros code [= <-]. eexists. split.
      * apply (get_venue_booking_found _ venue s' (length (bookings_list s))).
        { done. }
        rewrite Hb. by apply first_active_app_new.
      * done.
Qed.

(** ** One toggle, one pair *)

Lemma express_interest_with_ledger agent now user_id venue_id s user venue :
  users_dict !! user_id = Some user →
  dict_get venues_dict venue_id = Some venue →
  let s' := (express_interest_with agent now
               (InterestRequest.mk user_id venue_id) s).1 in
  match list_find (is_interest_of user_id venue_id) (interests_list s) with
  | Some (i, _) => interests_list s' = delete i (interests_list s)
  | None =>
      interests_list s'
      = interests_list s ++ [Interest.mk user_id venue_id now]
  end.
Proof.
  intros Hu Hv. cbv zeta.
  destruct (list_find _ _) as [[i x]|] eqn:Hfind.
  - rewrite (express_interest_with_off users_dict venues_dict agent now
               (InterestRequest.mk user_id venue_id) s user venue i x
               Hu Hv Hfind). cbn [fst].
    by rewrite toggle_off_interests.
  - rewrite (express_interest_with_on users_dict venues_dict agent now
               (InterestRequest.mk user_id venue_id) s user venue
               Hu Hv Hfind). cbn [fst].
    by rewrite toggle_on_interests.
Qed.

(** X7.  A served POST /interests changes the ledger by exactly one
    interest, that of the pair of the request, whatever the collaborator
    does: the count of the venue goes up by one if the pair was absent and
    down by one if it was present, the counts of all other venues and the
    interests of all other users stay as they are, and in a ledger with at
    most one interest per pair the set of pairs gains or loses exactly the
    pair of the request. *)
Theorem toggle_changes_one_pair (agent : Agent) (now : datetime) (s : State)
    (user_id venue_id : string) (user : User.t) (venue : Venue.t) :
  users_dict !! user_id = Some user →
  dict_get venues_dict venue_id = Some venue →
  let s' := (express_interest_with agent now
               (InterestRequest.mk user_id venue_id) s).1 in
  let pairs := ledger_membership (interests_list s) in
  (∀ other_venue,
     other_venue ≠ venue_id →
     get_interested_count (interests_list s') other_venue
     = get_interested_count (interests_list s) other_venue)
  ∧ others_interests user_id (interests_list s')
    = others_interests user_id (interests_list s)
  ∧ ((user_id, venue_id) ∈ pairs →
     S (get_interested_count (interests_list s') venue_id)
     = get_interested_count (interests_list s) venue_id)
  ∧ ((user_id, venue_id) ∉ pairs →
     get_interested_count (interests_list s') venue_id
     = S (get_interested_count (interests_list s) venue_id))
  ∧ (ledger_unique (interests_list s) →
     ledger_membership (interests_list s')
     = if bool_decide ((user_id, venue_id) ∈ pairs)
       then pairs ∖ {[(user_id, venue_id)]}
       else pairs ∪ {[(user_id, venue_id)]}).
Proof.
  intros Hu Hv. cbv zeta.
  pose proof (express_interest_with_ledger agent now user_id venue_id s
                user venue Hu Hv) as Hl. cbv zeta in Hl.
  split; [|split; [apply express_interest_with_others|]].
  { intros other Hother.
    destruct (list_find _ _) as [[i x]|] eqn:Hfind; rewrite Hl.
    - apply found_interest in Hfind as (Hi & _ & Hxv).
      rewrite (count_delete _ _ _ other Hi).
      rewrite decide_False by congruence. lia.
    - rewrite count_app. cbn. rewrite decide_False by done. lia. }
  unfold ledger_membership.
  destruct (list_find _ _) as [[i x]|] eqn:Hfind; rewrite Hl.
  - pose proof Hfind as (Hi & Hxu & Hxv)%found_interest.
    assert (interest_key x = (user_id, venue_id)) as Hkey
      by (by unfold interest_key; rewrite Hxu, Hxv).
    assert ((user_id, venue_id)
            ∈ (list_to_set (interest_key <$> interests_list s)
               : gset (string * string))) as Hin.
    { apply elem_of_list_to_set. rewrite <- Hkey.
      apply list_elem_of_fmap_2. by eapply list_elem_of_lookup_2. }
    split_and!.
    + intros _. rewrite (count_delete _ _ _ venue_id Hi).
      rewrite decide_True by done. lia.
    + done.
    + intros Huniq. rewrite bool_decide_eq_true_2 by done.
      pose proof (keys_delete _ _ _ Hi) as Hperm.
      unfold ledger_unique in Huniq. rewrite Hperm, Hkey in Huniq.
      apply NoDup_cons in Huniq as [Hnotin _].
      rewrite (list_to_set_perm_L _ _ Hperm), Hkey.
      rewrite list_to_set_cons.
      apply set_eq. intros pair.
      rewrite elem_of_difference, elem_of_union, elem_of_singleton,
        elem_of_list_to_set.
      split; [|by intros [[?|?] ?]]. intros Hpair.
      split; [by right|]. by intros ->.
  - pose proof Hfind as Hnone%no_interest.
    assert ((user_id, venue_id)
            ∉ (list_to_set (interest_key <$> interests_list s)
               : gset (string * string))) as Hnotin
      by (by rewrite elem_of_list_to_set).
    split_and!.
    + done.
    + intros _. rewrite count_app. cbn. rewrite decide_True by done. lia.
    + intros _. rewrite bool_decide_eq_false_2 by done.
      rewrite fmap_app, list_to_set_app_L. cbn.
      by rewrite union_empty_r_L.
Qed.

(** ** Bookings and the threshold *)

(** X8.  In every reachable state an active booking is backed by at least 3
    interests in its venue: the service never holds an active booking below
    the threshold.  Right after a toggle-on, the venue has an active booking
    exactly when its count is at least 3. *)
Theorem active_booking_iff_threshold (data_interests : list Interest.t)
    (s : State) :
  reachable data_interests s →
  (∀ b, b ∈ bookings_list s → Booking.status b = "active" →
        3 ≤ get_interested_count (interests_list s) (Booking.venue_id b))
  ∧ (∀ o now user_id venue_id user venue,
       users_dict !! user_id = Some user →
       dict_get venues_dict venue_id = Some venue →
       (user_id, venue_id) ∉ interest_key <$> interests_list s →
       let s' := (express_interest o now
                    (InterestRequest.mk user_id venue_id) s).1 in
       (∃ b, b ∈ bookings_list s' ∧ is_active_for venue_id b)
       ↔ 3 ≤ get_interested_count (interests_list s') venue_id).
Proof.
  intros Hreach. split.
  { by destruct (reachable_invariant _ _ _ _ Hreach) as [_ Hback]. }
  intros o now user_id venue_id user venue Hu Hv Hnone%no_interest. cbv zeta.
  assert (reachable data_interests
            (express_interest o now
               (InterestRequest.mk user_id venue_id) s).1) as Hreach'.
  { apply (reachable_run _ _ _
             (PostInterests o now (InterestRequest.mk user_id venue_id))).
    done. }
  destruct (reachable_invariant _ _ _ _ Hreach') as [_ Hback'].
  pose proof (express_interest_effect users_dict venues_dict o now
                (InterestRequest.mk user_id venue_id) s) as Heff.
  cbn [InterestRequest.user_id InterestRequest.venue_id] in Heff.
  destruct (toggle_on_cases _ _ _ _ _ _ _ _ _ _ _ Hu Hv Hnone Heff)
    as [Hl Hcases].
  set (s' := (express_interest o now
                (InterestRequest.mk user_id venue_id) s).1) in *.
  clearbody s'. split.
  - intros (b & Hin & [Hbv Hst]). rewrite <- Hbv. by apply Hback'.
  - intros Hcount.
    destruct Hcases
      as [(Hlt & _)|[(_ & (k & b & Hact & _) & Hb)|(_ & _ & _ & Hb)]].
    + lia.
    + apply first_active_Some in Hact as (Hk & Hbact & _).
      exists b. split; [|done]. rewrite Hb. by eapply list_elem_of_lookup_2.
    + eexists. split.
      * rewrite Hb. apply elem_of_app. right.
        by apply list_elem_of_singleton.
      * done.
Qed.

(** ** The records of the registry *)

Lemma toggle_effect_well_formed o now user_id venue_id s s' r :
  toggle_effect o now user_id venue_id s s' r →
  (∀ i b, bookings_list s !! i = Some b →
          booking_well_formed venues_dict i b) →
  ∀ i b, bookings_list s' !! i = Some b → booking_well_formed venues_dict i b.
Proof.
  intros Heff Hwf.
  destruct Heff as
    [detail _ Hl Hb
    |user venue i x k b _ _ Hfind Hl Hact Hcount Hb
    |user venue i x _ _ Hfind Hl Hkeep Hb
    |user venue _ _ Hfind Hl Hcount Hb
    |user venue k b _ _ Hfind Hl Hcount Hact Hb
    |user venue _ Hv Hfind Hl Hcount Hact Hb]; rewrite Hb; try done.
  - apply first_active_Some in Hact as (Hk & _ & _).
    intros j bj Hj. destruct (decide (j = k)) as [->|Hjk].
    + apply list_lookup_insert_Some in Hj as [(_ & <- & _)|[? _]]; [|done].
      destruct (Hwf k b Hk) as (Hid & Hcode & Hlen & Hvenue & _).
      split_and!; [done..|by right].
    + rewrite list_lookup_insert_ne in Hj by done. by apply Hwf.
  - intros j bj Hj. apply lookup_app_Some in Hj as [Hj|[Hge Hj]].
    { by apply Hwf. }
    apply list_lookup_singleton_Some in Hj as [Hj <-].
    replace j with (length (bookings_list s)) by lia.
    split_and!; cbn.
    + done.
    + by exists (randint_1000_9999 o).
    + by rewrite length_ids_for.
    + by rewrite Hv.
    + by left.
Qed.

Lemma reachable_well_formed data_interests s :
  reachable data_interests s →
  ∀ i b, bookings_list s !! i = Some b → booking_well_formed venues_dict i b.
Proof.
  induction 1 as [|c s _ IH].
  { intros i b Hi. cbn in Hi. by rewrite lookup_nil in Hi. }
  destruct c as [o now request| |v|u|u|u|v].
  1: exact (toggle_effect_well_formed _ _ _ _ _ _ _
              (express_interest_effect users_dict venues_dict o now
                 request s) IH).
  all: match goal with
       | |- ∀ _ _, bookings_list (run ?c ?s0) !! _ = _ → _ =>
           destruct (run_read_only_frame users_dict venues_dict c s0)
             as (_ & -> & _); done
       end.
Qed.

Lemma reachable_ids_distinct data_interests s :
  reachable data_interests s → NoDup (Booking.id <$> bookings_list s).
Proof.
  intros Hreach. pose proof (reachable_well_formed _ _ Hreach) as Hwf.
  apply NoDup_alt. intros i j id Hi Hj.
  apply list_lookup_fmap_Some in Hi as (bi & -> & Hi).
  apply list_lookup_fmap_Some in Hj as (bj & Heq & Hj).
  destruct (Hwf i bi Hi) as [Hidi _]. destruct (Hwf j bj Hj) as [Hidj _].
  rewrite Hidi, Hidj in Heq.
  apply (inj (String.app "booking_")), (inj pretty) in Heq. lia.
Qed.

(** X9.  Every record of a registry that the service has built from an
    empty one is well formed: the record at position [i] has the id
    [booking_<i+1>], a reservation code [LUNA-<venue_id>-<draw>], at least 3
    user ids, a venue of the directory, and the status active or cancelled.
    In particular the ids of the registry are pairwise distinct. *)
Theorem registry_is_well_formed (data_interests : list Interest.t)
    (s : State) :
  reachable data_interests s →
  (∀ i b, bookings_list s !! i = Some b →
          booking_well_formed venues_dict i b)
  ∧ NoDup (Booking.id <$> bookings_list s).
Proof.
  intros Hreach. split.
  - by eapply reachable_well_formed.
  - by eapply reachable_ids_distinct.
Qed.

(** ** GET /bookings/{user_id} *)

Lemma user_bookings_of_registry user_id (bookings : list Booking.t) :
  Forall (λ b, is_Some (dict_get venues_dict (Booking.venue_id b))
               ∧ 3 ≤ length (Booking.user_ids b)) bookings →
  UserBooking.id <$> omap (user_booking_entry venues_dict user_id) bookings
  = Booking.id
      <$> filter (λ b, Booking.status b = "active"
                       ∧ user_id ∈ Booking.user_ids b) bookings
  ∧ Forall (λ e, 3 ≤ UserBooking.party_size e)
           (omap (user_booking_entry venues_dict user_id) bookings).
Proof.
  induction 1 as [|b bookings [[venue Hv] Hlen] _ [IHid IHsize]]; [done|].
  rewrite filter_cons.
  destruct (decide (Booking.status b = "active"
                    ∧ user_id ∈ Booking.user_ids b)) as [Hp|Hp].
  - assert (∃ e, user_booking_entry venues_dict user_id b = Some e
                 ∧ UserBooking.id e = Booking.id b
                 ∧ UserBooking.party_size e = length (Booking.user_ids b))
      as (e & Hentry & Hid & Hsize).
    { unfold user_booking_entry. rewrite bool_decide_eq_true_2, Hv by done.
      by eexists. }
    cbn [omap list_omap]. rewrite Hentry. cbn. rewrite IHid, Hid.
    split; [done|]. constructor; [lia|done].
  - assert (user_booking_entry venues_dict user_id b = None) as Hentry.
    { unfold user_booking_entry. by rewrite bool_decide_eq_false_2. }
    cbn [omap list_omap]. by rewrite Hentry.
Qed.

(** X10.  In a reachable state, GET /bookings/{user_id} for a user of the
    directory reports exactly the active bookings that list the user, one
    entry each and none dropped (the venue of a booking is always found);
    the ids of the entries are pairwise distinct and every party size is at
    least 3.  Each booking it reports is the one that
    GET /venues/{venue_id}/booking reports for the venue of the booking. *)
Theorem user_bookings_are_the_active_ones (data_interests : list Interest.t)
    (s : State) (user_id : string) (user : User.t) :
  reachable data_interests s →
  users_dict !! user_id = Some user →
  ∃ entries,
    (get_user_bookings users_dict venues_dict user_id s).2 = Ok entries
    ∧ UserBooking.id <$> entries
      = Booking.id
          <$> filter (λ b, Booking.status b = "active"
                           ∧ user_id ∈ Booking.user_ids b)
                     (bookings_list s)
    ∧ NoDup (UserBooking.id <$> entries)
    ∧ Forall (λ e, 3 ≤ UserBooking.party_size e) entries
    ∧ (∀ b, b ∈ bookings_list s → Booking.status b = "active" →
            user_id ∈ Booking.user_ids b →
            (get_venue_booking venues_dict (Booking.venue_id b) s).2
            = Ok (VenueBookingResponse.mk true
                    (Some (VenueBooking.mk (Booking.id b)
                             (Booking.reservation_code b)
                             (Booking.created_at b)
                             (length (Booking.user_ids b)))))).
Proof.
  intros Hreach Hu.
  pose proof (reachable_well_formed _ _ Hreach) as Hwf.
  pose proof (reachable_ids_distinct _ _ Hreach) as Hids.
  destruct (reachable_invariant _ _ _ _ Hreach) as [Hone _].
  assert (Forall (λ b, is_Some (dict_get venues_dict (Booking.venue_id b))
                       ∧ 3 ≤ length (Booking.user_ids b))
                 (bookings_list s)) as Hall.
  { apply Forall_forall. intros b [i Hi]%list_elem_of_lookup.
    by destruct (Hwf i b Hi) as (_ & _ & ? & ? & _). }
  destruct (user_bookings_of_registry user_id _ Hall) as [Hentries Hsizes].
  eexists. split; [by apply (get_user_bookings_result _ _ _ _ user)|].
  split_and!; [done| |done|].
  - rewrite Hentries. eapply sublist_NoDup; [exact Hids|].
    apply fmap_sublist, sublist_filter.
  - intros b Hin Hst _.
    rewrite Forall_forall in Hall. destruct (Hall b Hin) as [[venue Hv] _].
    destruct (first_active_exists (Booking.venue_id b) (bookings_list s) b)
      as (k & b' & Hact); [done|done|].
    pose proof Hact as (Hk & Hb' & _)%first_active_Some.
    apply list_elem_of_lookup in Hin as [j Hj].
    assert (j = k) as ->
      by (by eapply (Hone (Booking.venue_id b) j k b b')).
    assert (b' = b) as -> by congruence.
    by apply (get_venue_booking_found _ venue s k b).
Qed.

(** ** Who is on a booking *)

Lemma ids_for_elem user_id venue_id interests :
  user_id ∈ ids_for venue_id interests
  ↔ (user_id, venue_id) ∈ interest_key <$> interests.
Proof.
  unfold ids_for. rewrite !list_elem_of_fmap. split.
  - intros (x & -> & [Hxv Hin]%list_elem_of_filter). exists x.
    split; [|done]. unfold interest_key. by rewrite Hxv.
  - intros (x & Hkey & Hin). unfold interest_key in Hkey.
    injection Hkey as -> ->. exists x. split; [done|].
    by apply list_elem_of_filter.
Qed.

(** X11.  A booking lists the users who were interested when it was made,
    and nobody joins it later.  When a toggle-on creates a booking
    ([agent_triggered] true), GET /bookings/{user} reports the new booking,
    with the reservation code of the answer, to every user of the directory
    who is then interested in the venue, the caller included.  When a
    toggle-on does not create one ([agent_triggered] false: the count is
    below 3, or a booking is active already and its code is in the answer),
    GET /bookings/{user} answers to every user what it answered before: a
    user who joins an existing booking is told its code and is not listed
    on it. *)
Theorem booking_lists_who_was_interested (s : State) (o : Oracle)
    (now : datetime) (user_id venue_id : string) (user : User.t)
    (venue : Venue.t) :
  users_dict !! user_id = Some user →
  dict_get venues_dict venue_id = Some venue →
  (user_id, venue_id) ∉ interest_key <$> interests_list s →
  let result :=
    express_interest o now (InterestRequest.mk user_id venue_id) s in
  ∃ response,
    result.2 = Ok response
    ∧ (InterestResponse.agent_triggered response = true →
       ∀ other other_user,
         users_dict !! other = Some other_user →
         (other, venue_id) ∈ interest_key <$> interests_list result.1 →
         ∃ entries e,
           (get_user_bookings users_dict venues_dict other result.1).2
           = Ok entries
           ∧ e ∈ entries
           ∧ Some (UserBooking.reservation_code e)
             = InterestResponse.reservation_code response)
    ∧ (InterestResponse.agent_triggered response = false →
       ∀ other,
         (get_user_bookings users_dict venues_dict other result.1).2
         = (get_user_bookings users_dict venues_dict other s).2).
Proof.
  intros Hu Hv Hnone%no_interest. cbv zeta.
  pose proof (express_interest_effect users_dict venues_dict o now
                (InterestRequest.mk user_id venue_id) s) as Heff.
  cbn [InterestRequest.user_id InterestRequest.venue_id] in Heff.
  destruct (toggle_on_cases _ _ _ _ _ _ _ _ _ _ _ Hu Hv Hnone Heff)
    as [Hl Hcases].
  set (s' := (express_interest o now
                (InterestRequest.mk user_id venue_id) s).1) in *.
  set (r := (express_interest o now
               (InterestRequest.mk user_id venue_id) s).2) in *.
  clearbody s' r. clear Heff.
  assert (bookings_list s' = bookings_list s →
          ∀ other,
            (get_user_bookings users_dict venues_dict other s').2
            = (get_user_bookings users_dict venues_dict other s).2) as Hsame.
  { intros Hb other. unfold get_user_bookings.
    destruct (users_dict !! other); cbn; [|done]. by rewrite Hb. }
  destruct Hcases
    as [(_ & -> & Hb)|[(_ & (k & b & _ & ->) & Hb)|(_ & _ & -> & Hb)]];
    eexists; (split; [done|]); cbn.
  - split; [done|]. intros _. by apply Hsame.
  - split; [done|]. intros _. by apply Hsame.
  - split; [|done]. intros _ other other_user Hother Hin.
    rewrite (get_user_bookings_result _ _ _ _ other_user Hother).
    eexists _, _. split; [done|]. split.
    + apply list_elem_of_omap. eexists. split.
      * rewrite Hb. apply elem_of_app. right. by apply list_elem_of_singleton.
      * unfold user_booking_entry. cbn. rewrite Hv.
        rewrite bool_decide_eq_true_2; [done|].
        split; [done|]. by apply ids_for_elem.
    + done.
Qed.

(** ** The counts reported with a recommendation *)

Lemma count_splits interests user_id venue_id :
  get_interested_count interests venue_id
  = count_friends_interested interests user_id venue_id
    + length (filter (is_interest_of user_id venue_id) interests).
Proof.
  unfold get_interested_count, count_friends_interested.
  induction interests as [|x interests IH]; [done|].
  rewrite !filter_cons. unfold is_interest_of at 1.
  destruct (decide (Interest.venue_id x = venue_id)) as [Hv|Hv],
           (decide (Interest.user_id x = user_id)) as [Hu|Hu];
    repeat case_decide; cbn [length]; first [lia|tauto].
Qed.

Lemma own_interest_count interests user_id venue_id :
  ledger_unique interests →
  length (filter (is_interest_of user_id venue_id) interests)
  = if bool_decide ((user_id, venue_id) ∈ interest_key <$> interests)
    then 1 else 0.
Proof.
  unfold ledger_unique. induction interests as [|x interests IH]; [done|].
  rewrite fmap_cons, NoDup_cons. intros [Hx Huniq].
  destruct (decide (is_interest_of user_id venue_id x)) as [[Hu Hv]|Hno].
  - rewrite filter_cons_True by done. cbn [length]. rewrite (IH Huniq).
    assert (interest_key x = (user_id, venue_id)) as Hkey
      by (by unfold interest_key; rewrite Hu, Hv).
    rewrite Hkey in Hx.
    rewrite (bool_decide_eq_false_2 _ Hx).
    rewrite bool_decide_eq_true_2; [done|].
    rewrite Hkey. apply elem_of_cons. by left.
  - rewrite filter_cons_False by done. rewrite (IH Huniq).
    assert ((user_id, venue_id) ∈ interest_key x :: (interest_key <$> interests)
            ↔ (user_id, venue_id) ∈ interest_key <$> interests) as Hiff.
    { rewrite elem_of_cons. split; [|by right].
      intros [Hkey|Hin]; [|done]. destruct Hno.
      unfold interest_key in Hkey. injection Hkey as -> ->. by split. }
    by rewrite (bool_decide_ext _ _ Hiff).
Qed.

(** X12.  The two counts of a recommendation are consistent with its flag.
    For a user and a venue of the directory, the entry reports as
    [interested_count] and [total_interested] the number of interests in the
    venue, and as [friends_interested] the number of those held by other
    users, which is never more; in a ledger with at most one interest per
    pair the two differ by one exactly when [already_interested] is set. *)
Theorem recommendation_counts (interests : list Interest.t)
    (user_id venue_id : string) (user : User.t) (venue stored : Venue.t) :
  users_dict !! user_id = Some user →
  dict_get venues_dict venue_id = Some stored →
  let r := recommendation_entry users_dict venues_dict interests user_id
                                (venue_id, venue) in
  Recommendation.interested_count r = Recommendation.total_interested r
  ∧ Recommendation.total_interested r
    = get_interested_count interests venue_id
  ∧ Recommendation.friends_interested r
    ≤ Recommendation.total_interested r
  ∧ (ledger_unique interests →
     Recommendation.total_interested r
     = Recommendation.friends_interested r
       + (if Recommendation.already_interested r then 1 else 0)).
Proof.
  intros Hu Hv. cbv zeta.
  destruct (recommendation_entry_counts users_dict venues_dict interests
              user_id venue_id venue user stored Hu Hv)
    as (-> & -> & -> & _).
  destruct (recommendation_entry_fields users_dict venues_dict interests
              user_id venue_id venue) as (_ & _ & ->).
  pose proof (count_splits interests user_id venue_id) as Hsplit.
  split_and!; [done|done|lia|].
  intros Huniq. rewrite Hsplit. by rewrite own_interest_count.
Qed.

(** ** The ledger holds interests of known users in known venues *)

Lemma toggle_effect_known o now user_id venue_id s s' r :
  toggle_effect o now user_id venue_id s s' r →
  ledger_users_known users_dict (interests_list s)
  ∧ ledger_venues_known venues_dict (interests_list s) →
  ledger_users_known users_dict (interests_list s')
  ∧ ledger_venues_known venues_dict (interests_list s').
Proof.
  intros Heff [Husers Hvenues].
  assert (∀ i, (∀ x, x ∈ delete i (interests_list s) →
                     is_Some (users_dict !! Interest.user_id x))
               ∧ (∀ x, x ∈ delete i (interests_list s) →
                       is_Some (dict_get venues_dict (Interest.venue_id x))))
    as Hdel.
  { intros i. split; intros x Hin.
    - apply Husers. by eapply list_elem_of_delete_inv.
    - apply Hvenues. by eapply list_elem_of_delete_inv. }
  assert (∀ now, is_Some (users_dict !! user_id) →
                 is_Some (dict_get venues_dict venue_id) →
                 (∀ x, x ∈ interests_list s
                           ++ [Interest.mk user_id venue_id now] →
                       is_Some (users_dict !! Interest.user_id x))
                 ∧ (∀ x, x ∈ interests_list s
                             ++ [Interest.mk user_id venue_id now] →
                         is_Some (dict_get venues_dict
                                           (Interest.venue_id x))))
    as Happ.
  { intros now' Hu Hv.
    split; intros x [Hin|Hin]%elem_of_app; auto;
      apply list_elem_of_singleton in Hin; by subst. }
  destruct Heff as
    [detail _ Hl Hb
    |user venue i x k b _ _ Hfind Hl Hact Hcount Hb
    |user venue i x _ _ Hfind Hl Hkeep Hb
    |user venue Hu Hv Hfind Hl Hcount Hb
    |user venue k b Hu Hv Hfind Hl Hcount Hact Hb
    |user venue Hu Hv Hfind Hl Hcount Hact Hb];
    unfold ledger_users_known, ledger_venues_known; rewrite Hl;
    first [done|apply Hdel|by apply Happ].
Qed.

Lemma reachable_known data_interests s :
  reachable data_interests s →
  ledger_users_known users_dict data_interests
  ∧ ledger_venues_known venues_dict data_interests →
  ledger_users_known users_dict (interests_list s)
  ∧ ledger_venues_known venues_dict (interests_list s).
Proof.
  intros Hreach Hdata. induction Hreach as [|c s _ IH]; [done|].
  destruct c as [o now request| |v|u|u|u|v].
  1: exact (toggle_effect_known _ _ _ _ _ _ _
              (express_interest_effect users_dict venues_dict o now
                 request s) IH).
  all: match goal with
       | |- context [interests_list (run ?c ?s0)] =>
           destruct (run_read_only_frame users_dict venues_dict c s0)
             as (-> & _); done
       end.
Qed.

(** ** GET /venues/{venue_id} *)

Lemma filter_all {A} (P : A → Prop) `{∀ x, Decision (P x)} (l : list A) :
  Forall P l → filter P l = l.
Proof.
  induction 1 as [|x l Hx _ IH]; [done|].
  by rewrite filter_cons_True, IH.
Qed.

(** X13.  For a venue of the directory, GET /venues/{venue_id} lists the
    users interested in the venue who are in the directory, in the order of
    the ledger; an interest held by a user who is not in the directory is
    counted by [get_interested_count] and is not listed, so the list is
    never longer than the count.  When every user and venue of the initial
    ledger is in the directory, so is every user of any reachable ledger,
    and the list has exactly one entry per interest in the venue. *)
Theorem venue_detail_lists_known_users (data_interests : list Interest.t)
    (s : State) (venue_id : string) (venue : Venue.t) :
  reachable data_interests s →
  dict_get venues_dict venue_id = Some venue →
  ∃ users,
    (get_venue_detail users_dict venues_dict venue_id s).2
    = Ok (venue, users)
    ∧ (λ entry : string * string * string, entry.1.1) <$> users
      = filter (λ user_id, is_Some (users_dict !! user_id))
               (ids_for venue_id (interests_list s))
    ∧ length users ≤ get_interested_count (interests_list s) venue_id
    ∧ (ledger_users_known users_dict data_interests
       ∧ ledger_venues_known venues_dict data_interests →
       (λ entry : string * string * string, entry.1.1) <$> users
       = ids_for venue_id (interests_list s)
       ∧ length users = get_interested_count (interests_list s) venue_id).
Proof.
  intros Hreach Hv. eexists. split.
  { by apply get_venue_detail_result. }
  pose proof (get_interested_users_ids users_dict (interests_list s) venue_id)
    as Hids.
  split; [done|].
  assert (length (get_interested_users users_dict (interests_list s) venue_id)
          = length (filter (λ user_id, is_Some (users_dict !! user_id))
                           (ids_for venue_id (interests_list s)))) as Hlen
    by (by rewrite <- Hids, length_fmap).
  split.
  - rewrite Hlen, <- length_ids_for. apply length_filter.
  - intros Hdata.
    destruct (reachable_known _ _ Hreach Hdata) as [Husers _].
    assert (filter (λ user_id, is_Some (users_dict !! user_id))
                   (ids_for venue_id (interests_list s))
            = ids_for venue_id (interests_list s)) as Hall.
    { apply filter_all. apply Forall_forall. intros user_id Hin.
      unfold ids_for in Hin.
      apply list_elem_of_fmap in Hin as (x & -> & [_ Hx]%list_elem_of_filter).
      by apply Husers. }
    rewrite Hids, Hlen, Hall. by rewrite length_ids_for.
Qed.

(** ** GET /users/{user_id} *)

Lemma length_omap_le {A B} (f : A → option B) (l : list A) :
  length (omap f l) ≤ length l.
Proof.
  induction l as [|x l IH]; [done|]. cbn. destruct (f x); cbn; lia.
Qed.

Lemma length_omap_all {A B} (f : A → option B) (l : list A) :
  Forall (λ x, is_Some (f x)) l → length (omap f l) = length l.
Proof.
  induction 1 as [|x l [y Hy] _ IH]; [done|]. cbn. rewrite Hy. cbn. lia.
Qed.

Lemma omap_fmap_Forall2 {A B C} (h : A → B) (f : B → option C)
    (P : A → Prop) `{∀ x, Decision (P x)} (R : A → C → Prop) (l : list A) :
  (∀ x, P x ↔ is_Some (f (h x))) →
  (∀ x y, f (h x) = Some y → R x y) →
  Forall2 R (filter P l) (omap f (h <$> l)).
Proof.
  intros HP HR. induction l as [|x l IH]; [constructor|].
  rewrite fmap_cons. cbn [omap list_omap].
  destruct (f (h x)) as [y|] eqn:Hx.
  - rewrite filter_cons_True by (apply HP; by rewrite Hx).
    constructor; [by apply HR|done].
  - rewrite filter_cons_False; [done|].
    intros [? ?]%HP. congruence.
Qed.

(** X14.  For a user of the directory, GET /users/{user_id} lists exactly
    one entry for each interest of the user whose venue is in the directory,
    in the order of the ledger: the entry holds the venue stored under the
    venue id of the interest and the number of interests in the venue of
    that id.  When the directory stores every venue under its own id, each
    listed count is at least 1 (the interest of the user is counted).  When
    every user and venue of the initial ledger is in the directory, every
    interest of the user has its entry. *)
Theorem profile_lists_interested_venues (data_interests : list Interest.t)
    (s : State) (user_id : string) (user : User.t) :
  reachable data_interests s →
  users_dict !! user_id = Some user →
  let own :=
    filter (λ interest, Interest.user_id interest = user_id)
           (interests_list s) in
  let listed (interest : Interest.t) (entry : Venue.t * nat) :=
    dict_get venues_dict (Interest.venue_id interest) = Some entry.1
    ∧ entry.2 = get_interested_count (interests_list s) (Venue.id entry.1) in
  ∃ venues,
    (get_user_profile users_dict venues_dict user_id s).2
    = Ok (user, venues)
    ∧ Forall2 listed
        (filter (λ interest,
                   is_Some (dict_get venues_dict
                                     (Interest.venue_id interest))) own)
        venues
    ∧ length venues ≤ length own
    ∧ (∀ venue n,
         (venue, n) ∈ venues →
         ∃ interest,
           interest ∈ own
           ∧ dict_get venues_dict (Interest.venue_id interest) = Some venue
           ∧ n = get_interested_count (interests_list s) (Venue.id venue))
    ∧ (directory_well_keyed venues_dict →
       Forall (λ entry : Venue.t * nat, 1 ≤ entry.2) venues)
    ∧ (ledger_users_known users_dict data_interests
       ∧ ledger_venues_known venues_dict data_interests →
       Forall2 listed own venues ∧ length venues = length own).
Proof.
  intros Hreach Hu. cbv zeta. eexists. split.
  { by apply get_user_profile_result. }
  unfold get_user_interested_venues.
  set (own := filter (λ interest, Interest.user_id interest = user_id)
                     (interests_list s)).
  set (entry_of := λ venue_id,
         match dict_get venues_dict venue_id with
         | Some venue =>
             Some (venue,
                   get_interested_count (interests_list s) (Venue.id venue))
         | None => None
         end).
  assert (∀ interest (entry : Venue.t * nat),
            entry_of (Interest.venue_id interest) = Some entry
            ↔ dict_get venues_dict (Interest.venue_id interest)
              = Some entry.1
              ∧ entry.2 = get_interested_count (interests_list s)
                                               (Venue.id entry.1))
    as Hentry.
  { intros interest [venue n]. unfold entry_of. cbn.
    destruct (dict_get venues_dict (Interest.venue_id interest))
      as [venue'|]; [|by split; [|intros []]].
    split; [by intros [= -> ->]|by intros [[= ->] ->]]. }
  assert (∀ interest,
            is_Some (entry_of (Interest.venue_id interest))
            ↔ is_Some (dict_get venues_dict (Interest.venue_id interest)))
    as Hsome.
  { intros interest. unfold entry_of.
    destruct (dict_get venues_dict (Interest.venue_id interest));
      split; intros [x Hx]; first [discriminate|by eexists]. }
  assert (Forall2
            (λ interest (entry : Venue.t * nat),
               dict_get venues_dict (Interest.venue_id interest)
               = Some entry.1
               ∧ entry.2 = get_interested_count (interests_list s)
                                                (Venue.id entry.1))
            (filter (λ interest,
                       is_Some (dict_get venues_dict
                                         (Interest.venue_id interest))) own)
            (omap entry_of (Interest.venue_id <$> own))) as Hexact.
  { apply omap_fmap_Forall2.
    - intros interest. symmetry. apply Hsome.
    - intros interest entry. apply Hentry. }
  assert (∀ venue n,
            (venue, n) ∈ omap entry_of (Interest.venue_id <$> own) →
            ∃ interest,
              interest ∈ own
              ∧ dict_get venues_dict (Interest.venue_id interest)
                = Some venue
              ∧ n = get_interested_count (interests_list s)
                                         (Venue.id venue)) as Hentries.
  { intros venue n (venue_id & Hin & Hsome')%list_elem_of_omap.
    apply list_elem_of_fmap in Hin as (interest & -> & Hin).
    exists interest. split; [done|].
    by apply (Hentry interest (venue, n)). }
  split_and!.
  - exact Hexact.
  - etrans; [apply length_omap_le|]. by rewrite length_fmap.
  - exact Hentries.
  - intros Hkeyed. apply Forall_forall. intros [venue n] Hin.
    destruct (Hentries venue n Hin) as (interest & Hown & Hv & ->). cbn.
    apply list_elem_of_filter in Hown as [Hiu Hil].
    rewrite (Hkeyed _ _ Hv).
    apply list_elem_of_lookup in Hil as [i Hi].
    rewrite (count_delete _ _ _ (Interest.venue_id interest) Hi).
    rewrite decide_True by done. lia.
  - intros Hdata.
    destruct (reachable_known _ _ Hreach Hdata) as [_ Hvenues].
    assert (filter (λ interest,
                      is_Some (dict_get venues_dict
                                        (Interest.venue_id interest))) own
            = own) as Hall.
    { apply filter_all, Forall_forall. intros interest Hin.
      apply list_elem_of_filter in Hin as [_ Hin]. by apply Hvenues. }
    rewrite Hall in Hexact. split; [exact Hexact|].
    symmetry. exact (Forall2_length _ _ _ Hexact).
Qed.

(** ** The score and its reason *)

Local Abbreviation Score interests user_id venue_id :=
  (score_of (calculate_recommendation_score users_dict venues_dict
               interests user_id venue_id)).

Lemma three_factors_table :
  Forall (λ a, Forall (λ b,
            Qle_bool (three_factors a false) (three_factors b false)
            = bool_decide (a ≤ b)
            ∧ Qle_bool (three_factors a true) (three_factors b true)
              = bool_decide (a ≤ b)) (seq 0 10)) (seq 0 10).
Proof. compute_done. Qed.

(** The sum of the factors grows with the number of other users interested,
    strictly up to 9 of them. *)
Lemma three_factors_order c1 c2 category_match :
  (three_factors c1 category_match <= three_factors c2 category_match)%Q
  ↔ Nat.min c1 9 ≤ Nat.min c2 9.
Proof.
  rewrite (three_factors_cap c1), (three_factors_cap c2).
  pose proof three_factors_table as Hall.
  rewrite Forall_forall in Hall.
  specialize (Hall (Nat.min c1 9)). rewrite elem_of_seq in Hall.
  specialize (Hall ltac:(lia)).
  rewrite Forall_forall in Hall.
  specialize (Hall (Nat.min c2 9)). rewrite elem_of_seq in Hall.
  specialize (Hall ltac:(lia)). destruct Hall as [Hf Ht].
  rewrite <- Qle_bool_iff.
  destruct category_match; [rewrite Ht|rewrite Hf];
    by rewrite bool_decide_eq_true.
Qed.

Lemma three_factors_ends :
  Qle_bool 0 (three_factors 0 false) = true
  ∧ Qle_bool 4 (three_factors 0 true) = true
  ∧ Qle_bool (three_factors 9 false) 6 = true
  ∧ Qeq_bool (three_factors 0 false) 0 = true
  ∧ Qle_bool (three_factors 1 false) 0 = false
  ∧ Qle_bool (three_factors 0 true) 0 = false.
Proof. by vm_compute. Qed.

Lemma three_factors_bounds c category_match :
  (0 <= three_factors c category_match)%Q
  ∧ (category_match = true → 4 <= three_factors c category_match)%Q
  ∧ (category_match = false → three_factors c category_match <= 6)%Q
  ∧ ((three_factors c category_match == 0)%Q
     ↔ c = 0 ∧ category_match = false).
Proof.
  destruct three_factors_ends
    as (H0%Qle_bool_iff & H4%Qle_bool_iff & H6%Qle_bool_iff
        & Hzero%Qeq_bool_iff & Hone & Hmatch).
  assert (three_factors 0 category_match
          <= three_factors c category_match)%Q as Hlow
    by (apply three_factors_order; lia).
  assert (three_factors c category_match
          <= three_factors 9 category_match)%Q as Hhigh
    by (apply three_factors_order; lia).
  split_and!.
  - eapply Qle_trans; [|exact Hlow]. destruct category_match; [|exact H0].
    by apply Qle_trans with 4%Q.
  - intros ->. by eapply Qle_trans; [|exact Hlow].
  - intros ->. by eapply Qle_trans; [exact Hhigh|].
  - split.
    + intros Heq. destruct category_match.
      { rewrite Heq in Hlow. apply Qle_bool_iff in Hlow. congruence. }
      split; [|done]. destruct c as [|c]; [done|].
      assert (three_factors 1 false <= three_factors (S c) false)%Q as Hle
        by (apply three_factors_order; lia).
      rewrite Heq in Hle. apply Qle_bool_iff in Hle. congruence.
    + by intros [-> ->].
Qed.

(** X15.  For an existing user and a venue whose interest tags and
    category are ASCII text, the score is never negative.  It
    grows with the number [c] of interests that other users hold in the
    venue, strictly up to 9 of them and not at all beyond: between two
    ledgers the scores compare as min(c, 9) does.  A venue whose category
    matches scores at least 4, one whose category does not at most 6, and
    the score is 0 only when no other user is interested and the category
    does not match. *)
Theorem score_grows_with_interest (interests1 interests2 : list Interest.t)
    (user_id venue_id : string) (user : User.t) (venue : Venue.t) :
  users_dict !! user_id = Some user →
  dict_get venues_dict venue_id = Some venue →
  is_ascii (Venue.category venue) →
  Forall is_ascii (User.interests user) →
  let c1 := count_friends_interested interests1 user_id venue_id in
  let c2 := count_friends_interested interests2 user_id venue_id in
  ((Score interests1 user_id venue_id <= Score interests2 user_id venue_id)%Q
   ↔ Nat.min c1 9 ≤ Nat.min c2 9)
  ∧ (0 <= Score interests1 user_id venue_id)%Q
  ∧ (matches_category user venue = true →
     4 <= Score interests1 user_id venue_id)%Q
  ∧ (matches_category user venue = false →
     Score interests1 user_id venue_id <= 6)%Q
  ∧ ((Score interests1 user_id venue_id == 0)%Q
     ↔ c1 = 0 ∧ matches_category user venue = false).
Proof.
  intros Hu Hv _ _. cbv zeta.
  rewrite !(score_three_factors users_dict venues_dict _ _ _ user venue
              Hu Hv).
  split; [apply three_factors_order|apply three_factors_bounds].
Qed.

Lemma reason_for_new c category_match :
  reason_for c category_match = "New venue to explore"
  ↔ c = 0 ∧ category_match = false.
Proof.
  split; [|by intros [-> ->]].
  destruct c, category_match; cbn; first [done|discriminate].
Qed.

(** X16.  For an existing user and a venue whose interest tags and category
    are ASCII text, the reason returned with the
    score names the factors that contributed: "Popular venue" and the number
    of friends when another user is interested, "Matches your interests"
    when the category matches, in this order, and "New venue to explore"
    exactly when the score is 0.  The third and fourth components are the
    number of interests of other users and of all users in the venue. *)
Theorem reason_names_the_factors (interests : list Interest.t)
    (user_id venue_id : string) (user : User.t) (venue : Venue.t) :
  users_dict !! user_id = Some user →
  dict_get venues_dict venue_id = Some venue →
  is_ascii (Venue.category venue) →
  Forall is_ascii (User.interests user) →
  let result :=
    calculate_recommendation_score users_dict venues_dict interests
                                   user_id venue_id in
  let c := count_friends_interested interests user_id venue_id in
  reason_of result = reason_for c (matches_category user venue)
  ∧ (reason_of result = "New venue to explore" ↔ (score_of result == 0)%Q)
  ∧ result.1.2 = c
  ∧ result.2 = get_interested_count interests venue_id
  ∧ c ≤ get_interested_count interests venue_id.
Proof.
  intros Hu Hv _ _. cbv zeta.
  destruct (calculate_recommendation_score_tuple users_dict venues_dict
              interests user_id venue_id user venue Hu Hv)
    as (Hreason & Hfriends & Htotal).
  split_and!; [done| |done..|].
  - rewrite Hreason, reason_for_new.
    rewrite (score_three_factors users_dict venues_dict _ _ _ user venue
               Hu Hv).
    symmetry. apply three_factors_bounds.
  - rewrite (count_splits interests user_id venue_id). lia.
Qed.

(** ** The category match *)

Lemma lower_ascii_idemp c : lower_ascii (lower_ascii c) = lower_ascii c.
Proof. destruct c as [[] [] [] [] [] [] [] []]; by vm_compute. Qed.

Lemma lower_idemp s : lower (lower s) = lower s.
Proof.
  induction s as [|c s IH]; [done|]. cbn. by rewrite lower_ascii_idemp, IH.
Qed.

Lemma str_in_empty s : str_in "" s = true.
Proof. by destruct s. Qed.

Lemma prefix_refl s : String.prefix s s = true.
Proof.
  induction s as [|c s IH]; [done|]. cbn.
  by destruct (Ascii.ascii_dec c c).
Qed.

Lemma str_in_refl s : str_in s s = true.
Proof.
  destruct s as [|c s]; [done|]. cbn [str_in]. by rewrite prefix_refl.
Qed.

Lemma category_matches_elem category tags :
  category_matches category tags = true
  ↔ ∃ tag, tag ∈ tags
           ∧ (str_in (lower tag) category = true
              ∨ str_in category (lower tag) = true).
Proof.
  induction tags as [|tag tags IH]; cbn.
  { split; [done|]. by intros (tag & Hin%elem_of_nil & _). }
  destruct (str_in (lower tag) category || str_in category (lower tag))
    eqn:Htag.
  - split; [|done]. intros _. exists tag. split; [left|].
    by apply orb_true_iff.
  - rewrite IH. split.
    + intros (tag' & Hin & Hor). exists tag'. split; [by right|done].
    + intros (tag' & [->|Hin]%elem_of_cons & Hor).
      * apply orb_true_iff in Hor. congruence.
      * by exists tag'.
Qed.

(** X17.  The category match of the score: a user without interest tags
    matches no venue; a tag that is the category, up to the case of ASCII
    letters, matches; so does an empty tag, and an empty category matches
    every user with a tag; a match is kept when tags are added; and the case
    of ASCII letters of the tags and of the category does not matter. *)
Theorem category_match_cases (category : string) (tags : list string) :
  category_matches (lower category) [] = false
  ∧ (∀ tag, tag ∈ tags → lower tag = lower category →
            category_matches (lower category) tags = true)
  ∧ ("" ∈ tags → category_matches (lower category) tags = true)
  ∧ (category = "" → tags ≠ [] →
     category_matches (lower category) tags = true)
  ∧ (∀ before after,
       category_matches (lower category) tags = true →
       category_matches (lower category) (before ++ tags ++ after) = true)
  ∧ category_matches (lower (lower category)) (lower <$> tags)
    = category_matches (lower category) tags.
Proof.
  split_and!.
  - done.
  - intros tag Hin Heq. apply category_matches_elem. exists tag.
    split; [done|]. left. rewrite Heq. apply str_in_refl.
  - intros Hin. apply category_matches_elem. exists "".
    split; [done|]. left. apply str_in_empty.
  - intros -> Htags. destruct tags as [|tag tags]; [done|].
    apply category_matches_elem. exists tag. split; [left|].
    right. apply str_in_empty.
  - intros before after (tag & Hin & Hor)%category_matches_elem.
    apply category_matches_elem. exists tag. split; [|done].
    rewrite !elem_of_app. auto.
  - rewrite lower_idemp.
    rewrite !category_matches_existsb.
    induction tags as [|tag tags IH]; [done|]. cbn.
    by rewrite lower_idemp, IH.
Qed.

(** ** The validator of the request ids *)

Lemma id_char_not_space c : is_id_char c = true → isspace c = false.
Proof. destruct c as [[] [] [] [] [] [] [] []]; by vm_compute. Qed.

Lemma rstrip_empty s : rstrip s = "" ↔ all_chars isspace s = true.
Proof.
  induction s as [|c s IH]; [done|]. cbn.
  destruct (rstrip s) as [|c' t] eqn:Hr.
  - destruct (isspace c); cbn; [tauto|]. split; [done|intros [=]].
  - destruct IH as [_ IH]. split; [done|]. intros [_ Hs]%andb_true_iff.
    by specialize (IH Hs).
Qed.

Lemma lstrip_spaces s : all_chars isspace (lstrip s) = all_chars isspace s.
Proof.
  induction s as [|c s IH]; [done|]. cbn.
  destruct (isspace c) eqn:Hc; [done|]. cbn. by rewrite Hc.
Qed.

Lemma strip_empty s : strip s = "" ↔ all_chars isspace s = true.
Proof. unfold strip. by rewrite rstrip_empty, lstrip_spaces. Qed.

Lemma rstrip_id s : all_chars (λ c, negb (isspace c)) s = true → rstrip s = s.
Proof.
  induction s as [|c s IH]; [done|]. cbn.
  intros [Hc Hs]%andb_true_iff. rewrite (IH Hs).
  destruct s; [|done]. by destruct (isspace c).
Qed.

Lemma strip_id s : all_chars is_id_char s = true → strip s = s.
Proof.
  intros Hs. unfold strip.
  assert (all_chars (λ c, negb (isspace c)) s = true) as Hns.
  { induction s as [|c s IH]; [done|]. cbn in *.
    apply andb_true_iff in Hs as [Hc Hs].
    by rewrite (id_char_not_space c Hc), IH. }
  assert (lstrip s = s) as ->; [|by apply rstrip_id].
  destruct s as [|c s]; [done|]. cbn in *.
  apply andb_true_iff in Hs as [Hc _]. by rewrite (id_char_not_space c Hc).
Qed.

(** X18.  The validator of [user_id] and [venue_id], on ASCII text.  It
    accepts exactly the non-empty values of at most 100 characters that are
    made of letters, digits and underscores, and returns them unchanged:
    [strip] removes nothing from a value that is accepted, and a value with
    white space around an id is refused, not trimmed.  The three errors come
    in the order of the checks: an empty or all-blank value is reported as
    empty whatever its length, a value that is too long as too long whatever
    its characters.  A value that is returned is accepted again. *)
Theorem validate_ids_accepts (v : string) :
  is_ascii v →
  (∀ v', validate_ids v = Valid v'
         ↔ v' = v ∧ v ≠ "" ∧ String.length v ≤ 100
           ∧ all_chars is_id_char v = true)
  ∧ (validate_ids v = ValueError "ID cannot be empty"
     ↔ all_chars isspace v = true)
  ∧ (validate_ids v = ValueError "ID too long (max 100 characters)"
     ↔ all_chars isspace v = false ∧ 100 < String.length v)
  ∧ (validate_ids v = ValueError "ID contains invalid characters"
     ↔ all_chars isspace v = false ∧ String.length v ≤ 100
       ∧ all_chars is_id_char v = false)
  ∧ (∀ v', validate_ids v = Valid v' → validate_ids v' = Valid v').
Proof.
  intros _.
  assert (bool_decide (v = "") || bool_decide (strip v = "")
          = all_chars isspace v) as Hblank.
  { destruct (all_chars isspace v) eqn:Hs.
    - apply strip_empty in Hs. rewrite (bool_decide_eq_true_2 _ Hs).
      apply orb_true_r.
    - apply orb_false_iff. split; apply bool_decide_eq_false_2.
      + by intros ->.
      + intros Hs'%strip_empty. congruence. }
  assert (∀ v', validate_ids v = Valid v'
                ↔ v' = v ∧ v ≠ "" ∧ String.length v ≤ 100
                  ∧ all_chars is_id_char v = true) as Hvalid.
  { intros v'. unfold validate_ids. rewrite Hblank. clear Hblank.
    destruct (all_chars isspace v) eqn:Hs.
    { split; [done|]. intros (_ & Hne & _ & Hid).
      apply strip_empty in Hs. by rewrite (strip_id v Hid) in Hs. }
    case_bool_decide as Hlen.
    { split; [done|]. lia. }
    destruct (all_chars is_id_char v) eqn:Hid; cbn.
    - rewrite (strip_id v Hid). split.
      + intros [= Heq]. subst v'. split_and!; [done| |lia|done].
        by intros ->.
      + by intros (-> & _).
    - split; [done|]. by intros (_ & _ & _ & ?). }
  split_and!.
  - exact Hvalid.
  - unfold validate_ids. rewrite Hblank. clear Hblank.
    destruct (all_chars isspace v); [done|].
    case_bool_decide; [done|]. by destruct (all_chars is_id_char v).
  - unfold validate_ids. rewrite Hblank. clear Hblank.
    destruct (all_chars isspace v); [by split; [|intros []]|].
    case_bool_decide as Hlen; [done|].
    destruct (all_chars is_id_char v); cbn; (split; [done|lia]).
  - unfold validate_ids. rewrite Hblank. clear Hblank.
    destruct (all_chars isspace v); [by split; [|intros []]|].
    case_bool_decide as Hlen; [split; [done|lia]|].
    destruct (all_chars is_id_char v); cbn; [by split; [|intros (_&_&?)]|].
    split; [|done]. intros _. split_and!; [done|lia|done].
  - intros v' Hv'. pose proof Hv' as (-> & _)%Hvalid. done.
Qed.

(** ** The read-only requests *)

Lemma run_all_reads_frame calls s :
  Forall (λ c, is_read_only c = true) calls →
  interests_list (run_all calls s) = interests_list s
  ∧ bookings_list (run_all calls s) = bookings_list s
  ∧ venue_locks (run_all calls s) = venue_locks s
  ∧ ∃ records, log (run_all calls s) = log s ++ records
               ∧ Forall (λ record : Level * string, record.1 ≠ ERROR)
                        records.
Proof.
  intros Hcalls. revert s.
  induction Hcalls as [|c calls Hc _ IH]; intros s.
  { split_and!; [done..|]. exists []. by rewrite app_nil_r. }
  change (run_all (c :: calls) s) with (run_all calls (run c s)).
  destruct (IH (run c s)) as (-> & -> & -> & records & -> & Hrecords).
  destruct (run_read_only_frame users_dict venues_dict c s)
    as (-> & -> & -> & records0 & -> & Hrecords0).
  { intros o now request ->. done. }
  split_and!; [done..|]. exists (records0 ++ records).
  rewrite app_assoc. split; [done|]. by apply Forall_app.
Qed.

(** X19.  GET requests, in any number and order, leave the ledger, the
    registry and the locks as they are and add no ERROR record to the log;
    every GET request is answered after them as it would have been before
    them. *)
Theorem reads_change_nothing (calls : list Call) (s : State) :
  Forall (λ c, is_read_only c = true) calls →
  let s' := run_all calls s in
  interests_list s' = interests_list s
  ∧ bookings_list s' = bookings_list s
  ∧ venue_locks s' = venue_locks s
  ∧ (∃ records, log s' = log s ++ records
                ∧ Forall (λ record : Level * string, record.1 ≠ ERROR)
                         records)
  ∧ (get_venues venues_dict s').2 = (get_venues venues_dict s).2
  ∧ (∀ venue_id,
       (get_venue_detail users_dict venues_dict venue_id s').2
       = (get_venue_detail users_dict venues_dict venue_id s).2)
  ∧ (∀ user_id,
       (get_user_profile users_dict venues_dict user_id s').2
       = (get_user_profile users_dict venues_dict user_id s).2)
  ∧ (∀ user_id,
       (get_recommendations users_dict venues_dict user_id s').2
       = (get_recommendations users_dict venues_dict user_id s).2)
  ∧ (∀ user_id,
       (get_user_bookings users_dict venues_dict user_id s').2
       = (get_user_bookings users_dict venues_dict user_id s).2)
  ∧ (∀ venue_id,
       (get_venue_booking venues_dict venue_id s').2
       = (get_venue_booking venues_dict venue_id s).2).
Proof.
  intros Hcalls. cbv zeta.
  destruct (run_all_reads_frame calls s Hcalls)
    as (Hi & Hb & Hl & Hlog).
  do 4 (split; [done|]).
  exact (read_answers_frame users_dict venues_dict _ _ Hi Hb).
Qed.

(** X20.  A GET request about a user or a venue is answered 404 exactly when
    the id is not in the directory: with the message "User with id '<id>'
    not found" or "Venue with id '<id>' not found", and a WARNING as the
    last record of the log.  For an id of the directory the request is
    served. *)
Theorem reads_answer_not_found (s : State) (user_id venue_id : string) :
  match users_dict !! user_id with
  | None =>
      let message := "User with id '" +:+ user_id +:+ "' not found" in
      let record := Some (WARNING, "User not found: " +:+ user_id) in
      (get_user_profile users_dict venues_dict user_id s).2
      = HTTPException 404 message
      ∧ (get_recommendations users_dict venues_dict user_id s).2
        = HTTPException 404 message
      ∧ (get_user_bookings users_dict venues_dict user_id s).2
        = HTTPException 404 message
      ∧ last (log (get_user_profile users_dict venues_dict user_id s).1)
        = record
      ∧ last (log (get_recommendations users_dict venues_dict user_id s).1)
        = record
      ∧ last (log (get_user_bookings users_dict venues_dict user_id s).1)
        = record
  | Some _ =>
      (∃ a, (get_user_profile users_dict venues_dict user_id s).2 = Ok a)
      ∧ (∃ a, (get_recommendations users_dict venues_dict user_id s).2
              = Ok a)
      ∧ (∃ a, (get_user_bookings users_dict venues_dict user_id s).2 = Ok a)
  end
  ∧ match dict_get venues_dict venue_id with
    | None =>
        let message := "Venue with id '" +:+ venue_id +:+ "' not found" in
        let record := Some (WARNING, "Venue not found: " +:+ venue_id) in
        (get_venue_detail users_dict venues_dict venue_id s).2
        = HTTPException 404 message
        ∧ (get_venue_booking venues_dict venue_id s).2
          = HTTPException 404 message
        ∧ last (log (get_venue_detail users_dict venues_dict venue_id s).1)
          = record
        ∧ last (log (get_venue_booking venues_dict venue_id s).1) = record
    | Some _ =>
        (∃ a, (get_venue_detail users_dict venues_dict venue_id s).2 = Ok a)
        ∧ (∃ a, (get_venue_booking venues_dict venue_id s).2 = Ok a)
    end.
Proof.
  split.
  - destruct (users_dict !! user_id) as [user|] eqn:Hu.
    + unfold get_user_profile, get_recommendations, get_user_bookings.
      rewrite Hu. split_and!; by eexists.
    + exact (read_user_not_found users_dict venues_dict user_id s Hu).
  - destruct (dict_get venues_dict venue_id) as [venue|] eqn:Hv.
    + unfold get_venue_detail, get_venue_booking. rewrite Hv.
      split; [by eexists|]. state_proj.
      destruct (first_active venue_id (bookings_list s)) as [[? ?]|];
        by eexists.
    + exact (read_venue_not_found users_dict venues_dict venue_id s Hv).
Qed.

(** ** GET /venues *)

Lemma sum_indicator (keys : list string) (key : string) :
  NoDup keys →
  sum_list ((λ k, if decide (key = k) then 1 else 0) <$> keys)
  = if decide (key ∈ keys) then 1 else 0.
Proof.
  induction 1 as [|k keys Hk _ IH]; [done|]. cbn. rewrite IH.
  destruct (decide (key = k)) as [->|Hne].
  - rewrite (decide_False (P := k ∈ keys)) by done.
    rewrite decide_True; [done|]. by left.
  - destruct (decide (key ∈ keys)) as [Hin|Hin].
    + rewrite decide_True; [done|]. by right.
    + rewrite decide_False; [done|].
      intros [?|?]%elem_of_cons; done.
Qed.

Lemma sum_list_add {A} (f g : A → nat) (l : list A) :
  sum_list ((λ x, f x + g x) <$> l)
  = sum_list (f <$> l) + sum_list (g <$> l).
Proof. induction l as [|x l IH]; cbn; [done|]. rewrite IH. lia. Qed.

Lemma counts_add_up (keys : list string) (interests : list Interest.t) :
  NoDup keys →
  sum_list (get_interested_count interests <$> keys)
  = length (filter (λ interest, Interest.venue_id interest ∈ keys)
                   interests).
Proof.
  intros Hkeys. unfold get_interested_count.
  induction interests as [|x interests IH].
  { cbn. induction keys as [|k keys IHk]; [done|].
    cbn. apply IHk. by apply NoDup_cons in Hkeys as [_ ?]. }
  transitivity
    (sum_list ((λ k, (if decide (Interest.venue_id x = k) then 1 else 0)
                     + length (filter (λ interest,
                                         Interest.venue_id interest = k)
                                      interests)) <$> keys)).
  { f_equal. apply list_fmap_ext. intros _ k _. rewrite filter_cons.
    by destruct (decide (Interest.venue_id x = k)). }
  rewrite sum_list_add, IH, (sum_indicator _ _ Hkeys), filter_cons.
  by destruct (decide (Interest.venue_id x ∈ keys)).
Qed.

Lemma dict_get_elem {V} (d : list (string * V)) key v :
  NoDup d.*1 → (key, v) ∈ d → dict_get d key = Some v.
Proof.
  induction d as [|[k v'] d IH]; cbn.
  { by intros _ ?%elem_of_nil. }
  intros [Hk Hd]%NoDup_cons [[= -> ->]|Hin]%elem_of_cons.
  - by rewrite bool_decide_eq_true_2.
  - rewrite bool_decide_eq_false_2; [by apply IH|].
    intros <-. apply Hk, list_elem_of_fmap. by exists (k, v).
Qed.

(** X21.  GET /venues lists one entry per venue of the directory, in the
    order of the directory, with the number of interests in the venue of
    that id.  In a directory that stores each venue once and under its own
    id, the counts of the list add up to the number of interests of the
    ledger that are in a venue of the directory: to the size of the ledger,
    in a state reached from a ledger whose users and venues are in the
    directory. *)
Theorem venue_counts_add_up (data_interests : list Interest.t) (s : State) :
  reachable data_interests s →
  NoDup venues_dict.*1 →
  directory_well_keyed venues_dict →
  let venues := (get_venues venues_dict s).2 in
  let count (entry : string * string * string * string * nat) := entry.2 in
  let id (entry : string * string * string * string * nat) :=
    entry.1.1.1.1 in
  id <$> venues = venues_dict.*1
  ∧ (∀ entry, entry ∈ venues →
              count entry = get_interested_count (interests_list s)
                                                 (id entry))
  ∧ sum_list (count <$> venues)
    = length (filter (λ interest,
                        Interest.venue_id interest ∈ venues_dict.*1)
                     (interests_list s))
  ∧ (ledger_users_known users_dict data_interests
     ∧ ledger_venues_known venues_dict data_interests →
     sum_list (count <$> venues) = length (interests_list s)).
Proof.
  intros Hreach Hkeys Hkeyed. cbv zeta. unfold get_venues. state_proj.
  rewrite <- !list_fmap_compose.
  assert (∀ item : string * Venue.t,
            item ∈ venues_dict → Venue.id item.2 = item.1) as Hid.
  { intros [key venue] Hin. cbn. apply Hkeyed. by apply dict_get_elem. }
  assert (sum_list
            ((λ item : string * Venue.t,
                get_interested_count (interests_list s) (Venue.id item.2))
               <$> venues_dict)
          = length (filter (λ interest,
                              Interest.venue_id interest ∈ venues_dict.*1)
                           (interests_list s))) as Hsum.
  { rewrite <- (counts_add_up _ _ Hkeys), <- list_fmap_compose. f_equal.
    apply list_fmap_ext. intros _ item Hin%list_elem_of_lookup_2. cbn.
    by rewrite (Hid item Hin). }
  split_and!.
  - apply list_fmap_ext. intros _ item Hin%list_elem_of_lookup_2. cbn.
    by apply Hid.
  - by intros entry (item & -> & _)%list_elem_of_fmap.
  - exact Hsum.
  - intros Hdata. etrans; [exact Hsum|].
    destruct (reachable_known _ _ Hreach Hdata) as [_ Hvenues].
    rewrite filter_all; [done|]. apply Forall_forall. intros interest Hin.
    destruct (Hvenues interest Hin) as [venue Hv].
    by apply dict_get_Some_in in Hv.
Qed.

End Further.

(** * Concrete checks of the further properties *)

Lemma demo_venues_well_keyed : directory_well_keyed demo_venues.
Proof.
  intros key venue. unfold demo_venues. cbn.
  repeat case_bool_decide; intros [= <-]; by subst.
Qed.

Lemma demo_data_known :
  ledger_users_known demo_users [] ∧ ledger_venues_known demo_venues [].
Proof. split; intros interest Hin; by apply elem_of_nil in Hin. Qed.

(** X3 on a run: Alice toggles on the bar while the collaborator is down. *)
Lemma toggle_on_any_collaborator_witness :
  let result :=
    express_interest_with demo_users demo_venues failing_agent 9
      (InterestRequest.mk "alice" "venue_2") demo_two in
  ∃ response,
    result.2 = Ok response
    ∧ InterestResponse.success response = true
    ∧ interests_list result.1
      = interests_list demo_two ++ [Interest.mk "alice" "venue_2" 9].
Proof.
  destruct (toggle_on_any_collaborator demo_users demo_venues
              failing_agent 9 demo_two "alice" "venue_2"
              (User.mk "alice" "Alice" "alice.png" "Coffee lover"
                       ["coffee"; "food"])
              demo_bar) as (response & Hr & Hs & Hi & _).
  - reflexivity.
  - reflexivity.
  - compute_done.
  - exists response. split_and!; [exact Hr|exact Hs|exact Hi].
Defined.

(** X4 on a run: Carol is the third user interested in the cafe, and the
    collaborator leaves out the message. *)
Lemma booking_installed_despite_fault_witness :
  let result :=
    express_interest_with demo_users demo_venues forgetful_agent 3
      (InterestRequest.mk "carol" "venue_1") demo_two in
  result.2 = Ok interest_recorded
  ∧ bookings_list result.1
    = [Booking.mk "booking_9" "venue_1" ["alice"; "bob"; "carol"] "TABLE-9"
                  "2025-01-01T12:00:00" "active"]
  ∧ last (log result.1) = Some (ERROR, "Booking agent error: 'message'").
Proof.
  apply (booking_installed_despite_fault demo_users demo_venues
           forgetful_agent 3 demo_two "carol" "venue_1"
           (User.mk "carol" "Carol" "carol.png" "Painter" ["art"])
           demo_cafe (Some "reservation_simulated") (Some "venue_1")
           "booking_9" "TABLE-9" "2025-01-01T12:00:00"
           ["alice"; "bob"; "carol"]).
  - reflexivity.
  - reflexivity.
  - compute_done.
  - reflexivity.
Defined.

(** X5 on a run. *)
Lemma no_error_is_logged_witness : no_error_logged demo_four.
Proof.
  apply (no_error_is_logged demo_users demo_venues [] demo_four).
  apply demo_reachable.
Defined.

(** X6 on a run: Carol gets the booking, and GET /venues/venue_1/booking
    shows its code. *)
Lemma answer_agrees_with_registry_witness :
  let result :=
    express_interest demo_users demo_venues (demo_oracle 4821) 3
      (InterestRequest.mk "carol" "venue_1") demo_two in
  length (bookings_list result.1) = S (length (bookings_list demo_two))
  ∧ ∃ booking,
      (get_venue_booking demo_venues "venue_1" result.1).2
      = Ok (VenueBookingResponse.mk true (Some booking))
      ∧ VenueBooking.reservation_code booking = "LUNA-venue_1-4821".
Proof.
  pose proof (answer_agrees_with_registry demo_users demo_venues []
                demo_two (demo_oracle 4821) 3 "carol" "venue_1"
                (booking_created (created_message 3 demo_cafe)
                                 "LUNA-venue_1-4821")
                (demo_reachable _)) as H.
  cbv zeta in H. destruct (H eq_refl) as (Hlen & Hcode & _).
  split.
  - apply Hlen. reflexivity.
  - apply Hcode. reflexivity.
Defined.

(** X7 on a run: Alice withdraws from the cafe. *)
Lemma toggle_changes_one_pair_witness :
  let s' := (express_interest_with demo_users demo_venues failing_agent 9
               (InterestRequest.mk "alice" "venue_1") demo_two).1 in
  S (get_interested_count (interests_list s') "venue_1")
  = get_interested_count (interests_list demo_two) "venue_1"
  ∧ others_interests "alice" (interests_list s')
    = others_interests "alice" (interests_list demo_two).
Proof.
  destruct (toggle_changes_one_pair demo_users demo_venues failing_agent 9
              demo_two "alice" "venue_1"
              (User.mk "alice" "Alice" "alice.png" "Coffee lover"
                       ["coffee"; "food"])
              demo_cafe) as (_ & Hothers & Hoff & _).
  - reflexivity.
  - reflexivity.
  - split; [|exact Hothers]. apply Hoff. compute_done.
Defined.

(** X8 on a run. *)
Lemma active_booking_iff_threshold_witness :
  Forall (λ b, Booking.status b = "active" →
               3 ≤ get_interested_count (interests_list demo_three)
                                        (Booking.venue_id b))
         (bookings_list demo_three).
Proof.
  destruct (active_booking_iff_threshold demo_users demo_venues []
              demo_three) as [Hactive _].
  - apply demo_reachable.
  - apply Forall_forall. intros b Hin. exact (Hactive b Hin).
Defined.

(** X9 on a run. *)
Lemma registry_is_well_formed_witness :
  ∃ b, bookings_list demo_three !! 0 = Some b
       ∧ booking_well_formed demo_venues 0 b.
Proof.
  destruct (registry_is_well_formed demo_users demo_venues []
              demo_three) as [Hwf _].
  - apply demo_reachable.
  - eexists. split.
    + reflexivity.
    + apply Hwf. reflexivity.
Defined.

(** X10 on a run: Alice has the booking of the cafe. *)
Lemma user_bookings_are_the_active_ones_witness :
  ∃ entries,
    (get_user_bookings demo_users demo_venues "alice" demo_three).2
    = Ok entries
    ∧ UserBooking.id <$> entries = ["booking_1"].
Proof.
  destruct (user_bookings_are_the_active_ones demo_users demo_venues []
              demo_three "alice"
              (User.mk "alice" "Alice" "alice.png" "Coffee lover"
                       ["coffee"; "food"]))
    as (entries & Hok & Hids & _).
  - apply demo_reachable.
  - reflexivity.
  - exists entries. split; [exact Hok|]. rewrite Hids. reflexivity.
Defined.

(** X11 on a run: when Carol gets the booking, Alice has it too. *)
Lemma booking_lists_who_was_interested_witness :
  let result :=
    express_interest demo_users demo_venues (demo_oracle 4821) 3
      (InterestRequest.mk "carol" "venue_1") demo_two in
  ∃ entries e,
    (get_user_bookings demo_users demo_venues "alice" result.1).2
    = Ok entries
    ∧ e ∈ entries
    ∧ UserBooking.reservation_code e = "LUNA-venue_1-4821".
Proof.
  destruct (booking_lists_who_was_interested demo_users demo_venues
              demo_two (demo_oracle 4821) 3 "carol" "venue_1"
              (User.mk "carol" "Carol" "carol.png" "Painter" ["art"])
              demo_cafe) as (response & Hr & Hon & _).
  - reflexivity.
  - reflexivity.
  - compute_done.
  - change (Ok (booking_created (created_message 3 demo_cafe)
                                "LUNA-venue_1-4821") = Ok response) in Hr.
    injection Hr as <-.
    destruct (Hon eq_refl "alice"
                (User.mk "alice" "Alice" "alice.png" "Coffee lover"
                         ["coffee"; "food"]) eq_refl)
      as (entries & e & Hok & Hin & Hcode).
    + compute_done.
    + exists entries, e. split_and!; [exact Hok|exact Hin|].
      by injection Hcode.
Defined.

(** X12 on a run: the entry of the cafe for Alice. *)
Lemma recommendation_counts_witness :
  let r := recommendation_entry demo_users demo_venues
             (interests_list demo_three) "alice" ("venue_1", demo_cafe) in
  Recommendation.total_interested r
  = Recommendation.friends_interested r + 1.
Proof.
  destruct (recommendation_counts demo_users demo_venues
              (interests_list demo_three) "alice" "venue_1"
              (User.mk "alice" "Alice" "alice.png" "Coffee lover"
                       ["coffee"; "food"])
              demo_cafe demo_cafe) as (_ & _ & _ & Huniq).
  - reflexivity.
  - reflexivity.
  - apply Huniq. compute_done.
Defined.

(** X13 on a run. *)
Lemma venue_detail_lists_known_users_witness :
  ∃ users,
    (get_venue_detail demo_users demo_venues "venue_1" demo_three).2
    = Ok (demo_cafe, users)
    ∧ (λ entry : string * string * string, entry.1.1) <$> users
      = ["alice"; "bob"; "carol"].
Proof.
  destruct (venue_detail_lists_known_users demo_users demo_venues []
              demo_three "venue_1" demo_cafe)
    as (users & Hok & _ & _ & Hknown).
  - apply demo_reachable.
  - reflexivity.
  - exists users. split; [exact Hok|].
    destruct (Hknown demo_data_known) as [Hids _]. exact Hids.
Defined.

(** X14 on a run. *)
Lemma profile_lists_interested_venues_witness :
  ∃ venues,
    (get_user_profile demo_users demo_venues "alice" demo_three).2
    = Ok (User.mk "alice" "Alice" "alice.png" "Coffee lover"
                  ["coffee"; "food"], venues)
    ∧ length venues = 1.
Proof.
  destruct (profile_lists_interested_venues demo_users demo_venues []
              demo_three "alice"
              (User.mk "alice" "Alice" "alice.png" "Coffee lover"
                       ["coffee"; "food"]))
    as (venues & Hok & _ & _ & _ & _ & Hknown).
  - apply demo_reachable.
  - reflexivity.
  - exists venues. split; [exact Hok|].
    exact (proj2 (Hknown demo_data_known)).
Defined.

(** X15 on a run: for Erin the cafe scores no less with three users
    interested than with two. *)
Lemma score_grows_with_interest_witness :
  (score_of (calculate_recommendation_score demo_users demo_venues
               (interests_list demo_two) "erin" "venue_1")
   <= score_of (calculate_recommendation_score demo_users demo_venues
                  (interests_list demo_three) "erin" "venue_1"))%Q.
Proof.
  destruct (score_grows_with_interest demo_users demo_venues
              (interests_list demo_two) (interests_list demo_three)
              "erin" "venue_1"
              (User.mk "erin" "Erin" "erin.png" "Mixologist"
                       ["Cocktail Bars"])
              demo_cafe) as (Horder & _).
  - reflexivity.
  - reflexivity.
  - reflexivity.
  - by repeat constructor.
  - apply Horder. compute_done.
Defined.

(** X16 on a run. *)
Lemma reason_names_the_factors_witness :
  reason_of (calculate_recommendation_score demo_users demo_venues
               (interests_list demo_three) "erin" "venue_1")
  = "Popular venue, 3 friends interested".
Proof.
  destruct (reason_names_the_factors demo_users demo_venues
              (interests_list demo_three) "erin" "venue_1"
              (User.mk "erin" "Erin" "erin.png" "Mixologist"
                       ["Cocktail Bars"])
              demo_cafe) as (Hreason & _).
  - reflexivity.
  - reflexivity.
  - reflexivity.
  - by repeat constructor.
  - exact Hreason.
Defined.

(** X18 on two values: an id, and the same id after a blank. *)
Lemma validate_ids_accepts_witness :
  validate_ids "user_1" = Valid "user_1"
  ∧ validate_ids " user_1" = ValueError "ID contains invalid characters".
Proof.
  split.
  - destruct (validate_ids_accepts "user_1") as (Hvalid & _).
    + reflexivity.
    + apply Hvalid. split_and!; [reflexivity|discriminate| |reflexivity].
      cbn. lia.
  - destruct (validate_ids_accepts " user_1") as (_ & _ & _ & Hinvalid & _).
    + reflexivity.
    + apply Hinvalid. split_and!; [reflexivity| |reflexivity].
      cbn. lia.
Defined.

(** X19 on a run: four GET requests after the booking. *)
Lemma reads_change_nothing_witness :
  let s' := run_all demo_users demo_venues demo_reads demo_three in
  interests_list s' = interests_list demo_three
  ∧ bookings_list s' = bookings_list demo_three
  ∧ (get_user_bookings demo_users demo_venues "alice" s').2
    = (get_user_bookings demo_users demo_venues "alice" demo_three).2.
Proof.
  destruct (reads_change_nothing demo_users demo_venues demo_reads
              demo_three)
    as (Hi & Hb & _ & _ & _ & _ & _ & _ & Hbookings & _).
  - by repeat constructor.
  - split_and!; [exact Hi|exact Hb|exact (Hbookings "alice")].
Defined.

(** X21 on a run: three interests, all in the cafe. *)
Lemma venue_counts_add_up_witness :
  sum_list ((λ entry : string * string * string * string * nat, entry.2)
              <$> (get_venues demo_venues demo_three).2)
  = length (interests_list demo_three).
Proof.
  destruct (venue_counts_add_up demo_users demo_venues [] demo_three)
    as (_ & _ & _ & Hsum).
  - apply demo_reachable.
  - compute_done.
  - exact demo_venues_well_keyed.
  - exact (Hsum demo_data_known).
Defined.
